(** * XrdCl operation handlers (src/XrdCl/XrdClOperationHandlers.hh)

    A shallow embedding of the handler-adaptation layer of the XRootD client:
    the [ForwardingHandler] base class, the wrapper classes built on it
    (object wrapper, lambda wrappers, open-with-stat wrappers, the
    promise/future wrapper) and the [Resp] factories.

    The C++ code manipulates heap objects through raw pointers and every
    handler ends its callback with [delete this].  The embedding therefore
    keeps an explicit object store, runs the member functions in a state and
    fault monad over it, and records in a trace every call that leaves the
    layer (user callables, wrapped handlers, [File::Stat]) together with
    every deallocation.  A user callable may write through the references it
    is handed; what else it does is its own business. *)

From stdpp Require Import gmap strings list fin_maps.
From Stdlib Require Import ZArith.

(** ** Addresses and pointers *)

Definition loc := positive.

(** The four static data members called [nullref] in the header.  The two
    class templates have one static per instantiation, hence the type name. *)
Inductive static_id :=
| FunctionWrapper_nullref (ResponseType : string)
| ForwardingFunctionWrapper_nullref (ResponseType : string)
| ExOpenFuncWrapper_nullref
| ForwardingExOpenFuncWrapper_nullref.

#[global] Instance static_id_eq_dec : EqDecision static_id.
Proof. solve_decision. Defined.

#[global] Instance static_id_countable : Countable static_id.
Proof.
  refine (inj_countable'
            (fun s => match s with
                      | FunctionWrapper_nullref T => inl (false, T)
                      | ForwardingFunctionWrapper_nullref T => inl (true, T)
                      | ExOpenFuncWrapper_nullref => inr false
                      | ForwardingExOpenFuncWrapper_nullref => inr true
                      end)
            (fun x => match x with
                      | inl (false, T) => FunctionWrapper_nullref T
                      | inl (true, T) => ForwardingFunctionWrapper_nullref T
                      | inr false => ExOpenFuncWrapper_nullref
                      | inr true => ForwardingExOpenFuncWrapper_nullref
                      end) _).
  intros []; reflexivity.
Defined.

(** A pointer is null, the address of an object of the store, or the address
    of one of the statics.  A C++ reference argument is represented by the
    address it is bound to. *)
Inductive ptr :=
| nullptr
| addr (l : loc)
| static_addr (s : static_id).

#[global] Instance ptr_eq_dec : EqDecision ptr.
Proof. solve_decision. Defined.

(** ** Status *)

(** The numeric constants of XrdClStatus.hh are not part of the sources at
    hand; the development is parametric in them. *)
Class StatusCodes := {
  stOK : Z;
  stError : Z;
  errPipelineFailed : Z
}.

(** Modelled from the spec: [XRootDStatus] (XrdClXRootDResponses.hh and
    XrdClStatus.hh are not among the sources), "a status (success/failure
    code + message)".  The two-argument constructor used by the destructor of
    [FutureWrapperBase] leaves the remaining fields at their defaults. *)
Record XRootDStatus := mkStatus {
  status : Z;
  code : Z;
  errNo : Z;
  message : string
}.

Definition XRootDStatus_ctor (st c : Z) : XRootDStatus :=
  mkStatus st c 0 "".

Definition IsOK {codes : StatusCodes} (s : XRootDStatus) : bool :=
  Z.eqb (status s) stOK.

(** ** Response objects *)

(** The domain response types (StatInfo, buffers, ...) are outside the layer:
    an object is the name of its type and its contents, which are either
    those left by the default constructor or some data. *)
Inductive content :=
| DefaultConstructed
| Data (d : list Z).

Record Object := mkObject {
  type_name : string;
  value : content
}.

Definition StatInfo_name : string := "StatInfo".

(** The type of a static [nullref].  The header defines each of them
    without an initialiser: the object starts in the default-constructed
    state.  The store of the statics keeps what has been written to them
    since; a static that was never written is absent from it. *)
Definition static_type (s : static_id) : string :=
  match s with
  | FunctionWrapper_nullref T => T
  | ForwardingFunctionWrapper_nullref T => T
  | ExOpenFuncWrapper_nullref => StatInfo_name
  | ForwardingExOpenFuncWrapper_nullref => StatInfo_name
  end.

Definition static_value (statics : gmap static_id content) (s : static_id)
    : Object :=
  mkObject (static_type s) (default DefaultConstructed (statics !! s)).

(** Modelled from the spec: [AnyObject] (XrdClAnyObject.hh is not among the
    sources), the "optional typed response payload" of an outcome.  [Get]
    hands out the held object when asked at the type it was stored with and
    null otherwise; destroying the [AnyObject] destroys the payload. *)
Record AnyObject := mkAnyObject {
  pHolder : ptr;
  pTypeName : string
}.

Definition AnyObject_Get (a : AnyObject) (T : string) : ptr :=
  if String.eqb (pTypeName a) T then pHolder a else nullptr.

(** ** Exceptions and the promise/future shared state *)

(** [PipelineException] wraps a copy of a status; [broken_promise] is what
    the standard library stores when a promise dies unsatisfied. *)
Inductive exception :=
| PipelineException (error : XRootDStatus)
| broken_promise.

Definition GetError (e : exception) : option XRootDStatus :=
  match e with
  | PipelineException error => Some error
  | broken_promise => None
  end.

(** [Value None] is the completion of a [std::promise<void>]. *)
Inductive shared_state :=
| Pending
| Value (v : option Object)
| Exception (e : exception).

(** ** Handlers *)

(** A user callable, the target of a [std::function]: its identity, and
    what it leaves behind the [XRootDStatus&] and the response reference it
    is handed, given what it finds there ([None] for nothing to read,
    respectively for leaving the object alone). *)
Record callable := mkCallable {
  ident : N;
  body : option XRootDStatus -> option Object ->
         option XRootDStatus * option content
}.

(** Modelled from the spec: [File] (XrdClFile.hh is not among the sources).
    The only member used is the synchronous [Stat], "which allocates its own
    result object": a file is what that call would currently answer, a
    status and, when it produces one, the metadata. *)
Record File := mkFile {
  stat_status : XRootDStatus;
  stat_info : option content
}.

(** The dynamic type of a [ForwardingHandler] and the data members of the
    derived class. *)
Inductive kind :=
| Base
| WrappingHandler (handler : ptr)
| SimpleFunctionWrapper (fn : callable)
| FunctionWrapper (ResponseType : string) (fn : callable)
| SimpleForwardingFunctionWrapper (fn : callable)
| ForwardingFunctionWrapper (ResponseType : string) (fn : callable)
| ExOpenFuncWrapper (f : loc) (fn : callable)
| ForwardingExOpenFuncWrapper (f : loc) (fn : callable)
| FutureWrapper (Response : option string) (prms : loc) (called : bool).

Record ForwardingHandler := mkHandler {
  container : loc;
  dyn : kind
}.

(** ** The object store *)

(** Modelled from the spec: the cells [CArgsContainer] and
    [COperationContext] ([ArgsContainer] and [OperationContext] are not among
    the sources).  The container is "a mapping from a (type-tag, integer
    bucket) pair to an owned value"; it is held through [std::shared_ptr],
    whose use count is kept with it.  An operation context holds one more
    share of a container.  The other cells are the objects the header
    handles: statuses, responses and their payloads, host lists, files, the
    shared state of a promise, the caller's future, a caller-defined
    [ResponseHandler] and the handlers of this layer. *)
Inductive cell :=
| CStatus (s : XRootDStatus)
| CAnyObject (a : AnyObject)
| CHostList (hosts : list string)
| CObject (o : Object)
| CFile (f : File)
| CArgsContainer (use_count : nat) (args : gmap (string * Z) Object)
| COperationContext (c : loc)
| CSharedState (s : shared_state)
| CFuture (state : option loc)
| CResponseHandler (id : N)
| CForwardingHandler (h : ForwardingHandler).

(** What leaves the layer, and what it gives back to the allocator. *)
Inductive event :=
| EvCall (fn : callable)
         (status_arg : ptr * option XRootDStatus)
         (response_arg : option (ptr * option Object))
         (context_arg : option (ptr * option loc))
| EvStat (f : loc) (force : bool)
| EvHandle (h : loc) (id : N) (status_arg response_arg : ptr)
           (hostList_arg : option ptr)
| EvFree (l : loc).

Record world := World {
  heap : gmap loc cell;
  statics : gmap static_id content;
  trace : list event
}.

(** ** The monad *)

Inductive fault :=
| NullDereference
| DanglingPointer
| BadCast
| BadDelete
| PromiseAlreadySatisfied
| MissingKey
| NoMatchingOverload
| OutOfFuel.

Inductive result (A : Type) :=
| Ok (a : A) (w : world)
| Fault (f : fault).

Arguments Ok {A} a w.
Arguments Fault {A} f.

Definition M (A : Type) : Type := world -> result A.

Definition ret {A} (a : A) : M A := fun w => Ok a w.

Definition bind {A B} (m : M A) (k : A -> M B) : M B :=
  fun w => match m w with
           | Ok a w' => k a w'
           | Fault f => Fault f
           end.

Definition raise {A} (f : fault) : M A := fun _ => Fault f.

Notation "'let*' x ':=' c 'in' k" := (bind c (fun x => k))
  (at level 10, x name, c at level 100, k at level 200, only parsing).

Notation "c1 '>>' c2" := (bind c1 (fun _ => c2))
  (at level 100, c2 at level 200, right associativity, only parsing).

(** ** Store primitives *)

Definition load (l : loc) : M cell :=
  fun w => match heap w !! l with
           | Some c => Ok c w
           | None => Fault DanglingPointer
           end.

Definition store (l : loc) (c : cell) : M unit :=
  fun w => Ok tt (World (<[l := c]> (heap w)) (statics w) (trace w)).

Definition alloc (c : cell) : M loc :=
  fun w => let l := fresh (dom (heap w)) in
           Ok l (World (<[l := c]> (heap w)) (statics w) (trace w)).

Definition free (l : loc) : M unit :=
  fun w => Ok tt (World (delete l (heap w)) (statics w)
                    (trace w ++ [EvFree l])).

Definition log (e : event) : M unit :=
  fun w => Ok tt (World (heap w) (statics w) (trace w ++ [e])).

(** Reading through a pointer ([p->...]). *)
Definition deref (p : ptr) : M cell :=
  match p with
  | nullptr => raise NullDereference
  | addr l => load l
  | static_addr s => fun w => Ok (CObject (static_value (statics w) s)) w
  end.

Definition read_status (p : ptr) : M XRootDStatus :=
  let* c := deref p in
  match c with CStatus s => ret s | _ => raise BadCast end.

Definition read_AnyObject (p : ptr) : M AnyObject :=
  let* c := deref p in
  match c with CAnyObject a => ret a | _ => raise BadCast end.

Definition read_Object (p : ptr) : M Object :=
  let* c := deref p in
  match c with CObject o => ret o | _ => raise BadCast end.

Definition read_File (l : loc) : M File :=
  let* c := load l in
  match c with CFile f => ret f | _ => raise BadCast end.

Definition read_handler (p : ptr) : M ForwardingHandler :=
  let* c := deref p in
  match c with CForwardingHandler h => ret h | _ => raise BadCast end.

(** What a callee sees behind a reference at the time of the call; these
    never fault, a reference bound through a null or stale pointer shows
    nothing. *)
Definition peek_status (w : world) (p : ptr) : option XRootDStatus :=
  match p with
  | addr l => match heap w !! l with Some (CStatus s) => Some s | _ => None end
  | _ => None
  end.

Definition peek_Object (w : world) (p : ptr) : option Object :=
  match p with
  | nullptr => None
  | addr l => match heap w !! l with Some (CObject o) => Some o | _ => None end
  | static_addr s => Some (static_value (statics w) s)
  end.

Definition peek_context (w : world) (p : ptr) : option loc :=
  match p with
  | addr l => match heap w !! l with
              | Some (COperationContext c) => Some c
              | _ => None
              end
  | _ => None
  end.

(** ** [delete] and the destructors *)

(** [delete p]: nothing for a null pointer, otherwise the destructor of the
    pointee runs and its storage is released. *)
Definition delete_ (dtor : cell -> M unit) (p : ptr) : M unit :=
  match p with
  | nullptr => ret tt
  | addr l => let* c := load l in dtor c >> free l
  | static_addr _ => raise BadDelete
  end.

Definition XRootDStatus_dtor (c : cell) : M unit :=
  match c with CStatus _ => ret tt | _ => raise BadCast end.

Definition HostList_dtor (c : cell) : M unit :=
  match c with CHostList _ => ret tt | _ => raise BadCast end.

Definition Object_dtor (c : cell) : M unit :=
  match c with CObject _ => ret tt | _ => raise BadCast end.

Definition AnyObject_dtor (c : cell) : M unit :=
  match c with
  | CAnyObject a => delete_ Object_dtor (pHolder a)
  | _ => raise BadCast
  end.

Definition delete_status : ptr -> M unit := delete_ XRootDStatus_dtor.
Definition delete_hostList : ptr -> M unit := delete_ HostList_dtor.
Definition delete_info : ptr -> M unit := delete_ Object_dtor.
Definition delete_response : ptr -> M unit := delete_ AnyObject_dtor.

(** [std::shared_ptr<ArgsContainer>]: taking and dropping a share. *)
Definition shared_ptr_copy (c : loc) : M unit :=
  let* x := load c in
  match x with
  | CArgsContainer n args => store c (CArgsContainer (S n) args)
  | _ => raise BadCast
  end.

Definition shared_ptr_release (c : loc) : M unit :=
  let* x := load c in
  match x with
  | CArgsContainer (S (S n)) args => store c (CArgsContainer (S n) args)
  | CArgsContainer _ _ => free c
  | _ => raise BadCast
  end.

(** [std::promise]: the shared state is written at most once; a second
    write throws.  A promise that dies unsatisfied breaks its promise. *)
Definition promise_set (prms : loc) (r : shared_state) : M unit :=
  let* c := load prms in
  match c with
  | CSharedState Pending => store prms (CSharedState r)
  | CSharedState _ => raise PromiseAlreadySatisfied
  | _ => raise BadCast
  end.

Definition promise_dtor (prms : loc) : M unit :=
  let* c := load prms in
  match c with
  | CSharedState Pending => store prms (CSharedState (Exception broken_promise))
  | CSharedState _ => ret tt
  | _ => raise BadCast
  end.

(** What [std::future::get] does on the caller's side. *)
Inductive wait_result :=
| Blocks
| Returns (v : option Object)
| Throws (e : exception)
| NoState.

Definition future_get (w : world) (ftr : loc) : wait_result :=
  match heap w !! ftr with
  | Some (CFuture (Some s)) =>
      match heap w !! s with
      | Some (CSharedState Pending) => Blocks
      | Some (CSharedState (Value v)) => Returns v
      | Some (CSharedState (Exception e)) => Throws e
      | _ => NoState
      end
  | _ => NoState
  end.

Section Handlers.

Context {codes : StatusCodes}.

(** [FutureWrapperBase::SetException] *)
Definition SetException (prms : loc) (err : XRootDStatus) : M unit :=
  promise_set prms (Exception (PipelineException err)).

(** [FutureWrapperBase::~FutureWrapperBase] *)
Definition FutureWrapperBase_dtor (prms : loc) (called : bool) : M unit :=
  if negb called
  then SetException prms (XRootDStatus_ctor stError errPipelineFailed)
  else ret tt.

(** The destructor of a handler: the body of the most derived class, then
    its data members, then the base class with its share of the container. *)
Definition ForwardingHandler_dtor (c : cell) : M unit :=
  match c with
  | CForwardingHandler h =>
      match dyn h with
      | FutureWrapper _ prms called =>
          FutureWrapperBase_dtor prms called >> promise_dtor prms
      | _ => ret tt
      end >>
      shared_ptr_release (container h)
  | _ => raise BadCast
  end.

Definition delete_this : ptr -> M unit := delete_ ForwardingHandler_dtor.

(** ** [ForwardingHandler] *)

(** [ForwardingHandler::GetOperationContext]; the result is owned by a
    [std::unique_ptr], destroyed by [OperationContext_reset]. *)
Definition GetOperationContext (this : ptr) : M ptr :=
  let* h := read_handler this in
  shared_ptr_copy (container h) >>
  let* ctx := alloc (COperationContext (container h)) in
  ret (addr ctx).

Definition OperationContext_dtor (c : cell) : M unit :=
  match c with
  | COperationContext k => shared_ptr_release k
  | _ => raise BadCast
  end.

Definition OperationContext_reset : ptr -> M unit :=
  delete_ OperationContext_dtor.

(** Assignments a callable makes through its references; a reference that
    shows nothing is not written. *)
Definition assign_status (p : ptr) (new : option XRootDStatus) : M unit :=
  fun w =>
    match p, peek_status w p, new with
    | addr l, Some _, Some s => store l (CStatus s) w
    | _, _, _ => Ok tt w
    end.

Definition assign_Object (p : ptr) (new : option content) : M unit :=
  fun w =>
    match p, peek_Object w p, new with
    | addr l, Some o, Some d => store l (CObject (mkObject (type_name o) d)) w
    | static_addr s, _, Some d =>
        Ok tt (World (heap w) (<[s := d]> (statics w)) (trace w))
    | _, _, _ => Ok tt w
    end.

(** Calling the stored [std::function]: the call is recorded with the
    addresses the references are bound to and what lies behind them, then
    the callable's assignments take effect. *)
Definition invoke (fn : callable) (status : ptr) (response : option ptr)
    (context : option ptr) : M unit :=
  fun w =>
    let seen_status := peek_status w status in
    let seen_response :=
      match response with
      | Some p => peek_Object w p
      | None => None
      end in
    (log (EvCall fn (status, seen_status)
            (option_map (fun p => (p, peek_Object w p)) response)
            (option_map (fun p => (p, peek_context w p)) context)) >>
     assign_status status (fst (body fn seen_status seen_response)) >>
     match response with
     | Some p => assign_Object p (snd (body fn seen_status seen_response))
     | None => ret tt
     end) w.

(** [ForwardingHandler::HandleResponse] *)
Definition ForwardingHandler_HandleResponse (this status response : ptr)
    : M unit :=
  delete_status status >>
  delete_response response >>
  delete_this this.

(** [ForwardingHandler::HandleResponseWithHosts]; [virt] is the virtual call
    [this->HandleResponse]. *)
Definition ForwardingHandler_HandleResponseWithHosts
    (virt : ptr -> ptr -> ptr -> M unit)
    (this status response hostList : ptr) : M unit :=
  delete_hostList hostList >>
  virt this status response.

(** ** [WrappingHandler] *)

(** Both callbacks take the virtual call on the wrapped [ResponseHandler]
    as [virt]. *)
Definition WrappingHandler_HandleResponseWithHosts
    (virt : ptr -> ptr -> ptr -> ptr -> M unit)
    (this handler status response hostList : ptr) : M unit :=
  virt handler status response hostList >>
  delete_this this.

Definition WrappingHandler_HandleResponse
    (virt : ptr -> ptr -> ptr -> M unit)
    (this handler status response : ptr) : M unit :=
  virt handler status response >>
  delete_this this.

(** ** The lambda wrappers *)

Definition SimpleFunctionWrapper_HandleResponse (fn : callable)
    (this status response : ptr) : M unit :=
  invoke fn status None None >>
  delete_status status >>
  delete_response response >>
  delete_this this.

Definition FunctionWrapper_HandleResponse (ResponseType : string)
    (fn : callable) (this status response : ptr) : M unit :=
  let* st := read_status status in
  let* res :=
    (if IsOK st
     then let* a := read_AnyObject response in ret (AnyObject_Get a ResponseType)
     else ret (static_addr (FunctionWrapper_nullref ResponseType))) in
  invoke fn status (Some res) None >>
  delete_status status >>
  delete_response response >>
  delete_this this.

Definition SimpleForwardingFunctionWrapper_HandleResponse (fn : callable)
    (this status response : ptr) : M unit :=
  let* paramsContainerWrapper := GetOperationContext this in
  invoke fn status None (Some paramsContainerWrapper) >>
  delete_status status >>
  delete_response response >>
  delete_this this >>
  OperationContext_reset paramsContainerWrapper.

Definition ForwardingFunctionWrapper_HandleResponse (ResponseType : string)
    (fn : callable) (this status response : ptr) : M unit :=
  let* st := read_status status in
  let* res :=
    (if IsOK st
     then let* a := read_AnyObject response in ret (AnyObject_Get a ResponseType)
     else ret (static_addr (ForwardingFunctionWrapper_nullref ResponseType))) in
  let* paramsContainerWrapper := GetOperationContext this in
  invoke fn status (Some res) (Some paramsContainerWrapper) >>
  delete_status status >>
  delete_response response >>
  delete_this this >>
  OperationContext_reset paramsContainerWrapper.

(** ** The open-with-stat wrappers *)

(** [File::Stat( force, info )], synchronous: the call is recorded; when the
    file answers with metadata a new [StatInfo] is allocated and [info] is
    pointed at it, otherwise [info] is left as it was. *)
Definition File_Stat (f : loc) (force : bool) (info : ptr)
    : M (XRootDStatus * ptr) :=
  let* file := read_File f in
  log (EvStat f force) >>
  match stat_info file with
  | Some d =>
      let* l := alloc (CObject (mkObject StatInfo_name d)) in
      ret (stat_status file, addr l)
  | None => ret (stat_status file, info)
  end.

Definition ExOpenFuncWrapper_HandleResponse (f : loc) (fn : callable)
    (this status response : ptr) : M unit :=
  let* st := read_status status in
  let* info :=
    (if IsOK st
     then let* r := File_Stat f false nullptr in ret (snd r)
     else ret (static_addr ExOpenFuncWrapper_nullref)) in
  invoke fn status (Some info) None >>
  (if decide (info <> static_addr ExOpenFuncWrapper_nullref)
   then delete_info info else ret tt) >>
  delete_status status >>
  delete_response response >>
  delete_this this.

Definition ForwardingExOpenFuncWrapper_HandleResponse (f : loc)
    (fn : callable) (this status response : ptr) : M unit :=
  let* st := read_status status in
  let* info :=
    (if IsOK st
     then let* r := File_Stat f false nullptr in ret (snd r)
     else ret (static_addr ForwardingExOpenFuncWrapper_nullref)) in
  let* paramsContainerWrapper := GetOperationContext this in
  invoke fn status (Some info) (Some paramsContainerWrapper) >>
  (if decide (info <> static_addr ForwardingExOpenFuncWrapper_nullref)
   then delete_info info else ret tt) >>
  delete_status status >>
  delete_response response >>
  delete_this this >>
  OperationContext_reset paramsContainerWrapper.

(** ** The future wrapper *)

(** [this->called = true] *)
Definition set_called (this : ptr) : M unit :=
  let* h := read_handler this in
  match this, dyn h with
  | addr l, FutureWrapper R prms _ =>
      store l (CForwardingHandler (mkHandler (container h) (FutureWrapper R prms true)))
  | _, _ => raise BadCast
  end.

(** [FutureWrapper<Response>::HandleResponse]; [std::move( *resp )] hands the
    contents of the response object to the promise. *)
Definition FutureWrapper_HandleResponse (Response : string) (prms : loc)
    (this status response : ptr) : M unit :=
  set_called this >>
  let* st := read_status status in
  (if IsOK st
   then let* a := read_AnyObject response in
        let* o := read_Object (AnyObject_Get a Response) in
        promise_set prms (Value (Some o))
   else SetException prms st) >>
  delete_status status >>
  delete_response response >>
  delete_this this.

(** [FutureWrapper<void>::HandleResponse] *)
Definition FutureWrapper_void_HandleResponse (prms : loc)
    (this status response : ptr) : M unit :=
  set_called this >>
  let* st := read_status status in
  (if IsOK st
   then promise_set prms (Value None)
   else SetException prms st) >>
  delete_status status >>
  delete_response response >>
  delete_this this.

(** ** Virtual dispatch *)

(** [p->HandleResponse( status, response )] and
    [p->HandleResponseWithHosts( status, response, hostList )] for a
    [ResponseHandler *p]: the dynamic type of the pointee selects the body.
    A caller-defined [ResponseHandler] is outside the layer, the call into
    it is recorded.  A wrapping handler calls into the handler it wraps, so
    the recursion is bounded by fuel. *)
Fixpoint HandleResponse (fuel : nat) (this status response : ptr)
    {struct fuel} : M unit :=
  match fuel with
  | O => raise OutOfFuel
  | S n =>
      let* c := deref this in
      match this, c with
      | addr l, CResponseHandler id =>
          log (EvHandle l id status response None)
      | _, CForwardingHandler h =>
          match dyn h with
          | Base => ForwardingHandler_HandleResponse this status response
          | WrappingHandler handler =>
              WrappingHandler_HandleResponse (HandleResponse n)
                this handler status response
          | SimpleFunctionWrapper fn =>
              SimpleFunctionWrapper_HandleResponse fn this status response
          | FunctionWrapper T fn =>
              FunctionWrapper_HandleResponse T fn this status response
          | SimpleForwardingFunctionWrapper fn =>
              SimpleForwardingFunctionWrapper_HandleResponse fn
                this status response
          | ForwardingFunctionWrapper T fn =>
              ForwardingFunctionWrapper_HandleResponse T fn
                this status response
          | ExOpenFuncWrapper f fn =>
              ExOpenFuncWrapper_HandleResponse f fn this status response
          | ForwardingExOpenFuncWrapper f fn =>
              ForwardingExOpenFuncWrapper_HandleResponse f fn
                this status response
          | FutureWrapper (Some R) prms _ =>
              FutureWrapper_HandleResponse R prms this status response
          | FutureWrapper None prms _ =>
              FutureWrapper_void_HandleResponse prms this status response
          end
      | _, _ => raise BadCast
      end
  end.

Fixpoint HandleResponseWithHosts (fuel : nat)
    (this status response hostList : ptr) {struct fuel} : M unit :=
  match fuel with
  | O => raise OutOfFuel
  | S n =>
      let* c := deref this in
      match this, c with
      | addr l, CResponseHandler id =>
          log (EvHandle l id status response (Some hostList))
      | _, CForwardingHandler h =>
          match dyn h with
          | WrappingHandler handler =>
              WrappingHandler_HandleResponseWithHosts
                (HandleResponseWithHosts n)
                this handler status response hostList
          | _ =>
              ForwardingHandler_HandleResponseWithHosts (HandleResponse n)
                this status response hostList
          end
      | _, _ => raise BadCast
      end
  end.

(** ** Forwarding arguments *)

(** Modelled from the spec: [ArgsContainer::SetArg] and
    [ArgsContainer::GetArg] (not among the sources): "[set(type, bucket,
    value)] stores ownership of [value]", "re-setting a key overwrites", and
    "[get(type, bucket)] returns the stored value or fails with a
    missing-key error". *)
Definition ArgsContainer_SetArg (c : loc) (T : string) (v : Object)
    (bucket : Z) : M unit :=
  let* x := load c in
  match x with
  | CArgsContainer n args =>
      store c (CArgsContainer n (<[(T, bucket) := v]> args))
  | _ => raise BadCast
  end.

Definition ArgsContainer_GetArg (c : loc) (T : string) (bucket : Z)
    : M Object :=
  let* x := load c in
  match x with
  | CArgsContainer _ args =>
      match args !! (T, bucket) with
      | Some v => ret v
      | None => raise MissingKey
      end
  | _ => raise BadCast
  end.

(** Modelled from the spec: [OperationContext::GetArg] (not among the
    sources), a "thin wrapper exposing [get<T>(bucket)] delegating to the
    Forwarding Container it borrows". *)
Definition OperationContext_GetArg (ctx : ptr) (T : string) (bucket : Z)
    : M Object :=
  let* c := deref ctx in
  match c with
  | COperationContext k => ArgsContainer_GetArg k T bucket
  | _ => raise BadCast
  end.

(** [ForwardingHandler::FwdArg]; the bucket defaults to 1. *)
Definition FwdArg (this : ptr) (T : string) (v : Object) (bucket : Z)
    : M unit :=
  let* h := read_handler this in
  ArgsContainer_SetArg (container h) T v bucket.

Definition FwdArg_default (this : ptr) (T : string) (v : Object) : M unit :=
  FwdArg this T v 1.

(** ** The factories *)

(** [new C( ... )] for a class derived from [ForwardingHandler]: the base
    constructor makes a container of its own. *)
Definition new_ForwardingHandler (k : kind) : M ptr :=
  let* c := alloc (CArgsContainer 1 ∅) in
  let* l := alloc (CForwardingHandler (mkHandler c k)) in
  ret (addr l).

(** [new FutureWrapper<Response>( ftr )]: the promise member gets a fresh
    shared state and [ftr = prms.get_future()] attaches the caller's future
    to it. *)
Definition new_FutureWrapper (Response : option string) (ftr : loc)
    : M ptr :=
  let* c := alloc (CArgsContainer 1 ∅) in
  let* prms := alloc (CSharedState Pending) in
  let* l := alloc (CForwardingHandler
                     (mkHandler c (FutureWrapper Response prms false))) in
  let* x := load ftr in
  match x with
  | CFuture _ => store ftr (CFuture (Some prms)) >> ret (addr l)
  | _ => raise BadCast
  end.

(** What a caller may hand to [Create], by static type: overload resolution
    happens on it at compile time.  The response type of a future is [None]
    for [void]. *)
Inductive supplied :=
| ResponseHandler_ptr (hdlr : ptr)
| ResponseHandler_ref (hdlr : loc)
| ForwardingHandler_ptr (hdlr : ptr)
| ForwardingHandler_ref (hdlr : loc)
| future_ref (Response : option string) (ftr : loc)
| function_status (fn : callable)
| function_status_context (fn : callable)
| function_status_response (ResponseType : string) (fn : callable)
| function_status_response_context (ResponseType : string) (fn : callable).

(** [RespBase<Response>::Create] *)
Definition RespBase_Create (Response : option string) (v : supplied)
    : M ptr :=
  match v with
  | ResponseHandler_ptr hdlr => new_ForwardingHandler (WrappingHandler hdlr)
  | ResponseHandler_ref hdlr =>
      new_ForwardingHandler (WrappingHandler (addr hdlr))
  | ForwardingHandler_ptr hdlr => ret hdlr
  | ForwardingHandler_ref hdlr => ret (addr hdlr)
  | future_ref R ftr =>
      if decide (R = Response) then new_FutureWrapper Response ftr
      else raise NoMatchingOverload
  | _ => raise NoMatchingOverload
  end.

(** [Resp<Response>::Create] for a response type other than [void] *)
Definition Resp_Create (Response : string) (v : supplied) : M ptr :=
  match v with
  | function_status_response T fn =>
      if decide (T = Response)
      then new_ForwardingHandler (FunctionWrapper Response fn)
      else raise NoMatchingOverload
  | function_status_response_context T fn =>
      if decide (T = Response)
      then new_ForwardingHandler (ForwardingFunctionWrapper Response fn)
      else raise NoMatchingOverload
  | _ => RespBase_Create (Some Response) v
  end.

(** [Resp<void>::Create] *)
Definition Resp_void_Create (v : supplied) : M ptr :=
  match v with
  | function_status fn => new_ForwardingHandler (SimpleFunctionWrapper fn)
  | function_status_context fn =>
      new_ForwardingHandler (SimpleForwardingFunctionWrapper fn)
  | _ => RespBase_Create None v
  end.

Definition Create (Response : option string) (v : supplied) : M ptr :=
  match Response with
  | Some R => Resp_Create R v
  | None => Resp_void_Create v
  end.

End Handlers.

(** ** Observations *)

(** The calls made into user callables, the synchronous stats issued and the
    storage released, as recorded in a trace. *)
Definition calls (t : list event) : list event :=
  List.filter (fun e => match e with EvCall _ _ _ _ => true | _ => false end) t.

Definition stats (t : list event) : list event :=
  List.filter (fun e => match e with EvStat _ _ => true | _ => false end) t.

Definition handled (t : list event) : list event :=
  List.filter (fun e => match e with EvHandle _ _ _ _ _ => true | _ => false end) t.

Definition frees (t : list event) : list loc :=
  omap (fun e => match e with EvFree l => Some l | _ => None end) t.

(** The store once the objects at [ls] are gone. *)
Fixpoint free_list (ls : list loc) (h : gmap loc cell) : gmap loc cell :=
  match ls with
  | [] => h
  | l :: ls' => free_list ls' (delete l h)
  end.

(** Dropping one of [S n] shares of the container at [c]. *)
Definition release_container (c : loc) (n : nat)
    (args : gmap (string * Z) Object) (h : gmap loc cell) : gmap loc cell :=
  match n with
  | O => delete c h
  | S _ => <[c := CArgsContainer n args]> h
  end.

Definition container_frees (c : loc) (n : nat) : list loc :=
  match n with
  | O => [c]
  | S _ => []
  end.

(** The store after a handler at [this] has consumed an outcome: the status
    at [st], the response storage [rs], the handler and its share of the
    container at [c] are reclaimed. *)
Definition reclaimed (h : gmap loc cell) (this c : loc) (n : nat)
    (args : gmap (string * Z) Object) (st : loc) (rs : list loc)
    : gmap loc cell :=
  delete this (release_container c n args (free_list rs (delete st h))).

(** The response pointer of an outcome: null, an empty [AnyObject], or an
    [AnyObject] holding a payload.  The list is the storage [delete response]
    gives back, in order. *)
Inductive response_at (h : gmap loc cell) : ptr -> list loc -> Prop :=
| response_absent : response_at h nullptr []
| response_empty (r : loc) (T : string) :
    h !! r = Some (CAnyObject (mkAnyObject nullptr T)) ->
    response_at h (addr r) [r]
| response_holding (r : loc) (T : string) (o : loc) (obj : Object) :
    h !! r = Some (CAnyObject (mkAnyObject (addr o) T)) ->
    h !! o = Some (CObject obj) ->
    response_at h (addr r) [o; r].

(** What the synchronous stat leaves in [info], when a result it allocates
    lands at [x]. *)
Definition stat_result (x : loc) (file : File) : ptr * option Object :=
  match stat_info file with
  | Some d => (addr x, Some (mkObject StatInfo_name d))
  | None => (nullptr, None)
  end.

Definition stat_frees (x : loc) (file : File) : list loc :=
  match stat_info file with
  | Some _ => [x]
  | None => []
  end.

(** The static a wrapper class falls back to. *)
Definition nullref_of (k : kind) : option static_id :=
  match k with
  | FunctionWrapper T _ => Some (FunctionWrapper_nullref T)
  | ForwardingFunctionWrapper T _ => Some (ForwardingFunctionWrapper_nullref T)
  | ExOpenFuncWrapper _ _ => Some ExOpenFuncWrapper_nullref
  | ForwardingExOpenFuncWrapper _ _ => Some ForwardingExOpenFuncWrapper_nullref
  | _ => None
  end.

(** The callable shapes accepted by the factories: the callable, the
    response type its signature names (none for the [void] pair) and whether
    it takes the operation context. *)
Definition callable_of (v : supplied) : option callable :=
  match v with
  | function_status fn => Some fn
  | function_status_context fn => Some fn
  | function_status_response _ fn => Some fn
  | function_status_response_context _ fn => Some fn
  | _ => None
  end.

Definition response_type_of (v : supplied) : option string :=
  match v with
  | function_status_response T _ => Some T
  | function_status_response_context T _ => Some T
  | _ => None
  end.

Definition takes_context (v : supplied) : bool :=
  match v with
  | function_status_context _ => true
  | function_status_response_context _ _ => true
  | _ => false
  end.

(** The response argument a callable of shape [v] is expected to see when
    the payload is the object [R] at [o]. *)
Definition response_arg (v : supplied) (o : loc) (R : Object)
    : option (ptr * option Object) :=
  match response_type_of v with
  | Some _ => Some (addr o, Some R)
  | None => None
  end.

(** A delivery of the outcome ([st_l], [resp]) to the future wrapper at
    [this] that leaves the shared state at [prms] holding [outcome], makes a
    [get] on the future at [ftr] end in [result], reclaims the status, the
    response storage [rs] and the wrapper, and calls no callable. *)
Definition future_resolved {codes : StatusCodes} (fuel : nat) (w : world)
    (this st_l : loc) (resp : ptr) (rs : list loc) (prms ftr : loc)
    (outcome : shared_state) (result : wait_result) : Prop :=
  exists w',
    HandleResponse (S fuel) (addr this) (addr st_l) resp w = Ok tt w' /\
    heap w' !! prms = Some (CSharedState outcome) /\
    future_get w' ftr = result /\
    heap w' !! this = None /\
    heap w' !! st_l = None /\
    (forall r, r ∈ rs -> heap w' !! r = None) /\
    calls (trace w') = calls (trace w).

(** The statics once the callable [fn], handed the status [st] and the
    static [s] as response, has returned. *)
Definition statics_after (fn : callable) (st : XRootDStatus) (s : static_id)
    (sts : gmap static_id content) : gmap static_id content :=
  match snd (body fn (Some st) (Some (static_value sts s))) with
  | Some d => <[s := d]> sts
  | None => sts
  end.

(** ** Observations on arbitrary runs *)

(** The callable a wrapper stores. *)
Definition stored_callable (k : kind) : option callable :=
  match k with
  | SimpleFunctionWrapper fn => Some fn
  | FunctionWrapper _ fn => Some fn
  | SimpleForwardingFunctionWrapper fn => Some fn
  | ForwardingFunctionWrapper _ fn => Some fn
  | ExOpenFuncWrapper _ fn => Some fn
  | ForwardingExOpenFuncWrapper _ fn => Some fn
  | _ => None
  end.

(** The callables called in a trace, each with the pointer its status
    reference was bound to. *)
Definition invoked (t : list event) : list (callable * ptr) :=
  omap (fun e => match e with
                 | EvCall fn (p, _) _ _ => Some (fn, p)
                 | _ => None
                 end) t.

(** A computation all of whose completed runs end in a world satisfying
    [Q], one that keeps [Q], and one all of whose completed runs call
    exactly the callables [cs], in this order, and no caller-defined
    handler. *)
Definition post {A} (Q : world -> Prop) (m : M A) : Prop :=
  forall w a w', m w = Ok a w' -> Q w'.

Definition preserves {A} (Q : world -> Prop) (m : M A) : Prop :=
  forall w a w', m w = Ok a w' -> Q w -> Q w'.

Definition invokes {A} (cs : list (callable * ptr)) (m : M A) : Prop :=
  forall w a w', m w = Ok a w' ->
    exists new, trace w' = trace w ++ new /\ invoked new = cs /\ handled new = [].

Definition absent (l : loc) (w : world) : Prop := heap w !! l = None.

(** A delivery through either callback: [HandleResponse], or
    [HandleResponseWithHosts] when a host list comes along. *)
Definition deliver {codes : StatusCodes} (fuel : nat)
    (this status response : ptr) (hostList : option ptr) : M unit :=
  match hostList with
  | None => HandleResponse fuel this status response
  | Some hl => HandleResponseWithHosts fuel this status response hl
  end.

Definition is_wrapping (k : kind) : bool :=
  match k with WrappingHandler _ => true | _ => false end.

(** The body [HandleResponse] resolves to on a handler of kind [k] that
    wraps no other handler. *)
Definition plain_body {codes : StatusCodes} (k : kind)
    (this status response : ptr) : M unit :=
  match k with
  | Base => ForwardingHandler_HandleResponse this status response
  | WrappingHandler _ => raise BadCast
  | SimpleFunctionWrapper fn =>
      SimpleFunctionWrapper_HandleResponse fn this status response
  | FunctionWrapper T fn =>
      FunctionWrapper_HandleResponse T fn this status response
  | SimpleForwardingFunctionWrapper fn =>
      SimpleForwardingFunctionWrapper_HandleResponse fn this status response
  | ForwardingFunctionWrapper T fn =>
      ForwardingFunctionWrapper_HandleResponse T fn this status response
  | ExOpenFuncWrapper f fn =>
      ExOpenFuncWrapper_HandleResponse f fn this status response
  | ForwardingExOpenFuncWrapper f fn =>
      ForwardingExOpenFuncWrapper_HandleResponse f fn this status response
  | FutureWrapper (Some R) prms _ =>
      FutureWrapper_HandleResponse R prms this status response
  | FutureWrapper None prms _ =>
      FutureWrapper_void_HandleResponse prms this status response
  end.

(** The world a run ends in; the world it started from when it faults. *)
Definition after {A} (m : M A) (w : world) : world :=
  match m w with
  | Ok _ w' => w'
  | Fault _ => w
  end.

(** The cell at [l] is [x]. *)
Definition cell_at (l : loc) (x : cell) (w : world) : Prop :=
  heap w !! l = Some x.

(** The cells that are no part of an outcome: handlers, the containers they
    share and the contexts handed to callables. *)
Definition structural (x : cell) : Prop :=
  match x with
  | CArgsContainer _ _ | COperationContext _ | CForwardingHandler _
  | CResponseHandler _ => True
  | _ => False
  end.






(** The placeholders are as in [s]. *)
Definition statics_are (s : gmap static_id content) (w : world) : Prop :=
  statics w = s.

(** A callable that leaves the response it is handed as it is. *)
Definition keeps_response (fn : callable) : Prop :=
  forall st o, snd (body fn st o) = None.

(** The caller's handler at the end of the chain of wrapping handlers that
    starts at [p], if the chain is at most [depth] objects long. *)
Fixpoint wrapped_sink (depth : nat) (h : gmap loc cell) (p : ptr)
    : option (loc * N) :=
  match depth, p with
  | S d, addr l =>
      match h !! l with
      | Some (CResponseHandler id) => Some (l, id)
      | Some (CForwardingHandler hd) =>
          match dyn hd with
          | WrappingHandler q => wrapped_sink d h q
          | _ => None
          end
      | _ => None
      end
  | _, _ => None
  end.

(** ** Concrete scenarios *)

(** A choice of the status constants to run the scenarios with. *)
Definition example_codes : StatusCodes :=
  {| stOK := 0; stError := 1; errPipelineFailed := 17 |}.

Definition ok_status : XRootDStatus := mkStatus 0 0 0 "".

(** A failure outcome carrying code 7. *)
Definition failed_status : XRootDStatus := mkStatus 1 7 0 "".

Definition int_42 : Object := mkObject "int" (Data [42%Z]).

(** A callable that only looks at what it is handed, and one that scribbles
    over both its status and its response. *)
Definition onlooker (id : N) : callable :=
  mkCallable id (fun _ _ => (None, None)).

Definition scribbler (id : N) : callable :=
  mkCallable id (fun _ _ => (Some (mkStatus 0 0 0 ""), Some (Data [13%Z]))).

(** An outcome in the store: the status at 1, a response at 3 holding the
    object at 2. *)
Definition outcome_cells (st : XRootDStatus) : gmap loc cell :=
  <[3%positive := CAnyObject (mkAnyObject (addr 2%positive) "int")]>
    (<[2%positive := CObject int_42]>
       (<[1%positive := CStatus st]> ∅)).

Definition outcome_world (st : XRootDStatus) : world :=
  World (outcome_cells st) ∅ [].

(** The same with a handler of kind [k] at 10, sole owner of the container
    at 11. *)
Definition adapter_world (k : kind) (st : XRootDStatus) : world :=
  World (<[10%positive := CForwardingHandler (mkHandler 11%positive k)]>
           (<[11%positive := CArgsContainer 1 ∅]> (outcome_cells st)))
        ∅ [].

(** A future wrapper at 10 whose pending promise is at 12, the caller's
    future at 13. *)
Definition future_world (R : option string) (st : XRootDStatus) : world :=
  World (<[13%positive := CFuture (Some 12%positive)]>
           (<[12%positive := CSharedState Pending]>
              (heap (adapter_world (FutureWrapper R 12%positive false) st))))
        ∅ [].

(** An open-with-stat wrapper at 10 for the file at 14. *)
Definition open_world (k : kind) (file : File) (st : XRootDStatus) : world :=
  World (<[14%positive := CFile file]> (heap (adapter_world k st))) ∅ [].

(** A wrapping handler at 10 around the caller's handler at 15, and a host
    list at 16. *)
Definition wrapping_world (st : XRootDStatus) : world :=
  World (<[16%positive := CHostList ["host"]]>
           (<[15%positive := CResponseHandler 1]>
              (heap (adapter_world (WrappingHandler (addr 15%positive)) st))))
        ∅ [].

(** A handler of kind [k] at 10 as in [adapter_world], with a host list at
    16, and the same with a second owner of the container. *)
Definition hosted_world (k : kind) (st : XRootDStatus) : world :=
  World (<[16%positive := CHostList ["host"]]> (heap (adapter_world k st)))
        ∅ [].


(** A second wrapping handler at 20, sole owner of the container at 21,
    around the wrapping handler of [wrapping_world]. *)
Definition stacked_world (st : XRootDStatus) : world :=
  World (<[20%positive :=
             CForwardingHandler
               (mkHandler 21%positive (WrappingHandler (addr 10%positive)))]>
           (<[21%positive := CArgsContainer 1 ∅]>
              (heap (wrapping_world st))))
        ∅ [].

(** * The macaroon tool ([src/unnamed/part_000])

    A Python 2 script ([urlparse] is imported as a module, [print] is the
    function of [from __future__ import print_function]).  What it calls in
    the libraries ([argparse], [os], [urlparse], [json], [requests]) is an
    oracle of the environment, which answers or raises; the control flow,
    the string building and the exceptions of the script itself are
    modelled as written.  The standard streams take what is written to
    them whenever they can encode it. *)

From stdpp Require Import pretty.

Module Macaroon.

(** The exceptions the script does not define: the [SystemExit] of
    [sys.exit], the built-in ones its expressions raise, and whatever else
    a library raises. *)
Inductive raised :=
| SystemExit (code : Z)
| TypeError
| ValueError
| KeyError
| UnicodeEncodeError
| Other (name : string).

(** An exception leaving a function of the script: its own
    [NoTokenEndpoint], or one of the others. *)
Inductive exn :=
| NoTokenEndpoint
| Raised (e : raised).

#[local] Set Warnings "-register-all".

(** What [json.loads] returns: [None], a [bool], a number, a string, a
    [list] or a [dict]; in a [dict] a later member with the same key has
    replaced an earlier one. *)
Inductive json :=
| JNull
| JBool (b : bool)
| JNumber (literal : string)
| JString (s : string)
| JArray (items : list json)
| JObject (members : list (string * json)).

#[local] Set Warnings "register-all".

(** [urlparse.ParseResult] *)
Record ParseResult := mkParseResult {
  scheme : string;
  netloc : string;
  path : string;
  params : string;
  query : string;
  fragment : string
}.

(** [requests.Response], as far as the script looks at it. *)
Record Response := mkResponse {
  status_code : Z;
  text : string
}.

(** [session.cert]: [None] as [requests.Session()] leaves it, a file name,
    or a pair. *)
Inductive session_cert :=
| CertNone
| CertFile (cert : string)
| CertPair (cert key : string).

(** The [data] of a POST: a string, or a [dict] that [requests] form-encodes. *)
Inductive body :=
| Raw (s : string)
| Form (fields : list (string * string)).

(** [argparse.Namespace]: [activity] is [None] without [--activity], else
    the list that [nargs="+"] collects. *)
Record Namespace := mkNamespace {
  url : string;
  activity : option (list string);
  validity : Z
}.

(** What the script does to the outside, in order. *)
Inductive io :=
| Stdout (line : string)
| Stderr (line : string)
| Get (config_url : string)
| Post (cert : session_cert) (target : json) (headers : list (string * string))
    (data : body).

(** The environment: the command line, the process, the file system, the
    encoding of the standard streams, the network and the library
    functions. *)
Record Env := mkEnv {
  argparse_parse_args : Namespace + raised;
  os_geteuid : Z;
  os_environ_get : string -> option string;
  os_path_exists : string -> bool;
  os_path_normpath : string -> string;
  urlparse_urlparse : string -> ParseResult + raised;
  urlparse_urlunparse : ParseResult -> string + raised;
  json_loads : string -> json + raised;
  json_dumps : json -> string + raised;
  str : json -> string;
  encodes : string -> bool;
  requests_get : string -> Response + raised;
  session_post : session_cert -> json -> list (string * string) -> body ->
                 Response + raised
}.

Inductive Res (A : Type) :=
| Return (a : A)
| Raise (e : exn).

Arguments Return {A} a.
Arguments Raise {A} e.

(** A computation of the script: it extends the record of what was done and
    returns or raises. *)
Definition P (A : Type) : Type := list io -> Res A * list io.

Definition ret {A} (a : A) : P A := fun t => (Return a, t).

Definition raise {A} (e : exn) : P A := fun t => (Raise e, t).

Definition bind {A B} (m : P A) (k : A -> P B) : P B :=
  fun t => match m t with
           | (Return a, t') => k a t'
           | (Raise e, t') => (Raise e, t')
           end.

Declare Scope py_scope.

Notation "'let*' x ':=' c 'in' k" := (bind c (fun x => k))
  (at level 10, x name, c at level 100, k at level 200, only parsing)
  : py_scope.

Notation "c1 '>>' c2" := (bind c1 (fun _ => c2))
  (at level 100, c2 at level 200, right associativity, only parsing)
  : py_scope.

#[local] Open Scope py_scope.

Definition emit (e : io) : P unit := fun t => (Return tt, t ++ [e]).

(** A library call: it answers or raises. *)
Definition library {A} (r : A + raised) : P A :=
  match r with
  | inl a => ret a
  | inr e => raise (Raised e)
  end.

(** [try: m except NoTokenEndpoint: handler] *)
Definition try_except_NoTokenEndpoint {A} (m : P A) (handler : P A) : P A :=
  fun t => match m t with
           | (Raise NoTokenEndpoint, t') => handler t'
           | r => r
           end.

(** [print(s)] and [print(s, file=sys.stderr)] for a byte string [s]. *)
Definition print (s : string) : P unit := emit (Stdout s).

Definition print_stderr (s : string) : P unit := emit (Stderr s).

(** The same for a text that came from the network: it is [unicode], and
    is written only if the stream can encode it. *)
Definition print_unicode (env : Env) (s : string) : P unit :=
  if encodes env s then emit (Stdout s)
  else raise (Raised UnicodeEncodeError).

Definition print_stderr_unicode (env : Env) (s : string) : P unit :=
  if encodes env s then emit (Stderr s)
  else raise (Raised UnicodeEncodeError).

(** [print >> sys.stderr, message]: with [print] a function this is a tuple
    display whose first item shifts the built-in function by a file object;
    neither operand supports [>>], so the item raises [TypeError] before
    the message is looked at. *)
Definition print_rshift_stderr : P unit := raise (Raised TypeError).

(** [sep.join(l)]; [None] is not iterable. *)
Definition join (sep : string) (l : option (list string)) : P string :=
  match l with
  | Some items => ret (String.concat sep items)
  | None => raise (Raised TypeError)
  end.

(** [key in v]: membership among the keys of a [dict], among the items of a
    [list], substring of a string; the other values are not iterable. *)
Definition contains (key : string) (v : json) : P bool :=
  match v with
  | JObject members => ret (bool_decide (key ∈ members.*1))
  | JArray items =>
      ret (existsb (fun x => match x with
                             | JString s => String.eqb s key
                             | _ => false
                             end) items)
  | JString s =>
      ret (match String.index 0 key s with Some _ => true | None => false end)
  | JNull | JBool _ | JNumber _ => raise (Raised TypeError)
  end.

(** The value of [key] in a list of members, the last one given. *)
Fixpoint member (key : string) (members : list (string * json))
    : option json :=
  match members with
  | [] => None
  | (k, x) :: rest =>
      match member key rest with
      | Some y => Some y
      | None => if String.eqb k key then Some x else None
      end
  end.

(** [v[key]] for a string [key]: only a [dict] is indexed by strings. *)
Definition getitem (v : json) (key : string) : P json :=
  match v with
  | JObject members =>
      match member key members with
      | Some x => ret x
      | None => raise (Raised KeyError)
      end
  | _ => raise (Raised TypeError)
  end.

(** [configure_authenticated_session], lines 38-63: the [cert] the new
    session ends up with. *)
Definition configure_authenticated_session (env : Env) : session_cert :=
  let euid := os_geteuid env in
  let '(cert, key) :=
    if (euid =? 0)%Z
    then ("/etc/grid-security/hostcert.pem", "/etc/grid-security/hostkey.pem")
    else ("/tmp/x509up_u" +:+ pretty euid, "/tmp/x509up_u" +:+ pretty euid) in
  let cert := default cert (os_environ_get env "X509_USER_PROXY") in
  let key := default key (os_environ_get env "X509_USER_PROXY") in
  let session := CertNone in
  let session := if os_path_exists env cert then CertFile cert else session in
  let session :=
    if os_path_exists env key then CertPair cert key else session in
  session.

(** [get_token_endpoint], lines 66-89 *)
Definition get_token_endpoint (env : Env) (issuer : string) : P json :=
  let* parse_result := library (urlparse_urlparse env issuer) in
  let norm_path := os_path_normpath env (path parse_result) in
  let new_path := if String.eqb norm_path "/" then "" else norm_path in
  let new_path := "/.well-known/oauth-authorization-server" +:+ new_path in
  let* config_url :=
    library (urlparse_urlunparse env
               (mkParseResult "https" (netloc parse_result) new_path
                  "" "" "")) in
  emit (Get config_url) >>
  let* response := library (requests_get env config_url) in
  let* endpoint_info := library (json_loads env (text response)) in
  if negb (status_code response =? 200)%Z
  then print_rshift_stderr >> raise NoTokenEndpoint
  else
    let* found := contains "token_endpoint" endpoint_info in
    if negb found
    then print_rshift_stderr >> raise NoTokenEndpoint
    else getitem endpoint_info "token_endpoint".

(** [generate_token], lines 92-114 *)
Definition generate_token (env : Env) (url : string) (validity : Z)
    (activity : option (list string)) : P string :=
  print_stderr ("Querying " +:+ url +:+ " for new token.") >>
  let validity := "PT" +:+ pretty validity +:+ "M" in
  let* activities := join ", " activity in
  print_stderr ("Validity: " +:+ validity +:+ ", activities: "
                +:+ activities +:+ ".") >>
  let* caveat := join "," activity in
  let data_json :=
    JObject [("caveats", JArray [JString ("activity:" +:+ caveat)]);
             ("validity", JString validity)] in
  let session := configure_authenticated_session env in
  let headers := [("Content-Type", "application/macaroon-request")] in
  let* data := library (json_dumps env data_json) in
  emit (Post session (JString url) headers (Raw data)) >>
  let* response :=
    library (session_post env session (JString url) headers (Raw data)) in
  if (status_code response =? 200)%Z
  then print_stderr "Successfully generated a new token:" >>
       ret (text response)
  else print_stderr_unicode env
         ("Issuer failed request (status "
          +:+ pretty (status_code response) +:+ "): "
          +:+ String.substring 0 2048 (text response)) >>
       raise (Raised (SystemExit 1)).

(** [generate_token_oauth], lines 117-141; ["%s" % token_endpoint] is the
    text itself for a string, which [json.loads] made [unicode], and the
    [str] of any other value. *)
Definition generate_token_oauth (env : Env) (url : string) (validity : Z)
    (activity : option (list string)) : P string :=
  let* parse_result := library (urlparse_urlparse env url) in
  let* token_issuer :=
    library (urlparse_urlunparse env
               (mkParseResult "https" (netloc parse_result) "/" "" "" "")) in
  let* token_endpoint := get_token_endpoint env token_issuer in
  match token_endpoint with
  | JString s => print_unicode env ("Querying " +:+ s +:+ " for new token.")
  | v => print ("Querying " +:+ str env v +:+ " for new token.")
  end >>
  let* scope :=
    join " " (option_map (map (fun i => i +:+ ":" +:+ path parse_result))
                activity) in
  let session := configure_authenticated_session env in
  let headers := [("Accept", "application/json")] in
  let data := Form [("grant_type", "client_credentials");
                    ("scope", scope);
                    ("expire_in", pretty (validity * 60)%Z)] in
  emit (Post session token_endpoint headers data) >>
  let* response :=
    library (session_post env session token_endpoint headers data) in
  if (status_code response =? 200)%Z
  then print "Successfully generated a new token:" >>
       ret (text response)
  else print_stderr_unicode env
         ("Issuer failed request (status "
          +:+ pretty (status_code response) +:+ "): "
          +:+ String.substring 0 2048 (text response)) >>
       raise (Raised (SystemExit 1)).

(** [main], lines 144-150 *)
Definition main (env : Env) : P unit :=
  let* args := library (argparse_parse_args env) in
  let* token :=
    try_except_NoTokenEndpoint
      (generate_token_oauth env (url args) (validity args) (activity args))
      (generate_token env (url args) (validity args) (activity args)) in
  print_unicode env token.

(** ** Observations *)

(** The result is the script's own exception. *)
Definition is_NoTokenEndpoint {A} (r : Res A) : bool :=
  match r with
  | Raise NoTokenEndpoint => true
  | _ => false
  end.

(** The requests for a macaroon, those [generate_token] makes, and the
    POST requests altogether. *)
Definition is_macaroon_request (e : io) : bool :=
  match e with
  | Post _ _ headers _ =>
      bool_decide (("Content-Type", "application/macaroon-request") ∈ headers)
  | _ => false
  end.


(** A computation that never ends in the script's own exception and does
    nothing that [f] picks out, and one that never returns and sends
    nothing. *)
Definition silent (f : io -> bool) {A} (m : P A) : Prop :=
  forall t,
    is_NoTokenEndpoint (fst (m t)) = false /\
    List.filter f (snd (m t)) = List.filter f t.


(** ** A concrete environment *)

(** An issuer at [se.example] whose discovery document names a token
    endpoint and whose token service answers every request with a token;
    the user, the proxy variable, the files at hand, the command line and
    the answer to the discovery request are left open. *)
Definition discovery_document : json :=
  JObject [("issuer", JString "https://se.example");
           ("token_endpoint", JString "https://se.example/token")].

Definition example_env (euid : Z) (proxy : option string)
    (present : list string) (args : Namespace + raised)
    (discovery : Response) : Env :=
  {| argparse_parse_args := args;
     os_geteuid := euid;
     os_environ_get := fun name =>
       if String.eqb name "X509_USER_PROXY" then proxy else None;
     os_path_exists := fun p => bool_decide (p ∈ present);
     os_path_normpath := fun p => p;
     urlparse_urlparse := fun u =>
       inl (mkParseResult "https" "se.example"
              (if String.eqb u "https://se.example/" then "/"
               else "/data/file") "" "" "");
     urlparse_urlunparse := fun r => inl ("https://" +:+ netloc r +:+ path r);
     json_loads := fun s =>
       if String.eqb s "{...}" then inl discovery_document
       else inr ValueError;
     json_dumps := fun _ => inl "{}";
     str := fun _ => "?";
     encodes := fun _ => true;
     requests_get := fun _ => inl discovery;
     session_post := fun _ _ _ _ => inl (mkResponse 200 "TOKEN") |}.

Definition example_args (activity : option (list string)) : Namespace :=
  mkNamespace "https://se.example/data/file" activity 10.

(** User 1000 with a proxy in the usual place. *)
Definition user_env (activity : option (list string)) (discovery : Response)
    : Env :=
  example_env 1000 None ["/tmp/x509up_u1000"]
    (inl (example_args activity)) discovery.

End Macaroon.

(** * The init-script library ([src/packaging/rhel/xrootd.functions])

    Functions of a bash script.  The shell is a state: the variables, the
    exit status [$?] of the last command, and the machine the commands act
    on.  What is not in the file is an oracle: the commands the script runs,
    what a command substitution prints, what [eval] does with a text that
    is no plain assignment, and the words an unquoted expansion gives when
    its value is no plain word ([IFS] has its default value).  Of the
    commands, [daemon], [killproc] and [status] are functions of
    [/etc/rc.d/init.d/functions], which the script sources: they run in
    the shell itself and may set its variables.  [echo], [cd] and [ulimit]
    are builtins and the others are programs: they leave the variables
    alone.  The control flow, the assignments, [$?], [return], [shift] and
    the tests on strings and numbers are modelled as bash defines them. *)

Module InitScript.

(** How a list of commands ends: it runs through, or a [return] or a
    [continue] cuts it short. *)
Inductive flow (A : Type) :=
| Go (a : A)
| Returned
| Continued.

Arguments Go {A} a.
Arguments Returned {A}.
Arguments Continued {A}.

Section Script.

Context {H : Type}.

(** [ran] lists the commands run, by their words, in order. *)
Record shell := mkShell {
  vars : gmap string string;
  status : N;
  ran : list (list string);
  host : H
}.

Record Machine := mkMachine {
  (** the words of an unquoted expansion *)
  split : shell -> string -> list string;
  (** a function of the file that was sourced ([daemon], [killproc],
      [status]), or a command whose name a variable gives *)
  run : list string -> shell -> shell;
  (** the builtins [echo], [cd] and [ulimit] and the programs ([getent],
      [groupadd], [useradd], [chown], [mkdir]): their exit status and what
      they do to the machine *)
  builtin_outcome : list string -> shell -> N * H;
  (** the output of a command substitution (a command or a pipeline, by
      its words), and the shell it leaves *)
  output : list string -> shell -> string * shell;
  (** [eval] of a text that is no assignment from a variable *)
  eval_other : string -> shell -> shell;
  (** [test] and [return] on words they are not made for *)
  test_other : list string -> shell -> N;
  return_other : list string -> shell -> N
}.

Variable m : Machine.

Definition Sh (A : Type) : Type := shell -> flow A * shell.

Definition ret {A} (a : A) : Sh A := fun s => (Go a, s).

Definition bind {A B} (c : Sh A) (k : A -> Sh B) : Sh B :=
  fun s => match c s with
           | (Go a, s') => k a s'
           | (Returned, s') => (Returned, s')
           | (Continued, s') => (Continued, s')
           end.

Declare Scope sh_scope.

Notation "'let*' x ':=' c 'in' k" := (bind c (fun x => k))
  (at level 10, x name, c at level 100, k at level 200, only parsing)
  : sh_scope.

Notation "c1 '>>' c2" := (bind c1 (fun _ => c2))
  (at level 100, c2 at level 200, right associativity, only parsing)
  : sh_scope.

#[local] Open Scope sh_scope.

(** ** Words *)

(** [$X]; an unset variable expands like an empty one. *)
Definition get (s : shell) (x : string) : string := default "" (vars s !! x).

(** The characters that neither split a word nor make it a pattern. *)
Definition safe (c : Ascii.ascii) : bool :=
  let n := Ascii.nat_of_ascii c in
  (48 <=? n)%nat && (n <=? 57)%nat  || (65 <=? n)%nat && (n <=? 90)%nat
  || (97 <=? n)%nat && (n <=? 122)%nat
  || bool_decide (c ∈ String.list_ascii_of_string "_-./:=+,%@").

Definition plain (w : string) : bool :=
  forallb safe (String.list_ascii_of_string w).

(** The words of an unquoted expansion with value [w]: none when it is
    empty, itself when it is a plain word. *)
Definition fields (s : shell) (w : string) : list string :=
  if String.eqb w "" then []
  else if plain w then [w]
  else split m s w.

(** [$@] unquoted *)
Definition fields_all (s : shell) (args : list string) : list string :=
  concat (map (fields s) args).

(** [$1], [$2], ...; a missing parameter is empty. *)
Definition arg (n : nat) (args : list string) : string := nth (n - 1) args "".

(** The number a word of decimal digits stands for. *)
Definition digit (c : Ascii.ascii) : option N :=
  let n := Ascii.nat_of_ascii c in
  if (48 <=? n)%nat && (n <=? 57)%nat then Some (N.of_nat (n - 48)) else None.

Fixpoint number_from (acc : N) (cs : list Ascii.ascii) : option N :=
  match cs with
  | [] => Some acc
  | c :: cs' =>
      match digit c with
      | Some d => number_from (acc * 10 + d) cs'
      | None => None
      end
  end.

Definition number (w : string) : option N :=
  match String.list_ascii_of_string w with
  | [] => None
  | cs => number_from 0 cs
  end.

(** ** Commands *)

(** An exit status is a byte. *)
Definition set_status (n : N) (s : shell) : shell :=
  mkShell (vars s) (n mod 256) (ran s) (host s).

(** The double quote. *)
Definition dquote : string := String (Ascii.ascii_of_nat 34) "".

(** [X=value]: the assignment succeeds. *)
Definition assign (x : string) (value : shell -> string) : Sh unit :=
  fun s => (Go tt, mkShell (<[x := value s]> (vars s)) 0 (ran s) (host s)).

(** A command that is a function of another file, or of which only the
    words are known: it may set variables as well; its exit status is a
    byte, and it is on record.  Words that all expand to nothing run
    nothing. *)
Definition command (argv : shell -> list string) : Sh unit :=
  fun s =>
    match argv s with
    | [] => (Go tt, set_status 0 s)
    | words =>
        let s' := run m words s in
        (Go tt, mkShell (vars s') (status s' mod 256) (ran s ++ [words])
                  (host s'))
    end.

(** A builtin: it leaves the variables alone. *)
Definition builtin (argv : shell -> list string) : Sh unit :=
  fun s =>
    let '(n, h) := builtin_outcome m (argv s) s in
    (Go tt, mkShell (vars s) (n mod 256) (ran s ++ [argv s]) h).

(** A program is a process of its own: like a builtin it leaves the
    variables alone. *)
Definition program (argv : shell -> list string) : Sh unit := builtin argv.

(** [`argv`]: it runs in a subshell, so the variables stay; [$?] is its
    exit status. *)
Definition substitute (argv : shell -> list string) : Sh string :=
  fun s =>
    let '(out, s') := output m (argv s) s in
    (Go out, mkShell (vars s) (status s' mod 256) (ran s ++ [argv s])
               (host s')).

(** [X=`argv`]: the status is that of the substitution. *)
Definition assign_output (x : string) (out : Sh string) : Sh unit :=
  let* o := out in
  fun s => (Go tt, mkShell (<[x := o]> (vars s)) (status s) (ran s) (host s)).

(** [eval X=\$name]: for a name that is an identifier, [X] gets the value
    of that variable. *)
Definition identifier (w : string) : bool :=
  match String.list_ascii_of_string w with
  | [] => false
  | c :: cs =>
      negb (match digit c with Some _ => true | None => false end)
      && forallb (fun c => safe c
                           && negb (bool_decide
                                      (c ∈ String.list_ascii_of_string
                                             "-./:=+,%@"))) (c :: cs)
  end.

Definition eval_assign (x : string) (name : shell -> string) : Sh unit :=
  fun s =>
    if identifier (name s)
    then assign x (fun s => get s (name s)) s
    else let s' := eval_other m (x +:+ "=$" +:+ name s) s in
         (Go tt, mkShell (vars s') (status s' mod 256) (ran s) (host s')).

(** [test] on a condition the model decides. *)
Definition test (b : shell -> bool) : Sh unit :=
  fun s => (Go tt, set_status (if b s then 0 else 1) s).

(** [test a = b] and [test a != b] with what the words expand to; with
    other than one word on each side it is the oracle's. *)
Definition test_words (args : shell -> list string) : Sh unit :=
  fun s =>
    (Go tt,
     set_status
       match args s with
       | [a; op; b] =>
           if String.eqb op "=" then (if String.eqb a b then 0 else 1)
           else if String.eqb op "!=" then (if String.eqb a b then 1 else 0)
           else test_other m (args s) s
       | ws => test_other m ws s
       end s).

(** [test] on the file system. *)
Definition test_file (args : shell -> list string) : Sh unit :=
  fun s => (Go tt, set_status (test_other m (args s) s) s).

(** [if c; then t; fi]: without a branch taken the status is 0. *)
Definition if_then (c : Sh unit) (t : Sh unit) : Sh unit :=
  let* _ := c in
  fun s => if (status s =? 0)%N then t s else (Go tt, set_status 0 s).

Definition if_then_else (c : Sh unit) (t e : Sh unit) : Sh unit :=
  let* _ := c in
  fun s => if (status s =? 0)%N then t s else e s.

(** [a && b] and [a || b] *)
Definition and_then (a b : Sh unit) : Sh unit :=
  let* _ := a in
  fun s => if (status s =? 0)%N then b s else (Go tt, s).

Definition or_else (a b : Sh unit) : Sh unit :=
  let* _ := a in
  fun s => if (status s =? 0)%N then (Go tt, s) else b s.

(** [return n], and [return $X] with what the word expands to: no word
    keeps [$?], a number that fits the shell's integers is taken modulo
    256. *)
Definition return_ {A} (n : N) : Sh A :=
  fun s => (Returned, set_status n s).

Definition return_words {A} (ws : shell -> list string) : Sh A :=
  fun s =>
    (Returned,
     match ws s with
     | [] => s
     | [w] =>
         match number w with
         | Some n =>
             if (n <? 2 ^ 63)%N then set_status n s
             else set_status (return_other m [w] s) s
         | None => set_status (return_other m [w] s) s
         end
     | l => set_status (return_other m l s) s
     end).

(** [return $?]: the status at hand. *)
Definition return_last {A} : Sh A := fun s => (Returned, s).

Definition continue_ {A} : Sh A := fun s => (Continued, set_status 0 s).

(** [shift n]: with fewer parameters nothing is shifted and it fails. *)
Definition shift (n : nat) (args : list string) : Sh (list string) :=
  fun s =>
    if (n <=? length args)%nat
    then (Go (drop n args), set_status 0 s)
    else (Go args, set_status 1 s).

(** [for x in words; do body; done]: a [continue] goes on with the next
    word, a [return] leaves the loop; without a word the status is 0. *)
Definition set_var (x : string) (value : string) (s : shell) : shell :=
  mkShell (<[x := value]> (vars s)) (status s) (ran s) (host s).

Fixpoint for_loop (x : string) (words : list string) (body : Sh unit)
    : Sh unit :=
  match words with
  | [] => ret tt
  | w :: rest =>
      fun s =>
        match body (set_var x w s) with
        | (Returned, s') => (Returned, s')
        | (_, s') => for_loop x rest body s'
        end
  end.

Definition for_ (x : string) (words : shell -> list string) (body : Sh unit)
    : Sh unit :=
  fun s =>
    match words s with
    | [] => (Go tt, set_status 0 s)
    | ws => for_loop x ws body s
    end.

(** A call of a function of the file: its [return] ends the call. *)
Definition call (f : list string -> Sh unit) (args : shell -> list string)
    : Sh unit :=
  fun s => let s' := snd (f (args s) s) in (Go tt, set_status (status s') s').

(** ** The functions *)

(** [setupInstallation], lines 11-22 *)
Definition setupInstallation (args : list string) : Sh unit :=
  assign "XROOTD_USER" (fun _ => arg 1 args) >>
  assign "XROOTD_GROUP" (fun _ => arg 2 args) >>
  or_else
    (program (fun s => ["getent"; "group"] ++ fields s (get s "XROOTD_GROUP")))
    (program (fun s => ["groupadd"; "-r"] ++ fields s (get s "XROOTD_GROUP")))
  >>
  or_else
    (program (fun s => ["getent"; "passwd"]
                       ++ fields s (get s "XROOTD_USER")))
    (program (fun s => ["useradd"; "-r"; "-g"]
                       ++ fields s (get s "XROOTD_GROUP")
                       ++ ["-c"; "XRootD runtime user"; "-s"; "/sbin/nologin";
                           "-d"; "/var/spool/xrootd"]
                       ++ fields s (get s "XROOTD_USER"))) >>
  program (fun s => ["chown"]
                    ++ fields s (get s "XROOTD_USER" +:+ ":"
                                 +:+ get s "XROOTD_GROUP")
                    ++ ["-R"; "/var/spool/xrootd"]) >>
  program (fun s => ["chown"]
                    ++ fields s (get s "XROOTD_USER" +:+ ":"
                                 +:+ get s "XROOTD_GROUP")
                    ++ ["-R"; "/var/log/xrootd"]).

(** [checkFile], lines 27-37 *)
Definition checkFile (args : list string) : Sh unit :=
  assign "FILE" (fun _ => arg 1 args) >>
  assign "XROOTD_USER" (fun _ => arg 2 args) >>
  assign "XROOTD_GROUP" (fun _ => arg 3 args) >>
  if_then
    (let* owner :=
       substitute (fun s => ["stat"; "-c"; "%U"] ++ fields s (get s "FILE")) in
     test_words (fun s => ["x" +:+ owner; "!="]
                          ++ fields s ("x" +:+ get s "XROOTD_USER")))
    (let* owner :=
       substitute (fun s => ["stat"; "-c"; "%U"] ++ fields s (get s "FILE")) in
     builtin (fun s => ["echo";
                        get s "FILE" +:+ " has wrong user ownership: "
                        +:+ dquote +:+ owner +:+ dquote +:+ " instead of "
                        +:+ dquote +:+ get s "XROOTD_USER" +:+ dquote]) >>
     return_ 1).

(** [checkDirectory], lines 42-60 *)
Definition checkDirectory (args : list string) : Sh unit :=
  assign "DIRECTORY" (fun _ => arg 1 args) >>
  assign "XROOTD_USER" (fun _ => arg 2 args) >>
  assign "XROOTD_GROUP" (fun _ => arg 3 args) >>
  if_then
    (test_file (fun s => ["!"; "-d"] ++ fields s (get s "DIRECTORY")))
    (builtin (fun s => ["echo"; "Directory: " +:+ get s "DIRECTORY"
                                +:+ " does not exist"]) >>
     return_ 1) >>
  let* found :=
    substitute (fun s => ["find"] ++ fields s (get s "DIRECTORY")) in
  for_ "i" (fun s => fields s found)
    (call checkFile (fun s => fields s (get s "i")
                              ++ fields s (get s "XROOTD_USER")
                              ++ fields s (get s "XROOTD_GROUP")) >>
     if_then (test (fun s => negb (status s =? 0)%N)) (return_ 1)) >>
  return_ 0.

(** [checkSanity], lines 65-101 *)
Definition checkSanity (args : list string) : Sh unit :=
  assign "XROOTD_USER" (fun _ => arg 1 args) >>
  assign "XROOTD_GROUP" (fun _ => arg 2 args) >>
  program (fun s => ["getent"; "passwd"] ++ fields s (get s "XROOTD_USER")) >>
  if_then (test (fun s => negb (status s =? 0)%N))
    (builtin (fun s => ["echo"; "User account for: " +:+ get s "XROOTD_USER"
                                +:+ " doesn't exist"]) >>
     return_ 1) >>
  program (fun s => ["getent"; "group"] ++ fields s (get s "XROOTD_GROUP")) >>
  if_then (test (fun s => negb (status s =? 0)%N))
    (builtin (fun s => ["echo"; "Group account for: " +:+ get s "XROOTD_GROUP"
                                +:+ " doesn't exist"]) >>
     return_ 2) >>
  call checkDirectory (fun s => ["/var/spool/xrootd"]
                                ++ fields s (get s "XROOTD_USER")
                                ++ fields s (get s "XROOTD_GROUP")) >>
  if_then (test (fun s => negb (status s =? 0)%N))
    (program (fun s => ["chown"]
                       ++ fields s (get s "XROOTD_USER" +:+ ":"
                                    +:+ get s "XROOTD_GROUP")
                       ++ ["-R"; "/var/spool/xrootd"])) >>
  program (fun _ => ["mkdir"; "-p"; "/var/run/xrootd"]) >>
  program (fun s => ["chown"]
                    ++ fields s (get s "XROOTD_USER" +:+ ":"
                                 +:+ get s "XROOTD_GROUP")
                    ++ ["-R"; "/var/run/xrootd"]) >>
  call checkDirectory (fun s => ["/var/run/xrootd"]
                                ++ fields s (get s "XROOTD_USER")
                                ++ fields s (get s "XROOTD_GROUP")) >>
  if_then (test (fun s => negb (status s =? 0)%N))
    (program (fun s => ["chown"]
                       ++ fields s (get s "XROOTD_USER" +:+ ":"
                                    +:+ get s "XROOTD_GROUP")
                       ++ ["-R"; "/var/run/xrootd"])).

(** [startDaemon], lines 106-133 *)
Definition startDaemon (args : list string) : Sh unit :=
  builtin (fun _ => ["ulimit"; "-n"; "65536"]) >>
  assign "DAEMON" (fun _ => arg 1 args) >>
  assign "EX" (fun _ => arg 2 args) >>
  assign "XROOTD_USER" (fun _ => arg 3 args) >>
  assign "XROOTD_GROUP" (fun _ => arg 4 args) >>
  assign "INSTANCE" (fun _ => arg 5 args) >>
  assign "PIDFILE" (fun s => "/var/run/xrootd/" +:+ get s "DAEMON" +:+ "-"
                             +:+ get s "INSTANCE" +:+ ".pid") >>
  call checkSanity (fun s => fields s (get s "XROOTD_USER")
                             ++ fields s (get s "XROOTD_GROUP")) >>
  if_then (test (fun s => negb (status s =? 0)%N))
    (builtin (fun _ => ["echo"; "Please run: service xrootd setup"]) >>
     return_ 1) >>
  builtin (fun s => ["echo"; "-n";
                     "Starting xrootd (" +:+ get s "DAEMON" +:+ ", "
                     +:+ get s "INSTANCE" +:+ "): "]) >>
  let* args := shift 5 args in
  builtin (fun _ => ["cd"; "/var/spool/xrootd"]) >>
  command (fun s => ["daemon"; "--user"] ++ fields s (get s "XROOTD_USER")
                    ++ ["--pidfile"] ++ fields s (get s "PIDFILE")
                    ++ fields s (get s "EX") ++ fields_all s args
                    ++ ["-b"; "-s"] ++ fields s (get s "PIDFILE")
                    ++ ["-n"] ++ fields s (get s "INSTANCE")) >>
  assign "RETVAL" (fun s => pretty (status s)) >>
  builtin (fun _ => ["echo"]) >>
  return_words (fun s => fields s (get s "RETVAL")).

(** [stopDaemon], lines 138-151 *)
Definition stopDaemon (args : list string) : Sh unit :=
  builtin (fun _ => ["echo"; "-n";
                     "Shutting down xrootd (" +:+ arg 1 args +:+ ", "
                     +:+ arg 5 args +:+ "): "]) >>
  assign "PIDFILE" (fun _ => "/var/run/xrootd/" +:+ arg 1 args +:+ "-"
                             +:+ arg 5 args +:+ ".pid") >>
  if_then (test_file (fun s => ["-e"] ++ fields s (get s "PIDFILE")))
    (command (fun s => ["killproc"; "-p"] ++ fields s (get s "PIDFILE")
                       ++ fields s (arg 1 args)) >>
     assign "RETVAL" (fun s => pretty (status s)) >>
     builtin (fun _ => ["echo"]) >>
     return_words (fun s => fields s (get s "RETVAL"))) >>
  builtin (fun _ => ["echo"; "-n";
                     arg 1 args +:+ "-" +:+ arg 5 args +:+ " not running"]) >>
  builtin (fun _ => ["echo"]) >>
  return_ 0.

(** [statusOfTheDaemon], lines 156-162 *)
Definition statusOfTheDaemon (args : list string) : Sh unit :=
  assign "PIDFILE" (fun _ => "/var/run/xrootd/" +:+ arg 1 args +:+ "-"
                             +:+ arg 5 args +:+ ".pid") >>
  builtin (fun _ => ["echo"; "-n"; "[" +:+ arg 5 args +:+ "] "]) >>
  command (fun s => ["status"; "-p"] ++ fields s (get s "PIDFILE")
                    ++ fields s (arg 1 args)) >>
  return_words (fun s => fields s (get s "RETVAL")).

(** [condrestartDaemon], lines 167-186 *)
Definition condrestartDaemon (args : list string) : Sh unit :=
  assign "PIDFILE" (fun _ => "/var/run/xrootd/" +:+ arg 1 args +:+ "-"
                             +:+ arg 5 args +:+ ".pid") >>
  command (fun s => ["status"; "-p"] ++ fields s (get s "PIDFILE")
                    ++ fields s (arg 1 args)) >>
  if_then (test (fun s => negb (status s =? 0)%N)) (return_ 0) >>
  call stopDaemon (fun s => fields_all s args) >>
  if_then (test (fun s => negb (status s =? 0)%N)) (return_ 1) >>
  call startDaemon (fun s => fields_all s args) >>
  if_then (test (fun s => negb (status s =? 0)%N)) (return_ 2) >>
  return_ 0.

(** A command whose name is the value of a variable: a function of the
    file when it names one (a call of [handleDaemons] by itself is left to
    the oracle), a command of the machine otherwise. *)
Definition invoke (argv : shell -> list string) : Sh unit :=
  fun s =>
    match argv s with
    | name :: args =>
        if String.eqb name "setupInstallation"
        then call setupInstallation (fun _ => args) s
        else if String.eqb name "checkFile"
        then call checkFile (fun _ => args) s
        else if String.eqb name "checkDirectory"
        then call checkDirectory (fun _ => args) s
        else if String.eqb name "checkSanity"
        then call checkSanity (fun _ => args) s
        else if String.eqb name "startDaemon"
        then call startDaemon (fun _ => args) s
        else if String.eqb name "stopDaemon"
        then call stopDaemon (fun _ => args) s
        else if String.eqb name "statusOfTheDaemon"
        then call statusOfTheDaemon (fun _ => args) s
        else if String.eqb name "condrestartDaemon"
        then call condrestartDaemon (fun _ => args) s
        else command argv s
    | [] => command argv s
    end.

(** The pick of the binary in the loop of [handleDaemons], lines 283-290 *)
Definition select_binary : Sh unit :=
  assign "EXEC_RUN" (fun s => get s "EXEC") >>
  if_then (test_file (fun s => ["-x"] ++ fields s (get s "EXEC" +:+ "-3")))
    (for_ "INS" (fun s => fields s (get s "INSTANCES_XROOTD3"))
       (if_then
          (test_words (fun s => fields s (get s "INS") ++ ["="]
                                ++ fields s (get s "INSTANCE")))
          (assign "EXEC_RUN" (fun s => get s "EXEC" +:+ "-3")))).

(** The words of the call of the handler, line 298 *)
Definition handler_call (s : shell) : list string :=
  fields s (get s "CMD_HANDLER") ++ fields s (get s "DAEMON")
  ++ fields s (get s "EXEC_RUN")
  ++ [get s "XROOTD_USER"; get s "XROOTD_GROUP"]
  ++ fields s (get s "INSTANCE") ++ [get s "OPTS"].

(** One round of the loop of [handleDaemons], lines 275-303, in two parts:
    up to the test that skips an instance without options, and from the
    call of the handler on. *)
Definition instance_options : Sh unit :=
  assign_output "INSTANCE_UPPER"
    (substitute (fun s => ["echo"] ++ fields s (get s "INSTANCE")
                          ++ ["|"; "tr"; "[[:lower:]]"; "[[:upper:]]"])) >>
  eval_assign "OPTS" (fun s => get s "CONFIG_NAME" +:+ "_"
                               +:+ get s "INSTANCE_UPPER" +:+ "_OPTIONS") >>
  select_binary >>
  if_then (test (fun s => String.eqb (get s "OPTS") "")) continue_.

Definition instance_run : Sh unit :=
  invoke handler_call >>
  assign "STATUS" (fun s => pretty (status s)) >>
  if_then
    (and_then (test (fun s => negb (status s =? 0)%N))
       (invoke (fun s => [get s "CMD_HANDLER"; "!="; "statusOfTheDaemon"])))
    (assign "STATUS" (fun _ => "1")).

Definition round : Sh unit := instance_options >> instance_run.

(** The end of [handleDaemons], lines 274-304: the loop over the instances
    and the status returned. *)
Definition run_instances (instances : shell -> list string) : Sh unit :=
  assign "STATUS" (fun _ => "0") >>
  for_ "INSTANCE" instances round >>
  return_words (fun s => fields s (get s "STATUS")).

(** [handleDaemons], lines 191-305 *)
Definition handleDaemons (args : list string) : Sh unit :=
  if_then (test (fun s => String.eqb (get s "XROOTD_USER") ""))
    (assign "XROOTD_USER" (fun _ => "daemon")) >>
  if_then (test (fun s => String.eqb (get s "XROOTD_GROUP") ""))
    (assign "XROOTD_GROUP" (fun _ => "daemon")) >>
  assign "COMMAND" (fun _ => arg 1 args) >>
  let* args := shift 1 args in
  (fun s =>
     let COMMAND := get s "COMMAND" in
     if String.eqb COMMAND "start"
     then assign "CMD_HANDLER" (fun _ => "startDaemon") s
     else if String.eqb COMMAND "stop"
     then assign "CMD_HANDLER" (fun _ => "stopDaemon") s
     else if String.eqb COMMAND "status"
     then assign "CMD_HANDLER" (fun _ => "statusOfTheDaemon") s
     else if String.eqb COMMAND "condrestart"
     then assign "CMD_HANDLER" (fun _ => "condrestartDaemon") s
     else if String.eqb COMMAND "setup"
     then (call setupInstallation
             (fun s => fields s (get s "XROOTD_USER")
                       ++ fields s (get s "XROOTD_GROUP")) >>
           return_last) s
     else (builtin (fun s => ["echo";
                              "Unrecognized command: " +:+ get s "COMMAND"])
           >> return_ 1) s) >>
  assign "DAEMON" (fun _ => arg 1 args) >>
  let* args := shift 1 args in
  (fun s =>
     let DAEMON := get s "DAEMON" in
     if String.eqb DAEMON "xrootd" || String.eqb DAEMON "cmsd"
     then (assign "EXEC" (fun s => "/usr/bin/" +:+ get s "DAEMON") >>
           assign_output "CONFIG_NAME"
             (substitute (fun s => ["echo"] ++ fields s (get s "DAEMON")
                                   ++ ["|"; "tr"; "[[:lower:]]";
                                       "[[:upper:]]"]))) s
     else if String.eqb DAEMON "frm_purged"
     then (assign "EXEC" (fun s => "/usr/bin/" +:+ get s "DAEMON") >>
           assign "CONFIG_NAME" (fun _ => "PURD")) s
     else if String.eqb DAEMON "frm_xfrd"
     then (assign "EXEC" (fun s => "/usr/bin/" +:+ get s "DAEMON") >>
           assign "CONFIG_NAME" (fun _ => "XFRD")) s
     else (builtin (fun s => ["echo";
                              "Unrecognized daemon: " +:+ get s "DAEMON"])
           >> return_ 1) s) >>
  if_then_else (test (fun _ => (length args =? 0)%nat))
    (eval_assign "INSTANCES"
       (fun s => get s "CONFIG_NAME" +:+ "_INSTANCES"))
    (assign "INSTANCES" (fun _ => String.concat " " args)) >>
  eval_assign "INSTANCES_XROOTD3"
    (fun s => get s "CONFIG_NAME" +:+ "3_INSTANCES") >>
  assign_output "INSTANCES"
    (substitute (fun s => ["echo"] ++ fields s (get s "INSTANCES")
                          ++ ["|"; "tr"; "[[:upper:]]"; "[[:lower:]]"])) >>
  assign_output "INSTANCES_XROOTD3"
    (substitute (fun s => ["echo"] ++ fields s (get s "INSTANCES_XROOTD3")
                          ++ ["|"; "tr"; "[[:upper:]]"; "[[:lower:]]"])) >>
  run_instances (fun s => fields s (get s "INSTANCES")).

(** ** Observations *)

(** A list of commands that no [return] cuts short. *)
Definition stays {A} (c : Sh A) : Prop :=
  forall s, fst (c s) <> Returned.

End Script.

Arguments shell : clear implicits.
Arguments Machine : clear implicits.
Arguments Sh : clear implicits.

(** ** A concrete machine *)

(** Two instances [a] and [b] of [xrootd] with pid files at hand, and none
    for an instance [c]; stopping [a] fails with status 3, there is no
    account [nobody], every other command succeeds, and [status] finds
    nothing running. *)
Definition example_machine : Machine unit :=
  {| split := fun _ w => [w];
     builtin_outcome := fun argv _ =>
       match argv with
       | ["getent"; "passwd"; user] =>
           (if String.eqb user "nobody" then 2%N else 0%N, tt)
       | _ => (0%N, tt)
       end;
     run := fun argv s =>
       match argv with
       | "killproc" :: _ :: pidfile :: _ =>
           set_status
             (if String.eqb pidfile "/var/run/xrootd/xrootd-a.pid" then 3
              else 0) s
       | "status" :: _ => set_status 3 s
       | _ => set_status 0 s
       end;
     output := fun argv s =>
       (match argv with
        | ["echo"; w; "|"; "tr"; "[[:lower:]]"; "[[:upper:]]"] =>
            if String.eqb w "a" then "A"
            else if String.eqb w "b" then "B"
            else "XROOTD"
        | _ => ""
        end, set_status 0 s);
     eval_other := fun _ s => s;
     test_other := fun args _ =>
       match args with
       | ["-e"; file] =>
           if String.eqb file "/var/run/xrootd/xrootd-c.pid" then 1%N
           else 0%N
       | _ => 1%N
       end;
     return_other := fun _ _ => 2%N |}.

Definition example_shell : shell unit :=
  mkShell
    (list_to_map
       [("CMD_HANDLER", "stopDaemon"); ("DAEMON", "xrootd");
        ("EXEC", "/usr/bin/xrootd"); ("CONFIG_NAME", "XROOTD");
        ("XROOTD_USER", "daemon"); ("XROOTD_GROUP", "daemon");
        ("XROOTD_A_OPTIONS", "-c /etc/xrootd/a.cfg");
        ("XROOTD_B_OPTIONS", "-c /etc/xrootd/b.cfg")])
    0 [] tt.

(** The shell once the rounds of [words] are through, and as the handler of
    [last] finds it after that. *)
Definition after_rounds (words : list string) : shell unit :=
  snd (for_loop "INSTANCE" words (round example_machine)
         (snd (assign "STATUS" (fun _ => "0") example_shell))).

Definition before_handler (words : list string) (last : string)
    : shell unit :=
  snd (instance_options example_machine
         (set_var "INSTANCE" last (after_rounds words))).

End InitScript.

(** * Properties *)

(** ** Symbolic execution of the monad *)

Lemma fresh_lookup (h : gmap loc cell) : h !! fresh (dom h) = None.
Proof. apply not_elem_of_dom, is_fresh. Qed.

Lemma Ok_world_eq {A} (a : A) (h1 h2 : gmap loc cell)
    (s1 s2 : gmap static_id content) (t1 t2 : list event) :
  h1 = h2 -> s1 = s2 -> t1 = t2 ->
  Ok a (World h1 s1 t1) = Ok a (World h2 s2 t2).
Proof. congruence. Qed.

Create HintDb exec.

#[local] Hint Unfold bind ret raise load store alloc free log deref
  read_status read_AnyObject read_Object read_File read_handler
  delete_ delete_status delete_hostList delete_info delete_response delete_this
  XRootDStatus_dtor HostList_dtor Object_dtor AnyObject_dtor
  shared_ptr_copy shared_ptr_release promise_set promise_dtor
  SetException FutureWrapperBase_dtor ForwardingHandler_dtor
  GetOperationContext OperationContext_dtor OperationContext_reset invoke
  assign_status assign_Object
  ForwardingHandler_HandleResponse ForwardingHandler_HandleResponseWithHosts
  WrappingHandler_HandleResponse WrappingHandler_HandleResponseWithHosts
  SimpleFunctionWrapper_HandleResponse FunctionWrapper_HandleResponse
  SimpleForwardingFunctionWrapper_HandleResponse
  ForwardingFunctionWrapper_HandleResponse File_Stat
  ExOpenFuncWrapper_HandleResponse ForwardingExOpenFuncWrapper_HandleResponse
  set_called FutureWrapper_HandleResponse FutureWrapper_void_HandleResponse
  AnyObject_Get peek_status peek_Object peek_context
  ArgsContainer_SetArg ArgsContainer_GetArg OperationContext_GetArg
  FwdArg FwdArg_default new_ForwardingHandler new_FutureWrapper
  RespBase_Create Resp_Create Resp_void_Create Create
  reclaimed release_container container_frees free_list
  stat_result stat_frees statics_after : exec.

(** A freshly allocated address is not in the store it was allocated in. *)
Ltac fresh_facts :=
  repeat match goal with
  | Hf : <[_ := _]> _ !! _ = None |- _ =>
      apply lookup_insert_None in Hf; destruct Hf
  end.

Ltac name_fresh :=
  match goal with
  | |- context [fresh (dom ?m)] =>
      lazymatch m with
      | context [fresh] => fail
      | _ => idtac
      end;
      let x := fresh "x" in
      pose proof (fresh_lookup m);
      generalize dependent (fresh (dom m)); intros x; intros;
      fresh_facts
  end.

(** Lookups after updates, and tests decided by the hypotheses. *)
Ltac look :=
  repeat first
    [ rewrite lookup_delete_eq
    | rewrite lookup_insert_eq
    | rewrite lookup_delete_ne by congruence
    | rewrite lookup_insert_ne by congruence
    | rewrite String.eqb_refl
    | rewrite decide_True by congruence
    | rewrite decide_False by congruence
    | match goal with
      | Hl : ?h !! ?l = _ |- context [?h !! ?l] => rewrite Hl
      | Hb : ?b = _ |- context [if ?b then _ else _] => rewrite Hb
      | Hm : ?x = _ |- context [match ?x with _ => _ end] => rewrite Hm
      end ].

(** What a callable leaves behind its references is not known: both
    answers are followed. *)
Ltac split_writes :=
  match goal with
  | |- context [match fst (body ?fn ?a ?b) with _ => _ end] =>
      destruct (fst (body fn a b))
  | |- context [match snd (body ?fn ?a ?b) with _ => _ end] =>
      destruct (snd (body fn a b))
  end.

Ltac exec :=
  repeat (first [ progress autounfold with exec
                | progress cbn -[fresh static_value]
                | progress look
                | name_fresh
                | split_writes
                | progress rewrite <- ?app_assoc ]).

(** Two stores are equal when they agree at every address. *)
Ltac heap_eq :=
  apply map_eq; intros ?i;
  repeat (rewrite lookup_delete || rewrite lookup_insert);
  repeat (case_decide; subst; try congruence); try congruence.

Ltac same_world :=
  apply Ok_world_eq; [ first [reflexivity | heap_eq] | reflexivity | reflexivity ].

(** ** The reclaimed store *)

Lemma free_list_lookup_in (ls : list loc) (h : gmap loc cell) (l : loc) :
  l ∈ ls -> free_list ls h !! l = None.
Proof.
  revert h. induction ls as [|a ls IH]; intros h Hin.
  - inversion Hin.
  - simpl. destruct (decide (l ∈ ls)) as [Hl|Hl].
    + now apply IH.
    + apply elem_of_cons in Hin as [->|Hin]; [|contradiction].
      clear IH. revert h. induction ls as [|b ls IH]; intros h; simpl.
      * apply lookup_delete_eq.
      * apply not_elem_of_cons in Hl as [Hb Hl].
        rewrite delete_delete. now apply IH.
Qed.

Lemma free_list_lookup_notin (ls : list loc) (h : gmap loc cell) (l : loc) :
  l ∉ ls -> free_list ls h !! l = h !! l.
Proof.
  revert h. induction ls as [|a ls IH]; intros h Hl; simpl.
  - reflexivity.
  - apply not_elem_of_cons in Hl as [Ha Hl].
    rewrite IH by assumption. now apply lookup_delete_ne.
Qed.

Lemma release_container_lookup_ne c n args (h : gmap loc cell) (l : loc) :
  l <> c -> release_container c n args h !! l = h !! l.
Proof.
  intros Hl. destruct n; simpl.
  - now apply lookup_delete_ne.
  - now apply lookup_insert_ne.
Qed.

Lemma reclaimed_this h this c n args st rs :
  reclaimed h this c n args st rs !! this = None.
Proof. apply lookup_delete_eq. Qed.

Lemma reclaimed_status h this c n args st rs :
  st <> c -> reclaimed h this c n args st rs !! st = None.
Proof.
  intros Hc. unfold reclaimed.
  destruct (decide (this = st)) as [->|Hne]; [apply lookup_delete_eq|].
  rewrite lookup_delete_ne, release_container_lookup_ne by assumption.
  destruct (decide (st ∈ rs)).
  - now apply free_list_lookup_in.
  - rewrite free_list_lookup_notin by assumption. apply lookup_delete_eq.
Qed.

Lemma reclaimed_response h this c n args st rs (r : loc) :
  r ∈ rs -> r <> c -> reclaimed h this c n args st rs !! r = None.
Proof.
  intros Hr Hc. unfold reclaimed.
  destruct (decide (this = r)) as [->|Hne]; [apply lookup_delete_eq|].
  rewrite lookup_delete_ne, release_container_lookup_ne by assumption.
  now apply free_list_lookup_in.
Qed.

Lemma reclaimed_frame h this c n args st rs (l : loc) :
  l <> this -> l <> c -> l <> st -> l ∉ rs ->
  reclaimed h this c n args st rs !! l = h !! l.
Proof.
  intros Hthis Hc Hst Hrs. unfold reclaimed.
  rewrite lookup_delete_ne, release_container_lookup_ne by congruence.
  rewrite free_list_lookup_notin by assumption.
  apply lookup_delete_ne. congruence.
Qed.

(** ** Traces *)

Lemma calls_app (t1 t2 : list event) : calls (t1 ++ t2) = calls t1 ++ calls t2.
Proof. apply List.filter_app. Qed.

Lemma calls_frees (ls : list loc) : calls (map EvFree ls) = [].
Proof. induction ls; simpl; auto. Qed.

Lemma stats_app (t1 t2 : list event) : stats (t1 ++ t2) = stats t1 ++ stats t2.
Proof. apply List.filter_app. Qed.

Lemma stats_frees (ls : list loc) : stats (map EvFree ls) = [].
Proof. induction ls; simpl; auto. Qed.

Lemma handled_frees (ls : list loc) : handled (map EvFree ls) = [].
Proof. induction ls; simpl; auto. Qed.

Lemma frees_frees (ls : list loc) : frees (map EvFree ls) = ls.
Proof. induction ls; simpl; [reflexivity|]. unfold frees in *. simpl. now f_equal. Qed.

(** The response storage lies in the store. *)
Lemma response_at_live h p rs (r : loc) :
  response_at h p rs -> r ∈ rs -> is_Some (h !! r).
Proof.
  intros [] Hin.
  - inversion Hin.
  - apply list_elem_of_singleton in Hin as ->. eauto.
  - apply elem_of_cons in Hin as [->|Hin]; [eauto|].
    apply list_elem_of_singleton in Hin as ->. eauto.
Qed.

Lemma frees_cons_stat f b (t : list event) : frees (EvStat f b :: t) = frees t.
Proof. reflexivity. Qed.

Lemma frees_cons_call fn a b c (t : list event) :
  frees (EvCall fn a b c :: t) = frees t.
Proof. reflexivity. Qed.

Lemma response_at_fresh h p rs (x : loc) :
  response_at h p rs -> h !! x = None -> x ∉ rs.
Proof.
  intros Hresp Hx Hin.
  destruct (response_at_live h p rs x Hresp Hin) as [v Hv]. congruence.
Qed.

Lemma response_at_kind h p rs (r : loc) :
  response_at h p rs -> r ∈ rs ->
  (exists a, h !! r = Some (CAnyObject a)) \/
  (exists o, h !! r = Some (CObject o)).
Proof.
  intros [] Hin.
  - inversion Hin.
  - apply list_elem_of_singleton in Hin as ->. eauto.
  - apply elem_of_cons in Hin as [->|Hin]; [eauto|].
    apply list_elem_of_singleton in Hin as ->. eauto.
Qed.

(** An address holding neither an [AnyObject] nor a response object is not
    part of the response storage. *)
Ltac not_response :=
  let Hin := fresh "Hin" in
  intros Hin;
  match goal with
  | Hresp : response_at _ _ _ |- _ =>
      destruct (response_at_kind _ _ _ _ Hresp Hin) as [[? ?]|[? ?]]; congruence
  end.

Section Properties.

Context {codes : StatusCodes}.

(** ** One delivery, class by class

    In each lemma the handler sits at [this] with [S n] shares of the
    container at [c] outstanding, and the status of the outcome at [st_l]. *)

Lemma Base_run fuel h sts t this c n args st_l st resp rs :
  h !! this = Some (CForwardingHandler (mkHandler c Base)) ->
  h !! c = Some (CArgsContainer (S n) args) ->
  h !! st_l = Some (CStatus st) ->
  response_at h resp rs ->
  HandleResponse (S fuel) (addr this) (addr st_l) resp (World h sts t) =
    Ok tt (World (reclaimed h this c n args st_l rs) sts
             (t ++ map EvFree (st_l :: rs ++ container_frees c n ++ [this]))).
Proof.
  intros Hthis Hc Hst Hresp.
  exec; destruct Hresp; exec; destruct n; exec; same_world.
Qed.

Lemma SimpleFunctionWrapper_run fuel h sts t this c n args fn st_l st resp rs :
  h !! this = Some (CForwardingHandler (mkHandler c (SimpleFunctionWrapper fn))) ->
  h !! c = Some (CArgsContainer (S n) args) ->
  h !! st_l = Some (CStatus st) ->
  response_at h resp rs ->
  HandleResponse (S fuel) (addr this) (addr st_l) resp (World h sts t) =
    Ok tt (World (reclaimed h this c n args st_l rs) sts
             (t ++ EvCall fn (addr st_l, Some st) None None
                :: map EvFree (st_l :: rs ++ container_frees c n ++ [this]))).
Proof.
  intros Hthis Hc Hst Hresp.
  exec; destruct Hresp; exec; destruct n; exec; same_world.
Qed.

Lemma SimpleForwardingFunctionWrapper_run fuel h sts t this c n args fn st_l st
    resp rs :
  h !! this =
    Some (CForwardingHandler (mkHandler c (SimpleForwardingFunctionWrapper fn))) ->
  h !! c = Some (CArgsContainer (S n) args) ->
  h !! st_l = Some (CStatus st) ->
  response_at h resp rs ->
  exists x, h !! x = None /\
  HandleResponse (S fuel) (addr this) (addr st_l) resp (World h sts t) =
    Ok tt (World (reclaimed h this c n args st_l rs) sts
             (t ++ EvCall fn (addr st_l, Some st) None (Some (addr x, Some c))
                :: map EvFree (st_l :: rs ++ [this] ++ container_frees c n ++ [x]))).
Proof.
  intros Hthis Hc Hst Hresp.
  exec; destruct Hresp; exec; destruct n; exec.
  all: eexists; split; [|same_world]; eassumption.
Qed.

Lemma FunctionWrapper_run_success fuel h sts t this c n args T fn st_l st r o obj :
  h !! this = Some (CForwardingHandler (mkHandler c (FunctionWrapper T fn))) ->
  h !! c = Some (CArgsContainer (S n) args) ->
  h !! st_l = Some (CStatus st) -> IsOK st = true ->
  h !! r = Some (CAnyObject (mkAnyObject (addr o) T)) ->
  h !! o = Some (CObject obj) ->
  HandleResponse (S fuel) (addr this) (addr st_l) (addr r) (World h sts t) =
    Ok tt (World (reclaimed h this c n args st_l [o; r]) sts
             (t ++ EvCall fn (addr st_l, Some st) (Some (addr o, Some obj)) None
                :: map EvFree (st_l :: [o; r] ++ container_frees c n ++ [this]))).
Proof.
  intros Hthis Hc Hst Hok Hr Ho.
  exec; destruct n; exec; same_world.
Qed.

Lemma FunctionWrapper_run_failure fuel h sts t this c n args T fn st_l st resp rs :
  h !! this = Some (CForwardingHandler (mkHandler c (FunctionWrapper T fn))) ->
  h !! c = Some (CArgsContainer (S n) args) ->
  h !! st_l = Some (CStatus st) -> IsOK st = false ->
  response_at h resp rs ->
  HandleResponse (S fuel) (addr this) (addr st_l) resp (World h sts t) =
    Ok tt (World (reclaimed h this c n args st_l rs)
             (statics_after fn st (FunctionWrapper_nullref T) sts)
             (t ++ EvCall fn (addr st_l, Some st)
                     (Some (static_addr (FunctionWrapper_nullref T),
                            Some (static_value sts (FunctionWrapper_nullref T)))) None
                :: map EvFree (st_l :: rs ++ container_frees c n ++ [this]))).
Proof.
  intros Hthis Hc Hst Hok Hresp.
  exec; destruct Hresp; exec; destruct n; exec; same_world.
Qed.

Lemma ForwardingFunctionWrapper_run_success fuel h sts t this c n args T fn
    st_l st r o obj :
  h !! this =
    Some (CForwardingHandler (mkHandler c (ForwardingFunctionWrapper T fn))) ->
  h !! c = Some (CArgsContainer (S n) args) ->
  h !! st_l = Some (CStatus st) -> IsOK st = true ->
  h !! r = Some (CAnyObject (mkAnyObject (addr o) T)) ->
  h !! o = Some (CObject obj) ->
  exists x, h !! x = None /\
  HandleResponse (S fuel) (addr this) (addr st_l) (addr r) (World h sts t) =
    Ok tt (World (reclaimed h this c n args st_l [o; r]) sts
             (t ++ EvCall fn (addr st_l, Some st) (Some (addr o, Some obj))
                     (Some (addr x, Some c))
                :: map EvFree (st_l :: [o; r] ++ [this] ++ container_frees c n ++ [x]))).
Proof.
  intros Hthis Hc Hst Hok Hr Ho.
  exec; destruct n; exec.
  all: eexists; split; [|same_world]; eassumption.
Qed.

Lemma ForwardingFunctionWrapper_run_failure fuel h sts t this c n args T fn
    st_l st resp rs :
  h !! this =
    Some (CForwardingHandler (mkHandler c (ForwardingFunctionWrapper T fn))) ->
  h !! c = Some (CArgsContainer (S n) args) ->
  h !! st_l = Some (CStatus st) -> IsOK st = false ->
  response_at h resp rs ->
  exists x, h !! x = None /\
  HandleResponse (S fuel) (addr this) (addr st_l) resp (World h sts t) =
    Ok tt (World (reclaimed h this c n args st_l rs)
             (statics_after fn st (ForwardingFunctionWrapper_nullref T) sts)
             (t ++ EvCall fn (addr st_l, Some st)
                     (Some (static_addr (ForwardingFunctionWrapper_nullref T),
                            Some (static_value sts (ForwardingFunctionWrapper_nullref T))))
                     (Some (addr x, Some c))
                :: map EvFree (st_l :: rs ++ [this] ++ container_frees c n ++ [x]))).
Proof.
  intros Hthis Hc Hst Hok Hresp.
  exec; destruct Hresp; exec; destruct n; exec.
  all: eexists; split; [|same_world]; eassumption.
Qed.

Lemma ExOpenFuncWrapper_run_success fuel h sts t this c n args f file fn
    st_l st resp rs :
  h !! this = Some (CForwardingHandler (mkHandler c (ExOpenFuncWrapper f fn))) ->
  h !! c = Some (CArgsContainer (S n) args) ->
  h !! f = Some (CFile file) ->
  h !! st_l = Some (CStatus st) -> IsOK st = true ->
  response_at h resp rs ->
  exists x, h !! x = None /\
  HandleResponse (S fuel) (addr this) (addr st_l) resp (World h sts t) =
    Ok tt (World (reclaimed h this c n args st_l rs) sts
             (t ++ EvStat f false
                :: EvCall fn (addr st_l, Some st) (Some (stat_result x file)) None
                :: map EvFree (stat_frees x file ++ st_l :: rs
                               ++ container_frees c n ++ [this]))).
Proof.
  intros Hthis Hc Hf Hst Hok Hresp.
  exec; destruct (stat_info file) eqn:Hd; exec; destruct Hresp; exec;
    destruct n; exec.
  all: eexists; split; [|same_world]; try eassumption.
  all: exact (fresh_lookup h).
Qed.

Lemma ExOpenFuncWrapper_run_failure fuel h sts t this c n args f fn
    st_l st resp rs :
  h !! this = Some (CForwardingHandler (mkHandler c (ExOpenFuncWrapper f fn))) ->
  h !! c = Some (CArgsContainer (S n) args) ->
  h !! st_l = Some (CStatus st) -> IsOK st = false ->
  response_at h resp rs ->
  HandleResponse (S fuel) (addr this) (addr st_l) resp (World h sts t) =
    Ok tt (World (reclaimed h this c n args st_l rs)
             (statics_after fn st ExOpenFuncWrapper_nullref sts)
             (t ++ EvCall fn (addr st_l, Some st)
                     (Some (static_addr ExOpenFuncWrapper_nullref,
                            Some (static_value sts ExOpenFuncWrapper_nullref))) None
                :: map EvFree (st_l :: rs ++ container_frees c n ++ [this]))).
Proof.
  intros Hthis Hc Hst Hok Hresp.
  exec; destruct Hresp; exec; destruct n; exec; same_world.
Qed.

Lemma ForwardingExOpenFuncWrapper_run_success fuel h sts t this c n args f file fn
    st_l st resp rs :
  h !! this =
    Some (CForwardingHandler (mkHandler c (ForwardingExOpenFuncWrapper f fn))) ->
  h !! c = Some (CArgsContainer (S n) args) ->
  h !! f = Some (CFile file) ->
  h !! st_l = Some (CStatus st) -> IsOK st = true ->
  response_at h resp rs ->
  exists x y, h !! x = None /\ h !! y = None /\
    (stat_info file <> None -> x <> y) /\
  HandleResponse (S fuel) (addr this) (addr st_l) resp (World h sts t) =
    Ok tt (World (reclaimed h this c n args st_l rs) sts
             (t ++ EvStat f false
                :: EvCall fn (addr st_l, Some st) (Some (stat_result x file))
                     (Some (addr y, Some c))
                :: map EvFree (stat_frees x file ++ st_l :: rs ++ [this]
                               ++ container_frees c n ++ [y]))).
Proof.
  intros Hthis Hc Hf Hst Hok Hresp.
  exec; destruct (stat_info file) eqn:Hd; exec; destruct Hresp; exec;
    destruct n; exec.
  all: do 2 eexists; split; [|split; [|split]]; [| | |same_world];
    try eassumption; try congruence.
Qed.

Lemma ForwardingExOpenFuncWrapper_run_failure fuel h sts t this c n args f fn
    st_l st resp rs :
  h !! this =
    Some (CForwardingHandler (mkHandler c (ForwardingExOpenFuncWrapper f fn))) ->
  h !! c = Some (CArgsContainer (S n) args) ->
  h !! st_l = Some (CStatus st) -> IsOK st = false ->
  response_at h resp rs ->
  exists y, h !! y = None /\
  HandleResponse (S fuel) (addr this) (addr st_l) resp (World h sts t) =
    Ok tt (World (reclaimed h this c n args st_l rs)
             (statics_after fn st ForwardingExOpenFuncWrapper_nullref sts)
             (t ++ EvCall fn (addr st_l, Some st)
                     (Some (static_addr ForwardingExOpenFuncWrapper_nullref,
                            Some (static_value sts ForwardingExOpenFuncWrapper_nullref)))
                     (Some (addr y, Some c))
                :: map EvFree (st_l :: rs ++ [this] ++ container_frees c n ++ [y]))).
Proof.
  intros Hthis Hc Hst Hok Hresp.
  exec; destruct Hresp; exec; destruct n; exec.
  all: eexists; split; [|same_world]; eassumption.
Qed.

Lemma FutureWrapper_run_success fuel h sts t this c n args T prms called
    st_l st r o obj :
  h !! this =
    Some (CForwardingHandler (mkHandler c (FutureWrapper (Some T) prms called))) ->
  h !! c = Some (CArgsContainer (S n) args) ->
  h !! prms = Some (CSharedState Pending) ->
  h !! st_l = Some (CStatus st) -> IsOK st = true ->
  h !! r = Some (CAnyObject (mkAnyObject (addr o) T)) ->
  h !! o = Some (CObject obj) ->
  HandleResponse (S fuel) (addr this) (addr st_l) (addr r) (World h sts t) =
    Ok tt (World (<[prms := CSharedState (Value (Some obj))]>
                    (reclaimed h this c n args st_l [o; r])) sts
             (t ++ map EvFree (st_l :: [o; r] ++ container_frees c n ++ [this]))).
Proof.
  intros Hthis Hc Hp Hst Hok Hr Ho.
  exec; destruct n; exec; same_world.
Qed.

Lemma FutureWrapper_void_run_success fuel h sts t this c n args prms called
    st_l st resp rs :
  h !! this =
    Some (CForwardingHandler (mkHandler c (FutureWrapper None prms called))) ->
  h !! c = Some (CArgsContainer (S n) args) ->
  h !! prms = Some (CSharedState Pending) ->
  h !! st_l = Some (CStatus st) -> IsOK st = true ->
  response_at h resp rs ->
  HandleResponse (S fuel) (addr this) (addr st_l) resp (World h sts t) =
    Ok tt (World (<[prms := CSharedState (Value None)]>
                    (reclaimed h this c n args st_l rs)) sts
             (t ++ map EvFree (st_l :: rs ++ container_frees c n ++ [this]))).
Proof.
  intros Hthis Hc Hp Hst Hok Hresp.
  exec; destruct Hresp; exec; destruct n; exec; same_world.
Qed.

Lemma FutureWrapper_run_failure fuel h sts t this c n args R prms called
    st_l st resp rs :
  h !! this =
    Some (CForwardingHandler (mkHandler c (FutureWrapper R prms called))) ->
  h !! c = Some (CArgsContainer (S n) args) ->
  h !! prms = Some (CSharedState Pending) ->
  h !! st_l = Some (CStatus st) -> IsOK st = false ->
  response_at h resp rs ->
  HandleResponse (S fuel) (addr this) (addr st_l) resp (World h sts t) =
    Ok tt (World (<[prms := CSharedState (Exception (PipelineException st))]>
                    (reclaimed h this c n args st_l rs)) sts
             (t ++ map EvFree (st_l :: rs ++ container_frees c n ++ [this]))).
Proof.
  intros Hthis Hc Hp Hst Hok Hresp.
  destruct R; exec; destruct Hresp; exec; destruct n; exec; same_world.
Qed.

Lemma FutureWrapper_abandoned h sts t this c n args R prms :
  h !! this =
    Some (CForwardingHandler (mkHandler c (FutureWrapper R prms false))) ->
  h !! c = Some (CArgsContainer (S n) args) ->
  h !! prms = Some (CSharedState Pending) ->
  delete_this (addr this) (World h sts t) =
    Ok tt (World (delete this
                    (release_container c n args
                       (<[prms := CSharedState
                                    (Exception
                                       (PipelineException
                                          (XRootDStatus_ctor stError
                                             errPipelineFailed)))]> h))) sts
             (t ++ map EvFree (container_frees c n ++ [this]))).
Proof.
  intros Hthis Hc Hp.
  exec; destruct n; exec; same_world.
Qed.

Lemma WrappingHandler_run fuel h sts t this c n args hdl id status response :
  h !! this =
    Some (CForwardingHandler (mkHandler c (WrappingHandler (addr hdl)))) ->
  h !! c = Some (CArgsContainer (S n) args) ->
  h !! hdl = Some (CResponseHandler id) ->
  HandleResponse (S (S fuel)) (addr this) status response (World h sts t) =
    Ok tt (World (delete this (release_container c n args h)) sts
             (t ++ EvHandle hdl id status response None
                :: map EvFree (container_frees c n ++ [this]))).
Proof.
  intros Hthis Hc Hh.
  exec; destruct n; exec; same_world.
Qed.

Lemma WrappingHandler_run_hosts fuel h sts t this c n args hdl id status response
    hostList :
  h !! this =
    Some (CForwardingHandler (mkHandler c (WrappingHandler (addr hdl)))) ->
  h !! c = Some (CArgsContainer (S n) args) ->
  h !! hdl = Some (CResponseHandler id) ->
  HandleResponseWithHosts (S (S fuel)) (addr this) status response hostList
      (World h sts t) =
    Ok tt (World (delete this (release_container c n args h)) sts
             (t ++ EvHandle hdl id status response (Some hostList)
                :: map EvFree (container_frees c n ++ [this]))).
Proof.
  intros Hthis Hc Hh.
  exec; destruct n; exec; same_world.
Qed.

(** A handler that is not a [WrappingHandler] inherits the callback with
    hosts of the base class. *)
Lemma HandleResponseWithHosts_inherited fuel w this hd status response
    hostList :
  heap w !! this = Some (CForwardingHandler hd) ->
  (forall p, dyn hd <> WrappingHandler p) ->
  HandleResponseWithHosts (S fuel) (addr this) status response hostList w =
    (delete_hostList hostList >>
     HandleResponse fuel (addr this) status response) w.
Proof.
  intros Hthis Hk. cbn. unfold bind at 1. unfold load. rewrite Hthis.
  destruct hd as [c k]; destruct k; cbn in *; try reflexivity.
  now destruct (Hk handler).
Qed.

(** With its host list at [hl], the inherited callback with hosts is the
    plain callback run in the store without the host list. *)
Lemma HandleResponseWithHosts_drops_hosts fuel h sts t this hd status response
    hl hosts :
  h !! this = Some (CForwardingHandler hd) ->
  (forall p, dyn hd <> WrappingHandler p) ->
  h !! hl = Some (CHostList hosts) ->
  HandleResponseWithHosts (S fuel) (addr this) status response (addr hl)
      (World h sts t) =
    HandleResponse fuel (addr this) status response
      (World (delete hl h) sts (t ++ [EvFree hl])).
Proof.
  intros Hthis Hk Hhl.
  rewrite HandleResponseWithHosts_inherited with (hd := hd) by assumption.
  exec. reflexivity.
Qed.

(** ** Fuel *)

(** Fuel only bounds the chain of wrapping handlers: a delivery that
    completes keeps its result when given more. *)
Lemma HandleResponse_fuel_mono (n : nat) :
  forall this status response w a w',
    HandleResponse n this status response w = Ok a w' ->
    HandleResponse (S n) this status response w = Ok a w'.
Proof.
  induction n as [|n IH]; intros this status response w a w' Hrun.
  - discriminate.
  - remember (S n) as m eqn:Hm.
    rewrite Hm in Hrun. cbn [HandleResponse] in Hrun |- *.
    unfold bind at 1. unfold bind at 1 in Hrun.
    destruct (deref this w) as [cl w0|]; [|discriminate].
    destruct this as [|l|s]; destruct cl as [| | | | | | | | |id|hd];
      try exact Hrun.
    all: destruct (dyn hd); try exact Hrun.
    all: unfold WrappingHandler_HandleResponse, bind in Hrun |- *.
    all: destruct (HandleResponse n handler status response w0)
           as [u w1|] eqn:E; [|discriminate].
    all: apply IH in E; rewrite <- ?Hm in E; now rewrite E.
Qed.

Lemma HandleResponseWithHosts_fuel_mono (n : nat) :
  forall this status response hostList w a w',
    HandleResponseWithHosts n this status response hostList w = Ok a w' ->
    HandleResponseWithHosts (S n) this status response hostList w = Ok a w'.
Proof.
  induction n as [|n IH]; intros this status response hostList w a w' Hrun.
  - discriminate.
  - remember (S n) as m eqn:Hm.
    rewrite Hm in Hrun. cbn [HandleResponseWithHosts] in Hrun |- *.
    unfold bind at 1. unfold bind at 1 in Hrun.
    destruct (deref this w) as [cl w0|]; [|discriminate].
    assert (Hbase :
      ForwardingHandler_HandleResponseWithHosts (HandleResponse n) this
        status response hostList w0 = Ok a w' ->
      ForwardingHandler_HandleResponseWithHosts (HandleResponse m) this
        status response hostList w0 = Ok a w').
    { unfold ForwardingHandler_HandleResponseWithHosts, bind.
      destruct (delete_hostList hostList w0) as [u w1|]; [|discriminate].
      rewrite Hm. apply HandleResponse_fuel_mono. }
    destruct this as [|l|s]; destruct cl as [| | | | | | | | |id|hd];
      try exact Hrun.
    all: destruct (dyn hd); try (now apply Hbase).
    all: unfold WrappingHandler_HandleResponseWithHosts, bind in Hrun |- *.
    all: destruct (HandleResponseWithHosts n handler status response hostList w0)
           as [u w1|] eqn:E; [|discriminate].
    all: apply IH in E; rewrite <- ?Hm in E; now rewrite E.
Qed.

(** ** Construction *)

Lemma new_ForwardingHandler_spec (k : kind) h sts t :
  exists c l, h !! c = None /\ h !! l = None /\ c <> l /\
  new_ForwardingHandler k (World h sts t) =
    Ok (addr l)
       (World (<[l := CForwardingHandler (mkHandler c k)]>
                 (<[c := CArgsContainer 1 ∅]> h)) sts t).
Proof.
  exec. do 2 eexists. split; [|split; [|split]]; [| | |reflexivity];
    eassumption.
Qed.

Lemma new_FutureWrapper_spec (R : option string) (ftr : loc) s h sts t :
  h !! ftr = Some (CFuture s) ->
  exists c p l, h !! c = None /\ h !! p = None /\ h !! l = None /\
    c <> p /\ c <> l /\ p <> l /\
  new_FutureWrapper R ftr (World h sts t) =
    Ok (addr l)
       (World (<[ftr := CFuture (Some p)]>
                 (<[l := CForwardingHandler
                           (mkHandler c (FutureWrapper R p false))]>
                    (<[p := CSharedState Pending]>
                       (<[c := CArgsContainer 1 ∅]> h)))) sts t).
Proof.
  intros Hf. exec.
  exists x, x0, x1.
  split; [assumption|]. split; [assumption|]. split; [assumption|].
  split; [congruence|]. split; [congruence|]. split; [congruence|].
  reflexivity.
Qed.

End Properties.

Section Claims.

Context {codes : StatusCodes}.

(** ** Callback adapters *)

(** C2. For each of the four callable shapes, creating the adapter through
    the factory and delivering a success outcome whose payload holds the
    response [R] calls the callable exactly once, with the success status
    and (for the shapes that take one) the response [R]; the call precedes
    every deallocation, and afterwards the status, the payload, the response
    and the adapter are gone, the store being the original one without the
    outcome.  This holds whatever the callable writes through its
    references. *)
Theorem callable_dispatch_success (fuel : nat) (w : world) (v : supplied)
    (fn : callable)
    (st_l : loc) (st : XRootDStatus) (r o : loc) (T : string) (R : Object) :
  callable_of v = Some fn ->
  heap w !! st_l = Some (CStatus st) ->
  IsOK st = true ->
  heap w !! r = Some (CAnyObject (mkAnyObject (addr o) T)) ->
  heap w !! o = Some (CObject R) ->
  (forall T', response_type_of v = Some T' -> T' = T) ->
  exists this w1 w2 ctx tl,
    Create (response_type_of v) v w = Ok (addr this) w1 /\
    HandleResponse (S fuel) (addr this) (addr st_l) (addr r) w1 = Ok tt w2 /\
    trace w2 =
      trace w ++ EvCall fn (addr st_l, Some st) (response_arg v o R) ctx
              :: map EvFree tl /\
    calls (trace w2) =
      calls (trace w) ++ [EvCall fn (addr st_l, Some st) (response_arg v o R) ctx] /\
    (is_Some ctx <-> takes_context v = true) /\
    (st_l ∈ tl /\ o ∈ tl /\ r ∈ tl /\ this ∈ tl) /\
    heap w2 = free_list [st_l; o; r] (heap w) /\
    statics w2 = statics w.
Proof.
  intros Hfn Hst Hok Hr Ho HT. destruct w as [h sts t]. cbn [heap statics trace] in *.
  destruct v; try discriminate; cbn in Hfn; injection Hfn as ->;
    try (specialize (HT _ eq_refl); subst ResponseType);
    cbn [response_type_of Create Resp_Create Resp_void_Create];
    unfold response_arg; cbn [response_type_of takes_context];
    rewrite ?decide_True by reflexivity.
  - (* (status) *)
    destruct (new_ForwardingHandler_spec (SimpleFunctionWrapper fn) h sts t)
      as (c & l & Hc & Hl & Hcl & HC).
    eexists l, _, _, None, _. split; [exact HC|]. split.
    { apply (SimpleFunctionWrapper_run fuel _ sts t l c 0 ∅ fn st_l st (addr r) [o; r]);
        look; try reflexivity.
      eapply response_holding; look; reflexivity. }
    cbn [heap statics trace]. split; [reflexivity|].
    split; [rewrite calls_app; reflexivity|].
    split; [split; [intros [? ?]|]; discriminate|].
    split; [cbn; repeat split; set_solver|].
    split; [exec; heap_eq | reflexivity].
  - (* (status, context) *)
    destruct (new_ForwardingHandler_spec (SimpleForwardingFunctionWrapper fn) h sts t)
      as (c & l & Hc & Hl & Hcl & HC).
    destruct (SimpleForwardingFunctionWrapper_run fuel
                (<[l := CForwardingHandler
                          (mkHandler c (SimpleForwardingFunctionWrapper fn))]>
                   (<[c := CArgsContainer 1 ∅]> h))
                sts t l c 0 ∅ fn st_l st (addr r) [o; r]) as (x & Hx & HR);
      look; try reflexivity.
    { eapply response_holding; look; reflexivity. }
    eexists l, _, _, (Some _), _. split; [exact HC|]. split; [exact HR|].
    cbn [heap statics trace]. split; [reflexivity|].
    split; [rewrite calls_app; reflexivity|].
    split; [split; [reflexivity|eauto]|].
    split; [cbn; repeat split; set_solver|].
    split; [exec; heap_eq | reflexivity].
  - (* (status, response) *)
    destruct (new_ForwardingHandler_spec (FunctionWrapper T fn) h sts t)
      as (c & l & Hc & Hl & Hcl & HC).
    eexists l, _, _, None, _. split; [exact HC|]. split.
    { apply (FunctionWrapper_run_success fuel _ sts t l c 0 ∅ T fn st_l st r o R);
        look; try reflexivity; assumption. }
    cbn [heap statics trace]. split; [reflexivity|].
    split; [rewrite calls_app; reflexivity|].
    split; [split; [intros [? ?]|]; discriminate|].
    split; [cbn; repeat split; set_solver|].
    split; [exec; heap_eq | reflexivity].
  - (* (status, response, context) *)
    destruct (new_ForwardingHandler_spec (ForwardingFunctionWrapper T fn) h sts t)
      as (c & l & Hc & Hl & Hcl & HC).
    destruct (ForwardingFunctionWrapper_run_success fuel
                (<[l := CForwardingHandler
                          (mkHandler c (ForwardingFunctionWrapper T fn))]>
                   (<[c := CArgsContainer 1 ∅]> h))
                sts t l c 0 ∅ T fn st_l st r o R) as (x & Hx & HR);
      look; try reflexivity; try assumption.
    eexists l, _, _, (Some _), _. split; [exact HC|]. split; [exact HR|].
    cbn [heap statics trace]. split; [reflexivity|].
    split; [rewrite calls_app; reflexivity|].
    split; [split; [reflexivity|eauto]|].
    split; [cbn; repeat split; set_solver|].
    split; [exec; heap_eq | reflexivity].
Qed.

(** The static a wrapper falls back to depends on its class and response
    type only, not on the instance or the callable it stores. *)
Lemma nullref_of_shared (T : string) (fn fn' : callable) :
  nullref_of (FunctionWrapper T fn) = nullref_of (FunctionWrapper T fn') /\
  nullref_of (ForwardingFunctionWrapper T fn) =
    nullref_of (ForwardingFunctionWrapper T fn').
Proof. split; reflexivity. Qed.

(** The two class templates do not share their static: for one response
    type there is one placeholder per class. *)
Lemma nullref_per_class (T : string) (fn fn' : callable) :
  nullref_of (FunctionWrapper T fn) <>
  nullref_of (ForwardingFunctionWrapper T fn').
Proof. discriminate. Qed.

(** C3. A [FunctionWrapper<T>] or [ForwardingFunctionWrapper<T>] that is
    delivered a failure outcome calls its callable with a reference to the
    static [nullref] of its class and response type, an object of type [T]
    that is in the default-constructed state as long as no callable has
    written to it: the reference is not null and is not bound to the storage
    of the outcome's response, whatever that response is. *)
Theorem failure_passes_nullref (fuel : nat) (w : world) (this c : loc)
    (n : nat)
    (args : gmap (string * Z) Object) (k : kind) (T : string) (fn : callable)
    (st_l : loc) (st : XRootDStatus) (resp : ptr) (rs : list loc) :
  k = FunctionWrapper T fn \/ k = ForwardingFunctionWrapper T fn ->
  heap w !! this = Some (CForwardingHandler (mkHandler c k)) ->
  heap w !! c = Some (CArgsContainer (S n) args) ->
  heap w !! st_l = Some (CStatus st) ->
  IsOK st = false ->
  response_at (heap w) resp rs ->
  exists s w' ctx tl,
    nullref_of k = Some s /\
    HandleResponse (S fuel) (addr this) (addr st_l) resp w = Ok tt w' /\
    trace w' =
      trace w ++ EvCall fn (addr st_l, Some st)
                   (Some (static_addr s, Some (static_value (statics w) s))) ctx
              :: map EvFree tl /\
    type_name (static_value (statics w) s) = T /\
    (statics w !! s = None ->
     static_value (statics w) s = mkObject T DefaultConstructed) /\
    static_addr s <> nullptr /\
    (forall o, o ∈ rs -> static_addr s <> addr o).
Proof.
  intros Hk Hthis Hc Hst Hok Hresp. destruct w as [h sts t].
  cbn [heap statics trace] in *. destruct Hk as [-> | ->].
  - eexists (FunctionWrapper_nullref T), _, None, _.
    split; [reflexivity|]. split.
    { eapply FunctionWrapper_run_failure; eassumption. }
    cbn [heap statics trace]. split; [reflexivity|].
    split; [reflexivity|]. split.
    { intros Hs. unfold static_value. now rewrite Hs. }
    split; congruence.
  - destruct (ForwardingFunctionWrapper_run_failure fuel h sts t this c n args T fn
                st_l st resp rs) as (x & Hx & HR); try assumption.
    eexists (ForwardingFunctionWrapper_nullref T), _, (Some _), _.
    split; [reflexivity|]. split; [exact HR|].
    cbn [heap statics trace]. split; [reflexivity|].
    split; [reflexivity|]. split.
    { intros Hs. unfold static_value. now rewrite Hs. }
    split; congruence.
Qed.

(** ** Open with stat *)

(** C5. An [ExOpenFuncWrapper] or [ForwardingExOpenFuncWrapper] that is
    delivered a failed open status issues no [File::Stat] and hands the
    callable its static placeholder; delivered a success status it issues
    [Stat] exactly once and hands the callable what the stat left in [info];
    when the stat allocated a result, that object is released exactly once
    (first, and nowhere else) and is gone afterwards. *)
Theorem open_stat_fetch (fuel : nat) (w : world) (this c : loc) (n : nat)
    (args : gmap (string * Z) Object) (k : kind) (f : loc) (fn : callable)
    (st_l : loc) (st : XRootDStatus) (resp : ptr) (rs : list loc) :
  k = ExOpenFuncWrapper f fn \/ k = ForwardingExOpenFuncWrapper f fn ->
  heap w !! this = Some (CForwardingHandler (mkHandler c k)) ->
  heap w !! c = Some (CArgsContainer (S n) args) ->
  heap w !! st_l = Some (CStatus st) ->
  response_at (heap w) resp rs ->
  (IsOK st = false ->
   exists s w' new ctx,
     nullref_of k = Some s /\
     HandleResponse (S fuel) (addr this) (addr st_l) resp w = Ok tt w' /\
     trace w' = trace w ++ new /\
     stats new = [] /\
     calls new = [EvCall fn (addr st_l, Some st)
                    (Some (static_addr s, Some (static_value (statics w) s)))
                    ctx]) /\
  (IsOK st = true ->
   forall file, heap w !! f = Some (CFile file) ->
   exists x w' new ctx,
     heap w !! x = None /\
     HandleResponse (S fuel) (addr this) (addr st_l) resp w = Ok tt w' /\
     trace w' = trace w ++ new /\
     stats new = [EvStat f false] /\
     calls new = [EvCall fn (addr st_l, Some st)
                    (Some (stat_result x file)) ctx] /\
     (forall d, stat_info file = Some d ->
        stat_result x file = (addr x, Some (mkObject StatInfo_name d)) /\
        (exists rest, frees new = x :: rest /\ x ∉ rest) /\
        heap w' !! x = None)).
Proof.
  intros Hk Hthis Hc Hst Hresp. destruct w as [h sts t].
  cbn [heap statics trace] in *. split.
  - intros Hok. destruct Hk as [-> | ->].
    + eexists ExOpenFuncWrapper_nullref, _, _, None.
      split; [reflexivity|]. split.
      { eapply ExOpenFuncWrapper_run_failure; eassumption. }
      cbn [heap statics trace]. split; [reflexivity|].
      split; [apply stats_frees | cbn [calls List.filter]; now rewrite calls_frees].
    + destruct (ForwardingExOpenFuncWrapper_run_failure fuel h sts t this c n args f
                  fn st_l st resp rs) as (y & Hy & HR); try assumption.
      eexists ForwardingExOpenFuncWrapper_nullref, _, _, (Some _).
      split; [reflexivity|]. split; [exact HR|].
      cbn [heap statics trace]. split; [reflexivity|].
      split; [apply stats_frees | cbn [calls List.filter]; now rewrite calls_frees].
  - intros Hok file Hf.
    assert (Hcs : c <> st_l) by congruence.
    assert (Hts : this <> st_l) by congruence.
    destruct Hk as [-> | ->].
    + destruct (ExOpenFuncWrapper_run_success fuel h sts t this c n args f file fn
                  st_l st resp rs) as (x & Hx & HR); try assumption.
      exists x. eexists _, _, None.
      split; [exact Hx|]. split; [exact HR|].
      cbn [heap statics trace]. split; [reflexivity|].
      split; [cbn [stats List.filter]; now rewrite stats_frees|].
      split; [cbn [calls List.filter]; now rewrite calls_frees|].
      intros d Hd. unfold stat_result, stat_frees. rewrite Hd.
      split; [reflexivity|]. split.
      * rewrite frees_cons_stat, frees_cons_call, frees_frees.
        eexists. split; [reflexivity|].
        rewrite not_elem_of_cons, !not_elem_of_app, list_elem_of_singleton.
        repeat split; try congruence.
        -- eapply response_at_fresh; eassumption.
        -- destruct n; cbn; [rewrite list_elem_of_singleton; congruence|].
           apply not_elem_of_nil.
      * rewrite reclaimed_frame; try congruence.
        eapply response_at_fresh; eassumption.
    + destruct (ForwardingExOpenFuncWrapper_run_success fuel h sts t this c n args f
                  file fn st_l st resp rs) as (x & y & Hx & Hy & Hxy & HR);
        try assumption.
      exists x. eexists _, _, (Some _).
      split; [exact Hx|]. split; [exact HR|].
      cbn [heap statics trace]. split; [reflexivity|].
      split; [cbn [stats List.filter]; now rewrite stats_frees|].
      split; [cbn [calls List.filter]; now rewrite calls_frees|].
      intros d Hd. unfold stat_result, stat_frees. rewrite Hd.
      split; [reflexivity|]. split.
      * rewrite frees_cons_stat, frees_cons_call, frees_frees.
        eexists. split; [reflexivity|].
        rewrite not_elem_of_cons, !not_elem_of_app, !list_elem_of_singleton.
        assert (x <> y) by (apply Hxy; congruence).
        repeat split; try congruence.
        -- eapply response_at_fresh; eassumption.
        -- destruct n; cbn; [rewrite list_elem_of_singleton; congruence|].
           apply not_elem_of_nil.
      * rewrite reclaimed_frame; try congruence.
        eapply response_at_fresh; eassumption.
Qed.

(** C10. When the open succeeded, the status the callable receives is the
    open status, and the response argument is whatever the stat left in
    [info] (null when it produced nothing), for every answer of the stat:
    the status returned by [File::Stat] appears nowhere in the call. *)
Theorem open_status_ignores_stat_status (fuel : nat) (w : world)
    (this c : loc) (n : nat)
    (args : gmap (string * Z) Object) (k : kind) (f : loc) (fn : callable)
    (st_l : loc) (st : XRootDStatus) (resp : ptr) (rs : list loc)
    (file : File) :
  k = ExOpenFuncWrapper f fn \/ k = ForwardingExOpenFuncWrapper f fn ->
  heap w !! this = Some (CForwardingHandler (mkHandler c k)) ->
  heap w !! c = Some (CArgsContainer (S n) args) ->
  heap w !! f = Some (CFile file) ->
  heap w !! st_l = Some (CStatus st) ->
  IsOK st = true ->
  response_at (heap w) resp rs ->
  exists x w' new ctx,
    heap w !! x = None /\
    HandleResponse (S fuel) (addr this) (addr st_l) resp w = Ok tt w' /\
    trace w' = trace w ++ new /\
    calls new = [EvCall fn (addr st_l, Some st)
                   (Some (match stat_info file with
                          | Some d => (addr x, Some (mkObject StatInfo_name d))
                          | None => (nullptr, None)
                          end)) ctx].
Proof.
  intros Hk Hthis Hc Hf Hst Hok Hresp. destruct w as [h sts t].
  cbn [heap statics trace] in *. destruct Hk as [-> | ->].
  - destruct (ExOpenFuncWrapper_run_success fuel h sts t this c n args f file fn
                st_l st resp rs) as (x & Hx & HR); try assumption.
    exists x. eexists _, _, None.
    split; [exact Hx|]. split; [exact HR|].
    cbn [heap statics trace]. split; [reflexivity|].
    cbn [calls List.filter]. now rewrite calls_frees.
  - destruct (ForwardingExOpenFuncWrapper_run_success fuel h sts t this c n args f
                file fn st_l st resp rs) as (x & y & Hx & Hy & Hxy & HR);
      try assumption.
    exists x. eexists _, _, (Some _).
    split; [exact Hx|]. split; [exact HR|].
    cbn [heap statics trace]. split; [reflexivity|].
    cbn [calls List.filter]. now rewrite calls_frees.
Qed.

(** ** The future wrapper *)

(** The state the factory leaves a future wrapper in: not yet called, its
    promise pending, the caller's future attached to that promise. *)
Lemma Create_future_pending (Response : option string) (ftr : loc) s h sts t :
  h !! ftr = Some (CFuture s) ->
  exists this c prms w1,
    Create Response (future_ref Response ftr) (World h sts t) = Ok (addr this) w1 /\
    trace w1 = t /\
    heap w1 !! this =
      Some (CForwardingHandler
              (mkHandler c (FutureWrapper Response prms false))) /\
    heap w1 !! c = Some (CArgsContainer 1 ∅) /\
    heap w1 !! prms = Some (CSharedState Pending) /\
    heap w1 !! ftr = Some (CFuture (Some prms)).
Proof.
  intros Hf.
  destruct (new_FutureWrapper_spec Response ftr s h sts t Hf)
    as (c & p & l & Hc & Hp & Hl & Hcp & Hcl & Hpl & HC).
  exists l, c, p. eexists. split.
  { destruct Response; cbn [Create Resp_Create Resp_void_Create RespBase_Create];
      rewrite decide_True by reflexivity; exact HC. }
  cbn [heap statics trace]. split; [reflexivity|].
  repeat split; look; reflexivity.
Qed.

(** What destroying an uncalled future wrapper does to its promise and to
    the future attached to it. *)
Lemma FutureWrapper_abandoned_released (R : option string) h sts t this c n args
    prms ftr :
  h !! this =
    Some (CForwardingHandler (mkHandler c (FutureWrapper R prms false))) ->
  h !! c = Some (CArgsContainer (S n) args) ->
  h !! prms = Some (CSharedState Pending) ->
  h !! ftr = Some (CFuture (Some prms)) ->
  exists w',
    delete_this (addr this) (World h sts t) = Ok tt w' /\
    heap w' !! this = None /\
    heap w' !! prms =
      Some (CSharedState
              (Exception
                 (PipelineException
                    (XRootDStatus_ctor stError errPipelineFailed)))) /\
    future_get w' ftr =
      Throws (PipelineException
                (XRootDStatus_ctor stError errPipelineFailed)).
Proof.
  intros Hthis Hc Hp Hf.
  eexists. split.
  { eapply FutureWrapper_abandoned; eassumption. }
  cbn [heap statics trace]. split; [apply lookup_delete_eq|].
  assert (Hprms : delete this
                    (release_container c n args
                       (<[prms := CSharedState
                                    (Exception
                                       (PipelineException
                                          (XRootDStatus_ctor stError
                                             errPipelineFailed)))]> h))
                  !! prms =
                  Some (CSharedState
                          (Exception
                             (PipelineException
                                (XRootDStatus_ctor stError errPipelineFailed))))).
  { rewrite lookup_delete_ne, release_container_lookup_ne by congruence.
    apply lookup_insert_eq. }
  split; [exact Hprms|].
  unfold future_get. cbn [heap statics trace].
  rewrite lookup_delete_ne, release_container_lookup_ne by congruence.
  rewrite lookup_insert_ne by congruence. rewrite Hf.
  now rewrite Hprms.
Qed.

(** A wrapper destroyed right after the factory made it releases the
    caller's future. *)
Lemma created_future_abandoned (R : option string) (w : world) (ftr : loc) s :
  heap w !! ftr = Some (CFuture s) ->
  exists this w1 w2,
    Create R (future_ref R ftr) w = Ok (addr this) w1 /\
    delete_this (addr this) w1 = Ok tt w2 /\
    future_get w2 ftr =
      Throws (PipelineException
                (XRootDStatus_ctor stError errPipelineFailed)).
Proof.
  destruct w as [h sts t]. cbn [heap statics trace]. intros Hf.
  destruct (Create_future_pending R ftr s h sts t Hf)
    as (this & c & prms & [h1 sts1 t1] & HC & _ & Hthis & Hc & Hp & Hf1).
  cbn [heap statics trace] in *.
  destruct (FutureWrapper_abandoned_released R h1 sts1 t1 this c 0 ∅ prms ftr
              Hthis Hc Hp Hf1) as (w2 & Hd & _ & _ & Hg).
  exists this, (World h1 sts1 t1), w2. auto.
Qed.

(** C1. A future wrapper (of any response type, [void] included) that is
    destroyed while [called] is still false resolves its promise with a
    [PipelineException] wrapping [XRootDStatus( stError, errPipelineFailed )]
    in the course of the destruction: a [get] on the paired future, which
    would have blocked before, throws that exception afterwards. *)
Theorem abandoned_future_is_released (R : option string) (w : world)
    (this c : loc) (n : nat) (args : gmap (string * Z) Object)
    (prms ftr : loc) :
  heap w !! this =
    Some (CForwardingHandler (mkHandler c (FutureWrapper R prms false))) ->
  heap w !! c = Some (CArgsContainer (S n) args) ->
  heap w !! prms = Some (CSharedState Pending) ->
  heap w !! ftr = Some (CFuture (Some prms)) ->
  future_get w ftr = Blocks /\
  exists w',
    delete_this (addr this) w = Ok tt w' /\
    heap w' !! this = None /\
    heap w' !! prms =
      Some (CSharedState
              (Exception
                 (PipelineException
                    (XRootDStatus_ctor stError errPipelineFailed)))) /\
    future_get w' ftr =
      Throws (PipelineException
                (XRootDStatus_ctor stError errPipelineFailed)).
Proof.
  destruct w as [h sts t]. cbn [heap statics trace]. intros Hthis Hc Hp Hf. split.
  - unfold future_get. cbn [heap statics trace]. now rewrite Hf, Hp.
  - eapply FutureWrapper_abandoned_released; eassumption.
Qed.

(** C4. A delivery to a future wrapper whose promise is pending resolves
    the promise: with a failure status, by a [PipelineException] wrapping
    that very status; with a success status, by the completion without
    value for [void] and by the response object held by the payload
    otherwise.  A [get] on the paired future then throws, respectively
    returns, accordingly, and the status, the response storage and the
    wrapper are gone. *)
Theorem future_delivery (fuel : nat) (w : world) (this c : loc) (n : nat)
    (args : gmap (string * Z) Object) (R : option string) (prms ftr : loc)
    (called : bool) (st_l : loc) (st : XRootDStatus) (resp : ptr)
    (rs : list loc) :
  heap w !! this =
    Some (CForwardingHandler (mkHandler c (FutureWrapper R prms called))) ->
  heap w !! c = Some (CArgsContainer (S n) args) ->
  heap w !! prms = Some (CSharedState Pending) ->
  heap w !! ftr = Some (CFuture (Some prms)) ->
  heap w !! st_l = Some (CStatus st) ->
  response_at (heap w) resp rs ->
  (IsOK st = false ->
   future_resolved fuel w this st_l resp rs prms ftr
     (Exception (PipelineException st)) (Throws (PipelineException st))) /\
  (IsOK st = true -> R = None ->
   future_resolved fuel w this st_l resp rs prms ftr
     (Value None) (Returns None)) /\
  (IsOK st = true ->
   forall T r o obj,
     R = Some T -> resp = addr r ->
     heap w !! r = Some (CAnyObject (mkAnyObject (addr o) T)) ->
     heap w !! o = Some (CObject obj) ->
     future_resolved fuel w this st_l resp rs prms ftr
       (Value (Some obj)) (Returns (Some obj))).
Proof.
  destruct w as [h sts t]. cbn [heap statics trace].
  intros Hthis Hc Hp Hf Hst Hresp.
  assert (Hpost : forall outcome result tl,
            result = match outcome with
                     | Pending => Blocks
                     | Value v => Returns v
                     | Exception e => Throws e
                     end ->
            HandleResponse (S fuel) (addr this) (addr st_l) resp (World h sts t) =
              Ok tt (World (<[prms := CSharedState outcome]>
                              (reclaimed h this c n args st_l rs)) sts
                       (t ++ map EvFree tl)) ->
            future_resolved fuel (World h sts t) this st_l resp rs prms ftr
              outcome result).
  { intros outcome result tl -> HR. eexists. split; [exact HR|].
    cbn [heap statics trace].
    assert (Hprms : <[prms := CSharedState outcome]>
                      (reclaimed h this c n args st_l rs) !! prms =
                    Some (CSharedState outcome)) by apply lookup_insert_eq.
    split; [exact Hprms|]. split.
    { unfold future_get. cbn [heap statics trace].
      rewrite lookup_insert_ne by congruence.
      rewrite reclaimed_frame; try congruence.
      - rewrite Hf, Hprms. now destruct outcome.
      - not_response. }
    split.
    { rewrite lookup_insert_ne by congruence. apply reclaimed_this. }
    split.
    { rewrite lookup_insert_ne by congruence.
      apply reclaimed_status. congruence. }
    split.
    { intros r Hr.
      assert (prms <> r /\ r <> c) as [Hpr Hrc].
      { destruct (response_at_kind _ _ _ _ Hresp Hr) as [[? ?]|[? ?]];
          split; congruence. }
      rewrite lookup_insert_ne by assumption.
      now apply reclaimed_response. }
    rewrite calls_app, calls_frees. apply app_nil_r. }
  split; [|split].
  - intros Hok. eapply Hpost; [reflexivity|].
    eapply FutureWrapper_run_failure; eassumption.
  - intros Hok ->. eapply Hpost; [reflexivity|].
    eapply FutureWrapper_void_run_success; eassumption.
  - intros Hok T r o obj -> -> Hr Ho.
    assert (rs = [o; r]) as ->.
    { inversion Hresp; congruence. }
    eapply Hpost; [reflexivity|].
    eapply FutureWrapper_run_success; eassumption.
Qed.

(** ** The factories *)

(** C6. [Create] hands back a [ForwardingHandler] given by pointer or by
    reference as it is, allocating nothing; for a plain [ResponseHandler]
    (pointer or reference) it allocates a [WrappingHandler] around it, with
    a container of its own; for a [std::future<Response>] it allocates a
    [FutureWrapper<Response>] with a pending promise and attaches the future
    to it.  The result is a function of the supplied value, so one adapter
    is selected for each. *)
Theorem Create_selects_adapter (Response : option string) (w : world) :
  (forall hdlr : ptr,
     Create Response (ForwardingHandler_ptr hdlr) w = Ok hdlr w) /\
  (forall hdlr : loc,
     Create Response (ForwardingHandler_ref hdlr) w = Ok (addr hdlr) w) /\
  (forall hdlr : ptr,
     exists c l,
       heap w !! c = None /\ heap w !! l = None /\ c <> l /\
       Create Response (ResponseHandler_ptr hdlr) w =
         Ok (addr l)
            (World (<[l := CForwardingHandler
                             (mkHandler c (WrappingHandler hdlr))]>
                      (<[c := CArgsContainer 1 ∅]> (heap w)))
               (statics w) (trace w))) /\
  (forall hdlr : loc,
     exists c l,
       heap w !! c = None /\ heap w !! l = None /\ c <> l /\
       Create Response (ResponseHandler_ref hdlr) w =
         Ok (addr l)
            (World (<[l := CForwardingHandler
                             (mkHandler c (WrappingHandler (addr hdlr)))]>
                      (<[c := CArgsContainer 1 ∅]> (heap w)))
               (statics w) (trace w))) /\
  (forall (ftr : loc) (s : option loc),
     heap w !! ftr = Some (CFuture s) ->
     exists c p l,
       heap w !! c = None /\ heap w !! p = None /\ heap w !! l = None /\
       c <> p /\ c <> l /\ p <> l /\
       Create Response (future_ref Response ftr) w =
         Ok (addr l)
            (World (<[ftr := CFuture (Some p)]>
                      (<[l := CForwardingHandler
                                (mkHandler c (FutureWrapper Response p false))]>
                         (<[p := CSharedState Pending]>
                            (<[c := CArgsContainer 1 ∅]> (heap w)))))
               (statics w) (trace w))).
Proof.
  destruct w as [h sts t]. cbn [heap statics trace].
  assert (HC : forall v, (forall fn, v <> function_status fn) ->
                (forall fn, v <> function_status_context fn) ->
                (forall T fn, v <> function_status_response T fn) ->
                (forall T fn, v <> function_status_response_context T fn) ->
                Create Response v = RespBase_Create Response v).
  { intros v H1 H2 H3 H4.
    destruct Response; destruct v; try reflexivity;
      first [ now destruct (H1 fn) | now destruct (H2 fn)
            | now destruct (H3 ResponseType fn)
            | now destruct (H4 ResponseType fn) ]. }
  repeat split.
  - intros hdlr. rewrite HC by discriminate. reflexivity.
  - intros hdlr. rewrite HC by discriminate. reflexivity.
  - intros hdlr. rewrite HC by discriminate.
    apply new_ForwardingHandler_spec.
  - intros hdlr. rewrite HC by discriminate.
    apply new_ForwardingHandler_spec.
  - intros ftr s Hf. rewrite HC by discriminate.
    cbn [RespBase_Create]. rewrite decide_True by reflexivity.
    eapply new_FutureWrapper_spec. eassumption.
Qed.

(** A future of another response type is rejected at construction. *)
Lemma Create_future_mismatch (Response R : option string) (ftr : loc)
    (w : world) :
  R <> Response ->
  Create Response (future_ref R ftr) w = Fault NoMatchingOverload.
Proof.
  intros HR. destruct Response; cbn; now rewrite decide_False.
Qed.

(** ** Forwarded arguments *)

(** C7. A value forwarded through a handler with [FwdArg] is what a lookup
    of the same type and bucket returns afterwards, whether the lookup goes
    to the container itself, through an operation context over it, or
    through the context a handler sharing that container obtains from
    [GetOperationContext]; a lookup of another key that the container does
    not hold fails with the missing-key fault. *)
Theorem forwarded_argument_roundtrip (w : world) (this : loc)
    (hd : ForwardingHandler) (n : nat) (args : gmap (string * Z) Object)
    (T : string) (v : Object) (bucket : Z) :
  heap w !! this = Some (CForwardingHandler hd) ->
  heap w !! container hd = Some (CArgsContainer n args) ->
  exists w1,
    FwdArg (addr this) T v bucket w = Ok tt w1 /\
    ArgsContainer_GetArg (container hd) T bucket w1 = Ok v w1 /\
    (forall ctx : loc,
       heap w1 !! ctx = Some (COperationContext (container hd)) ->
       OperationContext_GetArg (addr ctx) T bucket w1 = Ok v w1) /\
    (forall (next : loc) (hd' : ForwardingHandler),
       heap w1 !! next = Some (CForwardingHandler hd') ->
       container hd' = container hd ->
       exists w2,
         (let* ctx := GetOperationContext (addr next) in
          OperationContext_GetArg ctx T bucket) w1 = Ok v w2) /\
    (forall (T' : string) (bucket' : Z),
       (T', bucket') <> (T, bucket) ->
       args !! (T', bucket') = None ->
       ArgsContainer_GetArg (container hd) T' bucket' w1 = Fault MissingKey /\
       forall ctx : loc,
         heap w1 !! ctx = Some (COperationContext (container hd)) ->
         OperationContext_GetArg (addr ctx) T' bucket' w1 = Fault MissingKey).
Proof.
  destruct w as [h sts t]. cbn [heap statics trace]. intros Hthis Hc.
  destruct hd as [c k]. cbn [container] in *.
  eexists. split.
  { exec. reflexivity. }
  split; [exec; reflexivity|].
  split.
  { intros ctx Hctx. cbn [heap statics trace] in Hctx.
    assert (ctx <> c).
    { intros ->. rewrite lookup_insert_eq in Hctx. discriminate. }
    rewrite lookup_insert_ne in Hctx by congruence.
    exec. reflexivity. }
  split.
  { intros next [c' k'] Hnext Hcc. cbn [heap container] in *. subst c'.
    assert (next <> c).
    { intros ->. rewrite lookup_insert_eq in Hnext. discriminate. }
    rewrite lookup_insert_ne in Hnext by congruence.
    exec. eexists. reflexivity. }
  intros T' bucket' Hne Hnone. split.
  - exec. reflexivity.
  - intros ctx Hctx. cbn [heap statics trace] in Hctx.
    assert (ctx <> c).
    { intros ->. rewrite lookup_insert_eq in Hctx. discriminate. }
    rewrite lookup_insert_ne in Hctx by congruence.
    exec. reflexivity.
Qed.

(** A container as the constructor of a handler makes it holds nothing:
    every lookup fails. *)
Lemma fresh_container_misses (w : world) (c : loc) (n : nat) (T : string)
    (bucket : Z) :
  heap w !! c = Some (CArgsContainer n ∅) ->
  ArgsContainer_GetArg c T bucket w = Fault MissingKey.
Proof.
  destruct w as [h sts t]. cbn [heap statics trace]. intros Hc. exec. reflexivity.
Qed.

(** ** The wrapping handler *)

(** The callbacks of a wrapping handler, whatever it wraps: the same
    callback of the wrapped handler with the same arguments, then
    [delete this]. *)
Lemma WrappingHandler_delegates (fuel : nat) (w : world) (this c : loc)
    (handler status response hostList : ptr) :
  heap w !! this =
    Some (CForwardingHandler (mkHandler c (WrappingHandler handler))) ->
  HandleResponse (S fuel) (addr this) status response w =
    (HandleResponse fuel handler status response >>
     delete_this (addr this)) w /\
  HandleResponseWithHosts (S fuel) (addr this) status response hostList w =
    (HandleResponseWithHosts fuel handler status response hostList >>
     delete_this (addr this)) w.
Proof.
  intros Hthis. split; cbn; unfold bind at 1; unfold load; now rewrite Hthis.
Qed.

(** C8. A delivery to a [WrappingHandler] around a caller's
    [ResponseHandler] makes one call into that handler, through the entry
    point that was used and with the very status, response and host list
    pointers received, and then releases the wrapper (with its share of its
    own container) and nothing else: the wrapped handler and every other
    object, the outcome included, are left as they were. *)
Theorem wrapping_handler_forwards (fuel : nat) (w : world) (this c : loc)
    (n : nat)
    (args : gmap (string * Z) Object) (hdl : loc) (id : N)
    (status response hostList : ptr) :
  heap w !! this =
    Some (CForwardingHandler (mkHandler c (WrappingHandler (addr hdl)))) ->
  heap w !! c = Some (CArgsContainer (S n) args) ->
  heap w !! hdl = Some (CResponseHandler id) ->
  exists h',
    HandleResponseWithHosts (S (S fuel)) (addr this) status response hostList
        w =
      Ok tt (World h' (statics w)
               (trace w ++ EvHandle hdl id status response (Some hostList)
                  :: map EvFree (container_frees c n ++ [this]))) /\
    HandleResponse (S (S fuel)) (addr this) status response w =
      Ok tt (World h' (statics w)
               (trace w ++ EvHandle hdl id status response None
                  :: map EvFree (container_frees c n ++ [this]))) /\
    h' !! this = None /\
    h' !! hdl = Some (CResponseHandler id) /\
    (forall l : loc, l <> this -> l <> c -> h' !! l = heap w !! l).
Proof.
  destruct w as [h sts t]. cbn [heap statics trace]. intros Hthis Hc Hh.
  exists (delete this (release_container c n args h)).
  split; [now apply WrappingHandler_run_hosts|].
  split; [now apply WrappingHandler_run|].
  split; [apply lookup_delete_eq|].
  split.
  - rewrite lookup_delete_ne, release_container_lookup_ne by congruence.
    assumption.
  - intros l Hl Hlc.
    now rewrite lookup_delete_ne, release_container_lookup_ne by congruence.
Qed.

(** ** The base handler *)

(** C9. The callbacks of a plain [ForwardingHandler]: the one with hosts
    deletes the host list and is the plain one from there on; the plain one
    deletes the status, the response and the handler.  No callable and no
    other handler is called. *)
Theorem base_handler_is_terminal (fuel : nat) (w : world) (this c : loc)
    (n : nat)
    (args : gmap (string * Z) Object) (st_l : loc) (st : XRootDStatus)
    (resp : ptr) (rs : list loc) (hl : loc) (hosts : list string) :
  heap w !! this = Some (CForwardingHandler (mkHandler c Base)) ->
  heap w !! c = Some (CArgsContainer (S n) args) ->
  heap w !! st_l = Some (CStatus st) ->
  response_at (heap w) resp rs ->
  heap w !! hl = Some (CHostList hosts) ->
  HandleResponseWithHosts (S (S fuel)) (addr this) (addr st_l) resp (addr hl)
      w =
    (delete_hostList (addr hl) >>
     HandleResponse (S fuel) (addr this) (addr st_l) resp) w /\
  HandleResponseWithHosts (S (S fuel)) (addr this) (addr st_l) resp (addr hl)
      w =
    Ok tt (World (reclaimed (delete hl (heap w)) this c n args st_l rs)
             (statics w)
             (trace w ++ map EvFree (hl :: st_l :: rs
                                     ++ container_frees c n ++ [this]))) /\
  HandleResponse (S fuel) (addr this) (addr st_l) resp w =
    Ok tt (World (reclaimed (heap w) this c n args st_l rs) (statics w)
             (trace w ++ map EvFree (st_l :: rs
                                     ++ container_frees c n ++ [this]))) /\
  (forall tl : list loc,
     calls (trace w ++ map EvFree tl) = calls (trace w) /\
     handled (trace w ++ map EvFree tl) = handled (trace w)).
Proof.
  destruct w as [h sts t]. cbn [heap statics trace]. intros Hthis Hc Hst Hresp Hhl.
  split.
  { apply HandleResponseWithHosts_inherited with (hd := mkHandler c Base);
      [assumption | discriminate]. }
  split.
  { exec; destruct Hresp; exec; destruct n; exec; reflexivity. }
  split.
  { eapply Base_run; eassumption. }
  intros tl. split.
  - rewrite calls_app, calls_frees. apply app_nil_r.
  - unfold handled. rewrite List.filter_app.
    fold (handled (map EvFree tl)). rewrite handled_frees. apply app_nil_r.
Qed.

End Claims.

(** * Further properties of the handlers *)

(** ** Rules for the runs of a computation *)

Lemma bind_Ok_inv {A B} (m : M A) (k : A -> M B) w b w' :
  bind m k w = Ok b w' -> exists a w1, m w = Ok a w1 /\ k a w1 = Ok b w'.
Proof.
  unfold bind. destruct (m w) as [a w1|f]; [eauto | discriminate].
Qed.

Lemma post_bind_r {A B} (Q : world -> Prop) (m : M A) (k : A -> M B) :
  (forall a, post Q (k a)) -> post Q (bind m k).
Proof.
  intros Hk w b w' Hrun.
  apply bind_Ok_inv in Hrun as (a & w1 & _ & Hrun). eapply Hk, Hrun.
Qed.

Lemma post_seq {A B} (Q : world -> Prop) (m : M A) (k : A -> M B) :
  post Q m -> (forall a, preserves Q (k a)) -> post Q (bind m k).
Proof.
  intros Hm Hk w b w' Hrun.
  apply bind_Ok_inv in Hrun as (a & w1 & Hm1 & Hrun).
  eapply Hk; [exact Hrun|]. eapply Hm, Hm1.
Qed.

Lemma preserves_bind {A B} (Q : world -> Prop) (m : M A) (k : A -> M B) :
  preserves Q m -> (forall a, preserves Q (k a)) -> preserves Q (bind m k).
Proof.
  intros Hm Hk w b w' Hrun HQ.
  apply bind_Ok_inv in Hrun as (a & w1 & Hm1 & Hrun).
  eapply Hk; [exact Hrun|]. eapply Hm; eassumption.
Qed.

Lemma invokes_bind {A B} (cs cs1 cs2 : list (callable * ptr)) (m : M A)
    (k : A -> M B) :
  invokes cs1 m -> (forall a, invokes cs2 (k a)) -> cs = cs1 ++ cs2 ->
  invokes cs (bind m k).
Proof.
  intros Hm Hk -> w b w' Hrun.
  apply bind_Ok_inv in Hrun as (a & w1 & Hm1 & Hrun).
  destruct (Hm _ _ _ Hm1) as (n1 & Ht1 & Hc1 & Hh1).
  destruct (Hk _ _ _ _ Hrun) as (n2 & Ht2 & Hc2 & Hh2).
  exists (n1 ++ n2). split; [|split].
  - now rewrite Ht2, Ht1, app_assoc.
  - unfold invoked in *. now rewrite omap_app, Hc1, Hc2.
  - unfold handled in *. now rewrite List.filter_app, Hh1, Hh2.
Qed.

Lemma invokes_ret {A} (a : A) : invokes [] (ret a).
Proof.
  intros w a' w' [= <- <-]. exists []. now rewrite app_nil_r.
Qed.

Lemma invokes_raise {A} cs (f : fault) : invokes cs (@raise A f).
Proof. intros w a w' Hrun. discriminate. Qed.

(** A step that leaves the trace alone, or adds one event that is neither a
    call nor a hand-over to a caller's handler. *)
Lemma invokes_silent {A} (m : M A) :
  (forall w a w', m w = Ok a w' -> trace w' = trace w) -> invokes [] m.
Proof.
  intros Hm w a w' Hrun. exists []. rewrite app_nil_r. eauto.
Qed.

Lemma invokes_load l : invokes [] (load l).
Proof.
  apply invokes_silent. intros w a w'. unfold load.
  destruct (heap w !! l); [intros [= _ <-]; reflexivity | discriminate].
Qed.

Lemma invokes_store l c : invokes [] (store l c).
Proof. apply invokes_silent. now intros w a w' [= _ <-]. Qed.

Lemma invokes_alloc c : invokes [] (alloc c).
Proof. apply invokes_silent. now intros w a w' [= _ <-]. Qed.

Lemma invokes_free l : invokes [] (free l).
Proof. intros w a w' [= _ <-]. now exists [EvFree l]. Qed.

Lemma invokes_deref p : invokes [] (deref p).
Proof.
  destruct p; [apply invokes_raise | apply invokes_load |].
  apply invokes_silent. now intros w a w' [= _ <-].
Qed.

Ltac invokes_step :=
  first
    [ apply invokes_ret | apply invokes_raise | apply invokes_load
    | apply invokes_store | apply invokes_alloc | apply invokes_free
    | apply invokes_deref
    | assumption
    | eapply invokes_bind; [ invokes_step | intros ?; invokes_step | reflexivity ]
    | match goal with
      | |- invokes _ (match ?x with _ => _ end) => destruct x; invokes_step
      end ].

Lemma invokes_read_status p : invokes [] (read_status p).
Proof. unfold read_status. invokes_step. Qed.

Lemma invokes_read_AnyObject p : invokes [] (read_AnyObject p).
Proof. unfold read_AnyObject. invokes_step. Qed.

Lemma invokes_read_Object p : invokes [] (read_Object p).
Proof. unfold read_Object. invokes_step. Qed.

Lemma invokes_read_File l : invokes [] (read_File l).
Proof. unfold read_File. invokes_step. Qed.

Lemma invokes_read_handler p : invokes [] (read_handler p).
Proof. unfold read_handler. invokes_step. Qed.

Lemma invokes_delete (dtor : cell -> M unit) p :
  (forall c, invokes [] (dtor c)) -> invokes [] (delete_ dtor p).
Proof.
  intros Hd. destruct p as [|l|s]; cbn [delete_]; try invokes_step.
  eapply invokes_bind with (cs1 := []) (cs2 := []);
    [apply invokes_load | intros c | reflexivity].
  eapply invokes_bind with (cs1 := []) (cs2 := []);
    [apply Hd | intros _; apply invokes_free | reflexivity].
Qed.

Lemma invokes_delete_status p : invokes [] (delete_status p).
Proof.
  apply invokes_delete. intros c. unfold XRootDStatus_dtor. invokes_step.
Qed.

Lemma invokes_delete_hostList p : invokes [] (delete_hostList p).
Proof.
  apply invokes_delete. intros c. unfold HostList_dtor. invokes_step.
Qed.

Lemma invokes_delete_info p : invokes [] (delete_info p).
Proof.
  apply invokes_delete. intros c. unfold Object_dtor. invokes_step.
Qed.

Lemma invokes_delete_response p : invokes [] (delete_response p).
Proof.
  apply invokes_delete. intros c. unfold AnyObject_dtor.
  destruct c; try apply invokes_raise. apply invokes_delete_info.
Qed.

Lemma invokes_shared_ptr_copy c : invokes [] (shared_ptr_copy c).
Proof. unfold shared_ptr_copy. invokes_step. Qed.

Lemma invokes_shared_ptr_release c : invokes [] (shared_ptr_release c).
Proof. unfold shared_ptr_release. invokes_step. Qed.

Lemma invokes_promise_set prms r : invokes [] (promise_set prms r).
Proof. unfold promise_set. invokes_step. Qed.

Lemma invokes_promise_dtor prms : invokes [] (promise_dtor prms).
Proof. unfold promise_dtor. invokes_step. Qed.

Lemma invokes_OperationContext_reset p :
  invokes [] (OperationContext_reset p).
Proof.
  apply invokes_delete. intros c. unfold OperationContext_dtor.
  destruct c; try apply invokes_raise. apply invokes_shared_ptr_release.
Qed.

Lemma invokes_File_Stat f force info : invokes [] (File_Stat f force info).
Proof.
  unfold File_Stat.
  eapply invokes_bind; [apply invokes_read_File | intros file | reflexivity].
  eapply invokes_bind with (cs1 := []) (cs2 := []); [| intros _ |reflexivity].
  - intros w a w' [= _ <-]. now exists [EvStat f force].
  - invokes_step.
Qed.

Lemma invokes_invoke fn status response context :
  invokes [(fn, status)] (invoke fn status response context).
Proof.
  intros w a w' Hrun. unfold invoke in Hrun.
  apply bind_Ok_inv in Hrun as (u1 & w1 & Hlog & Hrun).
  apply bind_Ok_inv in Hrun as (u2 & w2 & Has & Hrun).
  injection Hlog as _ <-.
  assert (Ht2 : trace w2 = trace w ++
            [EvCall fn (status, peek_status w status)
               (option_map (fun p => (p, peek_Object w p)) response)
               (option_map (fun p => (p, peek_context w p)) context)]).
  { unfold assign_status in Has.
    repeat case_match; injection Has as _ <-; reflexivity. }
  assert (Ht' : trace w' = trace w2).
  { destruct response as [p|]; [|now injection Hrun as _ <-].
    unfold assign_Object in Hrun.
    repeat case_match; injection Hrun as _ <-; reflexivity. }
  eexists. split; [rewrite Ht', Ht2; reflexivity|]. split; reflexivity.
Qed.

Section Runs.

Context {codes : StatusCodes}.

Lemma invokes_delete_this p : invokes [] (delete_this p).
Proof.
  apply invokes_delete. intros c. unfold ForwardingHandler_dtor.
  destruct c; try apply invokes_raise.
  eapply invokes_bind with (cs1 := []) (cs2 := []);
    [| intros _; apply invokes_shared_ptr_release | reflexivity].
  destruct (dyn h); try apply invokes_ret.
  eapply invokes_bind with (cs1 := []) (cs2 := []);
    [| intros _; apply invokes_promise_dtor | reflexivity].
  unfold FutureWrapperBase_dtor, SetException.
  destruct (negb called); [apply invokes_promise_set | apply invokes_ret].
Qed.

Lemma invokes_GetOperationContext p : invokes [] (GetOperationContext p).
Proof.
  unfold GetOperationContext.
  eapply invokes_bind; [apply invokes_read_handler | intros h | reflexivity].
  eapply invokes_bind with (cs1 := []) (cs2 := []);
    [apply invokes_shared_ptr_copy | intros _ | reflexivity].
  invokes_step.
Qed.

Lemma invokes_set_called p : invokes [] (set_called p).
Proof.
  unfold set_called.
  eapply invokes_bind; [apply invokes_read_handler | intros h | reflexivity].
  invokes_step.
Qed.

(** Composition over the primitives of the header. *)
Ltac invokes_body :=
  first
    [ apply invokes_ret | apply invokes_raise
    | apply invokes_read_status | apply invokes_read_AnyObject
    | apply invokes_read_Object | apply invokes_read_handler
    | apply invokes_delete_status | apply invokes_delete_response
    | apply invokes_delete_info | apply invokes_delete_this
    | apply invokes_GetOperationContext | apply invokes_OperationContext_reset
    | apply invokes_File_Stat | apply invokes_invoke
    | apply invokes_promise_set | apply invokes_set_called
    | eapply invokes_bind; [ invokes_body | intros ?; invokes_body | reflexivity ]
    | match goal with
      | |- invokes _ (match ?x with _ => _ end) => destruct x; invokes_body
      end ].

(** What each kind of handler calls in a delivery that completes. *)
Lemma invokes_plain_body (k : kind) this status response :
  invokes (match stored_callable k with
           | Some fn => [(fn, status)]
           | None => []
           end)
    (plain_body k this status response).
Proof.
  destruct k as [| | | | | | | |[R|] prms done];
    cbn [stored_callable plain_body].
  all: unfold ForwardingHandler_HandleResponse,
         SimpleFunctionWrapper_HandleResponse, FunctionWrapper_HandleResponse,
         SimpleForwardingFunctionWrapper_HandleResponse,
         ForwardingFunctionWrapper_HandleResponse,
         ExOpenFuncWrapper_HandleResponse,
         ForwardingExOpenFuncWrapper_HandleResponse,
         FutureWrapper_HandleResponse, FutureWrapper_void_HandleResponse,
         SetException.
  all: invokes_body.
Qed.

(** Virtual dispatch on a handler that wraps no other. *)
Lemma HandleResponse_plain n this hd status response w :
  heap w !! this = Some (CForwardingHandler hd) ->
  is_wrapping (dyn hd) = false ->
  HandleResponse (S n) (addr this) status response w =
    plain_body (dyn hd) (addr this) status response w.
Proof.
  intros Hthis Hk. cbn [HandleResponse deref]. unfold bind at 1, load.
  rewrite Hthis. destruct (dyn hd) as [| | | | | | | |[R|] prms done];
    try discriminate; reflexivity.
Qed.

End Runs.

(** ** What a run leaves alone *)

Lemma preserves_ret {A} (Q : world -> Prop) (a : A) : preserves Q (ret a).
Proof. now intros w a' w' [= _ <-]. Qed.

Lemma preserves_raise {A} (Q : world -> Prop) (f : fault) :
  preserves Q (@raise A f).
Proof. intros w a w' Hrun. discriminate. Qed.

Lemma preserves_load (Q : world -> Prop) l : preserves Q (load l).
Proof.
  intros w a w'. unfold load.
  destruct (heap w !! l); [now intros [= _ <-] | discriminate].
Qed.

Lemma preserves_deref (Q : world -> Prop) p : preserves Q (deref p).
Proof.
  destruct p; [apply preserves_raise | apply preserves_load |].
  now intros w a w' [= _ <-].
Qed.

Lemma preserves_delete (Q : world -> Prop) (dtor : cell -> M unit) p :
  (forall c, preserves Q (dtor c)) -> (forall l, preserves Q (free l)) ->
  preserves Q (delete_ dtor p).
Proof.
  intros Hd Hf. destruct p as [|l|s]; cbn [delete_].
  - apply preserves_ret.
  - apply preserves_bind; [apply preserves_load | intros c].
    apply preserves_bind; [apply Hd | intros _; apply Hf].
  - apply preserves_raise.
Qed.

Create HintDb frame discriminated.

#[local] Hint Resolve preserves_bind preserves_ret preserves_raise
  preserves_load preserves_deref : frame.
#[local] Hint Extern 3 (preserves _ (match ?x with _ => _ end)) =>
  destruct x : frame.
#[local] Hint Extern 1 (preserves _ (read_status _)) =>
  unfold read_status : frame.
#[local] Hint Extern 1 (preserves _ (read_AnyObject _)) =>
  unfold read_AnyObject : frame.
#[local] Hint Extern 1 (preserves _ (read_Object _)) =>
  unfold read_Object : frame.
#[local] Hint Extern 1 (preserves _ (read_File _)) =>
  unfold read_File : frame.
#[local] Hint Extern 1 (preserves _ (read_handler _)) =>
  unfold read_handler : frame.

(** *** Addresses that stay unused: nothing but an allocation brings an
    address into use. *)

Lemma absent_free l l' : preserves (absent l) (free l').
Proof.
  intros w a w' [= _ <-] Hl. unfold absent in *. cbn.
  destruct (decide (l = l')) as [->|]; [apply lookup_delete_eq|].
  now rewrite lookup_delete_ne.
Qed.

Lemma absent_log l e : preserves (absent l) (log e).
Proof. now intros w a w' [= _ <-]. Qed.

(** The steps that write to a cell they have just read. *)
Ltac run_cases Hrun :=
  repeat (unfold bind, load, store, free, ret, raise in Hrun; cbn in Hrun);
  repeat (case_match; simplify_eq; try discriminate);
  simplify_eq.

Ltac absent_cases :=
  let Hrun := fresh "Hrun" in
  intros ? ? ? Hrun ?; unfold absent in *; run_cases Hrun; cbn;
  repeat first
    [ assumption
    | rewrite lookup_insert_ne by congruence
    | rewrite lookup_delete_ne by congruence
    | apply lookup_delete_eq ].

Lemma absent_shared_ptr_copy l c : preserves (absent l) (shared_ptr_copy c).
Proof. unfold shared_ptr_copy. absent_cases. Qed.

Lemma absent_shared_ptr_release l c :
  preserves (absent l) (shared_ptr_release c).
Proof. unfold shared_ptr_release. absent_cases. Qed.

Lemma absent_promise_set l prms r : preserves (absent l) (promise_set prms r).
Proof. unfold promise_set. absent_cases. Qed.

Lemma absent_promise_dtor l prms : preserves (absent l) (promise_dtor prms).
Proof. unfold promise_dtor. absent_cases. Qed.

Lemma absent_assign_status l p new : preserves (absent l) (assign_status p new).
Proof. unfold assign_status, peek_status. absent_cases. Qed.

Lemma absent_assign_Object l p new : preserves (absent l) (assign_Object p new).
Proof. unfold assign_Object, peek_Object. absent_cases. Qed.

Lemma absent_set_called l p : preserves (absent l) (set_called p).
Proof. unfold set_called, read_handler, deref. absent_cases. Qed.

#[local] Hint Resolve absent_free absent_log absent_shared_ptr_copy
  absent_shared_ptr_release absent_promise_set absent_promise_dtor
  absent_assign_status absent_assign_Object absent_set_called : frame.

Lemma absent_delete_status l p : preserves (absent l) (delete_status p).
Proof.
  apply preserves_delete; [intros c; unfold XRootDStatus_dtor|];
    auto with frame.
Qed.

Lemma absent_delete_hostList l p : preserves (absent l) (delete_hostList p).
Proof.
  apply preserves_delete; [intros c; unfold HostList_dtor|]; auto with frame.
Qed.

Lemma absent_delete_info l p : preserves (absent l) (delete_info p).
Proof.
  apply preserves_delete; [intros c; unfold Object_dtor|]; auto with frame.
Qed.

Lemma absent_delete_response l p : preserves (absent l) (delete_response p).
Proof.
  apply preserves_delete; [intros c; unfold AnyObject_dtor|];
    auto using absent_delete_info with frame.
Qed.

Lemma absent_OperationContext_reset l p :
  preserves (absent l) (OperationContext_reset p).
Proof.
  apply preserves_delete; [intros c; unfold OperationContext_dtor|];
    auto with frame.
Qed.

Lemma absent_delete_this {codes : StatusCodes} l p :
  preserves (absent l) (delete_this p).
Proof.
  apply preserves_delete; [intros c|]; auto with frame.
  unfold ForwardingHandler_dtor, FutureWrapperBase_dtor, SetException.
  auto 8 with frame.
Qed.

#[local] Hint Resolve absent_delete_status absent_delete_hostList
  absent_delete_info absent_delete_response absent_OperationContext_reset
  absent_delete_this : frame.

(** What [delete] leaves behind. *)
Lemma post_delete (dtor : cell -> M unit) l :
  post (absent l) (delete_ dtor (addr l)).
Proof.
  intros w a w' Hrun. cbn [delete_] in Hrun.
  apply bind_Ok_inv in Hrun as (c & w1 & _ & Hrun).
  apply bind_Ok_inv in Hrun as (u & w2 & _ & Hrun).
  injection Hrun as _ <-. apply lookup_delete_eq.
Qed.

(** *** Cells that the disposal of an outcome leaves alone *)

(** Lookups in a store that was written to. *)
Ltac lookups :=
  repeat match goal with
  | |- context [<[?a := _]> _ !! ?b] =>
      destruct (decide (a = b)) as [->|];
      [rewrite lookup_insert_eq | rewrite lookup_insert_ne by assumption]
  | |- context [delete ?a _ !! ?b] =>
      destruct (decide (a = b)) as [->|];
      [rewrite lookup_delete_eq | rewrite lookup_delete_ne by assumption]
  end.

Ltac cell_cases :=
  let Hrun := fresh "Hrun" in
  let Hl := fresh "Hl" in
  intros ? ? ? Hrun Hl; unfold cell_at in *; run_cases Hrun;
  cbn [heap statics trace];
  repeat match goal with
  | |- context [fresh (dom ?m)] =>
      pose proof (fresh_lookup m); generalize dependent (fresh (dom m)); intros
  end;
  lookups; simplify_eq; try assumption; try congruence;
  try match goal with H : structural _ |- _ => destruct H end.

Lemma cell_at_log l x e : preserves (cell_at l x) (log e).
Proof. now intros w a w' [= _ <-]. Qed.

Lemma cell_at_alloc l x c : preserves (cell_at l x) (alloc c).
Proof. unfold alloc. cell_cases. Qed.

Lemma cell_at_assign_status l x p new :
  structural x -> preserves (cell_at l x) (assign_status p new).
Proof. intros Hx. unfold assign_status, peek_status. cell_cases. Qed.

Lemma cell_at_assign_Object l x p new :
  structural x -> preserves (cell_at l x) (assign_Object p new).
Proof. intros Hx. unfold assign_Object, peek_Object. cell_cases. Qed.

Lemma cell_at_delete_status l x p :
  structural x -> preserves (cell_at l x) (delete_status p).
Proof.
  intros Hx. unfold delete_status, delete_, XRootDStatus_dtor. cell_cases.
Qed.

Lemma cell_at_delete_hostList l x p :
  structural x -> preserves (cell_at l x) (delete_hostList p).
Proof.
  intros Hx. unfold delete_hostList, delete_, HostList_dtor. cell_cases.
Qed.

Lemma cell_at_delete_info l x p :
  structural x -> preserves (cell_at l x) (delete_info p).
Proof.
  intros Hx. unfold delete_info, delete_, Object_dtor. cell_cases.
Qed.

Lemma cell_at_delete_response l x p :
  structural x -> preserves (cell_at l x) (delete_response p).
Proof.
  intros Hx. unfold delete_response, delete_, AnyObject_dtor, delete_,
    Object_dtor.
  cell_cases.
Qed.

Lemma cell_at_promise_set l x prms r :
  structural x -> preserves (cell_at l x) (promise_set prms r).
Proof. intros Hx. unfold promise_set. cell_cases. Qed.

Lemma cell_at_promise_dtor l x prms :
  structural x -> preserves (cell_at l x) (promise_dtor prms).
Proof. intros Hx. unfold promise_dtor. cell_cases. Qed.

Lemma cell_at_shared_ptr_copy l x c :
  (forall n args, x <> CArgsContainer n args) ->
  preserves (cell_at l x) (shared_ptr_copy c).
Proof.
  intros Hx. unfold shared_ptr_copy. cell_cases.
Qed.

Lemma cell_at_shared_ptr_release l x c :
  (forall n args, x <> CArgsContainer n args) ->
  preserves (cell_at l x) (shared_ptr_release c).
Proof.
  intros Hx. unfold shared_ptr_release. cell_cases.
Qed.

Lemma cell_at_delete l x (dtor : cell -> M unit) p :
  (forall c, preserves (cell_at l x) (dtor c)) ->
  (forall w a w', dtor x w <> Ok a w') ->
  preserves (cell_at l x) (delete_ dtor p).
Proof.
  intros Hd Hx w a w' Hrun Hl. destruct p as [|l'|s]; cbn [delete_] in Hrun.
  - injection Hrun as _ <-. exact Hl.
  - apply bind_Ok_inv in Hrun as (c & w1 & Hload & Hrun).
    apply bind_Ok_inv in Hrun as ([] & w2 & Hdtor & Hrun).
    unfold load in Hload. destruct (heap w !! l') eqn:Hl'; [|discriminate].
    injection Hload as -> <-. injection Hrun as _ <-.
    assert (l' <> l).
    { intros ->. unfold cell_at in Hl. assert (c = x) as -> by congruence.
      now apply Hx in Hdtor. }
    unfold cell_at. cbn [heap]. rewrite lookup_delete_ne by assumption.
    eapply Hd; eassumption.
  - discriminate.
Qed.

#[local] Hint Resolve cell_at_log cell_at_alloc cell_at_assign_status
  cell_at_assign_Object cell_at_delete_status cell_at_delete_hostList
  cell_at_delete_info cell_at_delete_response cell_at_promise_set
  cell_at_promise_dtor cell_at_shared_ptr_copy cell_at_shared_ptr_release
  : frame.

(** Destroying a handler leaves alone what is neither a handler, nor a
    container, nor the state of a promise. *)
Lemma cell_at_delete_this {codes : StatusCodes} l x p :
  structural x ->
  (forall h, x <> CForwardingHandler h) ->
  (forall n args, x <> CArgsContainer n args) ->
  preserves (cell_at l x) (delete_this p).
Proof.
  intros Hs Hh Hc. apply cell_at_delete.
  - intros c. unfold ForwardingHandler_dtor, FutureWrapperBase_dtor,
      SetException.
    auto 8 with frame.
  - intros w a w'. unfold ForwardingHandler_dtor.
    destruct x; try discriminate. now destruct (Hh h).
Qed.

(** *** The placeholders: no step of the layer writes to one, only a
    callable that assigns through its response reference does. *)

Lemma statics_store s l c : preserves (statics_are s) (store l c).
Proof. now intros w a w' [= _ <-]. Qed.

Lemma statics_alloc s c : preserves (statics_are s) (alloc c).
Proof. now intros w a w' [= _ <-]. Qed.

Lemma statics_free s l : preserves (statics_are s) (free l).
Proof. now intros w a w' [= _ <-]. Qed.

Lemma statics_log s e : preserves (statics_are s) (log e).
Proof. now intros w a w' [= _ <-]. Qed.

Lemma statics_assign_status s p new :
  preserves (statics_are s) (assign_status p new).
Proof.
  intros w a w' Hrun Hs. unfold assign_status in Hrun.
  repeat case_match; now injection Hrun as _ <-.
Qed.

Lemma statics_invoke s fn status response context :
  keeps_response fn ->
  preserves (statics_are s) (invoke fn status response context).
Proof.
  intros Hfn w a w' Hrun Hs. unfold invoke in Hrun.
  apply bind_Ok_inv in Hrun as (u1 & w1 & Hlog & Hrun).
  apply bind_Ok_inv in Hrun as (u2 & w2 & Has & Hrun).
  pose proof (statics_log s _ _ _ _ Hlog Hs) as H1.
  pose proof (statics_assign_status s _ _ _ _ _ Has H1) as H2.
  destruct response as [p|]; [|now injection Hrun as _ <-].
  rewrite Hfn in Hrun. unfold assign_Object in Hrun.
  repeat case_match; now injection Hrun as _ <-.
Qed.

#[local] Hint Resolve statics_store statics_alloc statics_free statics_log
  statics_assign_status statics_invoke : frame.

Create HintDb ops.

#[local] Hint Unfold read_status read_AnyObject read_Object read_File
  read_handler delete_ delete_status delete_hostList delete_info
  delete_response delete_this XRootDStatus_dtor HostList_dtor Object_dtor
  AnyObject_dtor shared_ptr_copy shared_ptr_release promise_set promise_dtor
  SetException FutureWrapperBase_dtor ForwardingHandler_dtor
  GetOperationContext OperationContext_dtor OperationContext_reset
  File_Stat set_called : ops.

Lemma statics_delete_hostList s p :
  preserves (statics_are s) (delete_hostList p).
Proof. autounfold with ops. auto 12 with frame. Qed.

(** ** Handlers that wrap no other *)

(** The tail of a body: from [delete p] on, nothing is allocated. *)
Ltac post_tail :=
  first
    [ apply post_delete
    | apply post_seq; [ apply post_delete | intros ?; solve [auto 8 with frame] ]
    | apply post_bind_r; intros ?; post_tail ].

Ltac plain_bodies :=
  unfold plain_body, ForwardingHandler_HandleResponse,
    SimpleFunctionWrapper_HandleResponse, FunctionWrapper_HandleResponse,
    SimpleForwardingFunctionWrapper_HandleResponse,
    ForwardingFunctionWrapper_HandleResponse,
    ExOpenFuncWrapper_HandleResponse,
    ForwardingExOpenFuncWrapper_HandleResponse,
    FutureWrapper_HandleResponse, FutureWrapper_void_HandleResponse,
    SetException.

Section Consumption.

Context {codes : StatusCodes}.

Lemma plain_body_consumes_handler (k : kind) this status response :
  post (absent this) (plain_body k (addr this) status response).
Proof.
  destruct k as [| | | | | | | |[R|] prms done]; plain_bodies;
    first [post_tail | intros w a w' Hrun; discriminate].
Qed.

Lemma plain_body_releases_status (k : kind) this st response :
  post (absent st) (plain_body k this (addr st) response).
Proof.
  destruct k as [| | | | | | | |[R|] prms done]; plain_bodies;
    first [post_tail | intros w a w' Hrun; discriminate].
Qed.

Lemma plain_body_releases_response (k : kind) this status rs :
  post (absent rs) (plain_body k this status (addr rs)).
Proof.
  destruct k as [| | | | | | | |[R|] prms done]; plain_bodies;
    first [post_tail | intros w a w' Hrun; discriminate].
Qed.

(** The inherited [HandleResponseWithHosts]: the host list goes, then the
    handler's own [HandleResponse] runs. *)
Lemma HandleResponseWithHosts_plain fuel this hd status response hl w w' :
  heap w !! this = Some (CForwardingHandler hd) ->
  is_wrapping (dyn hd) = false ->
  HandleResponseWithHosts fuel (addr this) status response hl w = Ok tt w' ->
  exists n w1,
    fuel = S n /\
    delete_hostList hl w = Ok tt w1 /\
    heap w1 !! this = Some (CForwardingHandler hd) /\
    HandleResponse n (addr this) status response w1 = Ok tt w'.
Proof.
  intros Hthis Hk Hrun. destruct fuel as [|n]; [discriminate|].
  exists n. cbn [HandleResponseWithHosts deref] in Hrun.
  unfold bind at 1, load in Hrun. rewrite Hthis in Hrun.
  assert (Hbody : ForwardingHandler_HandleResponseWithHosts (HandleResponse n)
                    (addr this) status response hl w = Ok tt w').
  { destruct (dyn hd); try discriminate; exact Hrun. }
  apply bind_Ok_inv in Hbody as ([] & w1 & Hdel & Hbody).
  exists w1. repeat split; try assumption.
  eapply (cell_at_delete_hostList this); [exact I | exact Hdel | exact Hthis].
Qed.

(** A delivery that completes on a handler that wraps no other: it is the
    handler's body, run from the world in which the host list, if one came
    along, is gone. *)
Lemma deliver_plain fuel this hd status response hostList w w' :
  heap w !! this = Some (CForwardingHandler hd) ->
  is_wrapping (dyn hd) = false ->
  deliver fuel (addr this) status response hostList w = Ok tt w' ->
  exists w1 new,
    trace w1 = trace w ++ new /\ invoked new = [] /\ handled new = [] /\
    (forall l x, structural x -> cell_at l x w -> cell_at l x w1) /\
    statics w1 = statics w /\
    plain_body (dyn hd) (addr this) status response w1 = Ok tt w'.
Proof.
  intros Hthis Hk Hrun. destruct hostList as [hl|]; cbn [deliver] in Hrun.
  - destruct (HandleResponseWithHosts_plain _ _ _ _ _ _ _ _ Hthis Hk Hrun)
      as (n & w1 & -> & Hdel & Hthis1 & Hrun1).
    destruct n as [|n]; [discriminate|].
    rewrite (HandleResponse_plain _ _ _ _ _ _ Hthis1 Hk) in Hrun1.
    destruct (invokes_delete_hostList hl _ _ _ Hdel) as (new & Ht & Hi & Hh).
    exists w1, new. repeat split; try assumption.
    + intros l x Hx Hl. eapply cell_at_delete_hostList; eassumption.
    + eapply statics_delete_hostList; [exact Hdel | reflexivity].
  - destruct fuel as [|n]; [discriminate|].
    rewrite (HandleResponse_plain _ _ _ _ _ _ Hthis Hk) in Hrun.
    exists w, []. rewrite app_nil_r. repeat split; auto.
Qed.

Lemma plain_body_keeps_placeholders (k : kind) s this status response :
  (forall fn, stored_callable k = Some fn -> keeps_response fn) ->
  preserves (statics_are s) (plain_body k this status response).
Proof.
  intros Hfn.
  destruct k as [| | | | | | | |[R|] prms done]; plain_bodies;
    try pose proof (Hfn _ eq_refl); autounfold with ops;
    auto 40 with frame.
Qed.

End Consumption.

(** ** The shares of the forwarding container *)


Lemma cell_at_invoke l x fn status response context :
  structural x -> preserves (cell_at l x) (invoke fn status response context).
Proof.
  intros Hx w a w' Hrun Hl. unfold invoke in Hrun.
  apply bind_Ok_inv in Hrun as (u1 & w1 & Hlog & Hrun).
  apply bind_Ok_inv in Hrun as (u2 & w2 & Has & Hrun).
  pose proof (cell_at_log l x _ _ _ _ Hlog Hl) as H1.
  pose proof (cell_at_assign_status l x _ _ Hx _ _ _ Has H1) as H2.
  destruct response as [p|]; [|now injection Hrun as _ <-].
  eapply cell_at_assign_Object; eassumption.
Qed.

Lemma cell_at_File_Stat l x f force info :
  structural x -> preserves (cell_at l x) (File_Stat f force info).
Proof. intros Hx. unfold File_Stat. auto 8 with frame. Qed.

#[local] Hint Resolve cell_at_invoke cell_at_File_Stat : frame.


Section Shares.

Context {codes : StatusCodes}.















End Shares.

(** ** Deliveries in general *)

Section Deliveries.

Context {codes : StatusCodes}.

(** X1. A handler is used up by the delivery it receives: whichever
    callback is called on whichever kind of handler, a delivery that
    completes has destroyed the handler, and a further delivery to the same
    address is a use after free. *)
Theorem delivery_consumes_handler fuel this hd status response hostList w w' :
  heap w !! this = Some (CForwardingHandler hd) ->
  deliver fuel (addr this) status response hostList w = Ok tt w' ->
  heap w' !! this = None /\
  forall fuel' s r hl,
    deliver (S fuel') (addr this) s r hl w' = Fault DanglingPointer.
Proof.
  intros Hthis Hrun.
  assert (Hgone : heap w' !! this = None).
  { destruct (is_wrapping (dyn hd)) eqn:Hk.
    - destruct fuel as [|n]; [destruct hostList; discriminate|].
      destruct (dyn hd) as [|handler| | | | | | |] eqn:Hdyn; try discriminate.
      destruct hostList as [hl|]; cbn [deliver] in Hrun.
      + cbn [HandleResponseWithHosts deref] in Hrun.
        unfold bind at 1, load in Hrun. rewrite Hthis, Hdyn in Hrun.
        unfold WrappingHandler_HandleResponseWithHosts in Hrun.
        eapply (post_bind_r (absent this)); [|exact Hrun].
        intros ?. apply post_delete.
      + cbn [HandleResponse deref] in Hrun.
        unfold bind at 1, load in Hrun. rewrite Hthis, Hdyn in Hrun.
        unfold WrappingHandler_HandleResponse in Hrun.
        eapply (post_bind_r (absent this)); [|exact Hrun].
        intros ?. apply post_delete.
    - destruct (deliver_plain _ _ _ _ _ _ _ _ Hthis Hk Hrun)
        as (w1 & new & _ & _ & _ & _ & _ & Hbody).
      eapply plain_body_consumes_handler, Hbody. }
  split; [exact Hgone|]. intros fuel' s r [hl|]; cbn.
  all: unfold bind, load; now rewrite Hgone.
Qed.

(** X2. A delivery that completes on a handler holding a callable has called
    that callable exactly once, on the status it was handed, and has called
    nothing else; on the base handler and on a future wrapper nothing is
    called at all.  This holds for both callbacks and for either outcome. *)
Theorem delivery_calls_once fuel this hd status response hostList w w' :
  heap w !! this = Some (CForwardingHandler hd) ->
  is_wrapping (dyn hd) = false ->
  deliver fuel (addr this) status response hostList w = Ok tt w' ->
  exists new,
    trace w' = trace w ++ new /\
    invoked new = match stored_callable (dyn hd) with
                  | Some fn => [(fn, status)]
                  | None => []
                  end /\
    handled new = [].
Proof.
  intros Hthis Hk Hrun.
  destruct (deliver_plain _ _ _ _ _ _ _ _ Hthis Hk Hrun)
    as (w1 & new1 & Ht1 & Hi1 & Hh1 & _ & _ & Hbody).
  destruct (invokes_plain_body _ _ _ _ _ _ _ Hbody) as (new2 & Ht2 & Hi2 & Hh2).
  exists (new1 ++ new2). split; [|split].
  - now rewrite Ht2, Ht1, app_assoc.
  - unfold invoked in *. now rewrite omap_app, Hi1, Hi2.
  - unfold handled in *. now rewrite List.filter_app, Hh1, Hh2.
Qed.

(** X3. A delivery that completes on a handler that wraps no other has
    released the outcome: neither the status nor the response object is
    left in the store, whatever the outcome was and whatever the callable
    did. *)
Theorem delivery_releases_outcome fuel this hd status response hostList l
    w w' :
  heap w !! this = Some (CForwardingHandler hd) ->
  is_wrapping (dyn hd) = false ->
  status = addr l \/ response = addr l ->
  deliver fuel (addr this) status response hostList w = Ok tt w' ->
  heap w' !! l = None.
Proof.
  intros Hthis Hk Hl Hrun.
  destruct (deliver_plain _ _ _ _ _ _ _ _ Hthis Hk Hrun)
    as (w1 & new & _ & _ & _ & _ & _ & Hbody).
  destruct Hl as [-> | ->].
  - eapply plain_body_releases_status, Hbody.
  - eapply plain_body_releases_response, Hbody.
Qed.


(** X5. The layer itself never writes to a placeholder: when the callable
    leaves the response it is handed alone, and on the handlers that hold
    no callable, a delivery that completes leaves every placeholder as it
    was. *)
Theorem delivery_keeps_placeholders fuel this hd status response hostList w w' :
  heap w !! this = Some (CForwardingHandler hd) ->
  is_wrapping (dyn hd) = false ->
  (forall fn, stored_callable (dyn hd) = Some fn -> keeps_response fn) ->
  deliver fuel (addr this) status response hostList w = Ok tt w' ->
  statics w' = statics w.
Proof.
  intros Hthis Hk Hfn Hrun.
  destruct (deliver_plain _ _ _ _ _ _ _ _ Hthis Hk Hrun)
    as (w1 & new & _ & _ & _ & _ & Hs & Hbody).
  eapply plain_body_keeps_placeholders; eassumption.
Qed.

(** X6. However many wrapping handlers are stacked on a caller's handler,
    a delivery that completes hands the outcome over to that handler exactly
    once, through the callback that was called and with the pointers it was
    called with, calls no callable, and leaves the caller's handler in the
    store. *)
Theorem wrapped_chain_hands_over_once depth :
  forall fuel this status response hostList tgt id w w',
  wrapped_sink depth (heap w) (addr this) = Some (tgt, id) ->
  deliver fuel (addr this) status response hostList w = Ok tt w' ->
  exists new,
    trace w' = trace w ++ new /\
    handled new = [EvHandle tgt id status response hostList] /\
    invoked new = [] /\
    heap w' !! tgt = Some (CResponseHandler id).
Proof.
  induction depth as [|d IH]; [discriminate|].
  intros fuel this status response hostList tgt id w w' Hsink Hrun.
  cbn [wrapped_sink] in Hsink.
  destruct (heap w !! this) as [x|] eqn:Hthis; [|discriminate].
  destruct fuel as [|n]; [destruct hostList; discriminate|].
  destruct x as [s|a|hs|o|f|uc args|c|ss|ft|id0|h]; try discriminate.
  - (* the caller's handler itself *)
    injection Hsink as Htgt Hid. subst tgt id.
    exists [EvHandle this id0 status response hostList].
    destruct hostList as [hl|]; cbn [deliver] in Hrun.
    + cbn [HandleResponseWithHosts deref] in Hrun.
      unfold bind, load in Hrun. rewrite Hthis in Hrun.
      injection Hrun as <-. auto.
    + cbn [HandleResponse deref] in Hrun.
      unfold bind, load in Hrun. rewrite Hthis in Hrun.
      injection Hrun as <-. auto.
  - (* a wrapping handler *)
    destruct (dyn h) as [|q| | | | | | |] eqn:Hdyn; try discriminate.
    destruct q as [|l|s]; try (destruct d; discriminate).
    assert (Hbody : (deliver n (addr l) status response hostList >>
                     delete_this (addr this)) w = Ok tt w').
    { destruct hostList as [hl|]; cbn [deliver] in Hrun |- *.
      - cbn [HandleResponseWithHosts deref] in Hrun.
        unfold bind at 1, load in Hrun. rewrite Hthis, Hdyn in Hrun.
        exact Hrun.
      - cbn [HandleResponse deref] in Hrun.
        unfold bind at 1, load in Hrun. rewrite Hthis, Hdyn in Hrun.
        exact Hrun. }
    apply bind_Ok_inv in Hbody as ([] & w1 & Hinner & Hdel).
    destruct (IH _ _ _ _ _ _ _ _ _ Hsink Hinner)
      as (new1 & Ht1 & Hh1 & Hi1 & Htgt).
    destruct (invokes_delete_this _ _ _ _ Hdel) as (new2 & Ht2 & Hi2 & Hh2).
    exists (new1 ++ new2). repeat split.
    + now rewrite Ht2, Ht1, app_assoc.
    + unfold handled in *. now rewrite List.filter_app, Hh1, Hh2.
    + unfold invoked in *. now rewrite omap_app, Hi1, Hi2.
    + eapply (cell_at_delete_this tgt); [exact I | discriminate | discriminate
                                        | exact Hdel | exact Htgt].
Qed.

(** X7. On every handler that wraps no other, the inherited
    [HandleResponseWithHosts] disposes of the host list before anything
    else happens: the release of the host list is the first event of the
    delivery, ahead of the call of the callable. *)
Theorem hosts_released_first fuel this hd status response hl w w' :
  heap w !! this = Some (CForwardingHandler hd) ->
  is_wrapping (dyn hd) = false ->
  deliver fuel (addr this) status response (Some (addr hl)) w = Ok tt w' ->
  exists rest,
    trace w' = trace w ++ EvFree hl :: rest /\
    invoked rest = match stored_callable (dyn hd) with
                   | Some fn => [(fn, status)]
                   | None => []
                   end.
Proof.
  intros Hthis Hk Hrun. cbn [deliver] in Hrun.
  destruct (HandleResponseWithHosts_plain _ _ _ _ _ _ _ _ Hthis Hk Hrun)
    as (n & w1 & -> & Hdel & Hthis1 & Hrun1).
  destruct n as [|n]; [discriminate|].
  rewrite (HandleResponse_plain _ _ _ _ _ _ Hthis1 Hk) in Hrun1.
  destruct (invokes_plain_body _ _ _ _ _ _ _ Hrun1) as (rest & Ht & Hi & _).
  exists rest. split; [|exact Hi].
  unfold delete_hostList in Hdel. cbn [delete_] in Hdel.
  apply bind_Ok_inv in Hdel as (c & w2 & Hload & Hdel).
  apply bind_Ok_inv in Hdel as ([] & w3 & Hdtor & Hdel).
  unfold load in Hload. destruct (heap w !! hl); [|discriminate].
  injection Hload as -> <-. unfold HostList_dtor in Hdtor.
  destruct c; try discriminate. injection Hdtor as <-.
  injection Hdel as <-. rewrite Ht. cbn [trace].
  now rewrite <- app_assoc.
Qed.

End Deliveries.

(** * The theorems at work on the scenarios *)

#[local] Existing Instance example_codes.

Lemma callable_dispatch_success_witness :
  exists this w1 w2 ctx tl,
    Create (Some "int") (function_status_response "int" (scribbler 5)) (outcome_world ok_status) =
      Ok (addr this) w1 /\
    HandleResponse 1 (addr this) (addr 1%positive) (addr 3%positive) w1 =
      Ok tt w2 /\
    trace w2 =
      trace (outcome_world ok_status)
      ++ EvCall (scribbler 5) (addr 1%positive, Some ok_status)
           (response_arg (function_status_response "int" (scribbler 5)) 2%positive int_42) ctx
         :: map EvFree tl /\
    calls (trace w2) =
      calls (trace (outcome_world ok_status))
      ++ [EvCall (scribbler 5) (addr 1%positive, Some ok_status)
            (response_arg (function_status_response "int" (scribbler 5)) 2%positive int_42) ctx] /\
    (is_Some ctx <-> takes_context (function_status_response "int" (scribbler 5)) = true) /\
    (1%positive ∈ tl /\ 2%positive ∈ tl /\ 3%positive ∈ tl /\ this ∈ tl) /\
    heap w2 = free_list [1%positive; 2%positive; 3%positive]
                (heap (outcome_world ok_status)) /\
    statics w2 = statics (outcome_world ok_status).
Proof.
  apply (callable_dispatch_success 0 (outcome_world ok_status)
           (function_status_response "int" (scribbler 5)) (scribbler 5) 1%positive ok_status
           3%positive 2%positive "int" int_42).
  - reflexivity.
  - vm_compute; reflexivity.
  - reflexivity.
  - vm_compute; reflexivity.
  - vm_compute; reflexivity.
  - intros T' HT'. injection HT' as <-. reflexivity.
Defined.

Lemma failure_passes_nullref_witness :
  exists s w' ctx tl,
    nullref_of (FunctionWrapper "int" (scribbler 5)) = Some s /\
    HandleResponse 1 (addr 10%positive) (addr 1%positive) (addr 3%positive)
      (adapter_world (FunctionWrapper "int" (scribbler 5)) failed_status) = Ok tt w' /\
    trace w' =
      trace (adapter_world (FunctionWrapper "int" (scribbler 5)) failed_status)
      ++ EvCall (scribbler 5) (addr 1%positive, Some failed_status)
           (Some (static_addr s,
                  Some (static_value
                          (statics (adapter_world
                                      (FunctionWrapper "int" (scribbler 5))
                                      failed_status)) s))) ctx
         :: map EvFree tl /\
    type_name (static_value
                 (statics (adapter_world (FunctionWrapper "int" (scribbler 5))
                             failed_status)) s) = "int" /\
    (statics (adapter_world (FunctionWrapper "int" (scribbler 5)) failed_status)
       !! s = None ->
     static_value
       (statics (adapter_world (FunctionWrapper "int" (scribbler 5))
                   failed_status)) s = mkObject "int" DefaultConstructed) /\
    static_addr s <> nullptr /\
    (forall o, o ∈ [2%positive; 3%positive] -> static_addr s <> addr o).
Proof.
  apply (failure_passes_nullref 0
           (adapter_world (FunctionWrapper "int" (scribbler 5)) failed_status)
           10%positive 11%positive 0 ∅ (FunctionWrapper "int" (scribbler 5)) "int"
           (scribbler 5)
           1%positive failed_status (addr 3%positive)
           [2%positive; 3%positive]).
  - left; reflexivity.
  - vm_compute; reflexivity.
  - vm_compute; reflexivity.
  - vm_compute; reflexivity.
  - reflexivity.
  - apply response_holding with (T := "int"%string) (obj := int_42);
      vm_compute; reflexivity.
Defined.

Lemma abandoned_future_is_released_witness :
  future_get (future_world None ok_status) 13%positive = Blocks /\
  exists w',
    delete_this (addr 10%positive) (future_world None ok_status) = Ok tt w' /\
    heap w' !! 10%positive = None /\
    heap w' !! 12%positive =
      Some (CSharedState
              (Exception
                 (PipelineException
                    (XRootDStatus_ctor stError errPipelineFailed)))) /\
    future_get w' 13%positive =
      Throws (PipelineException
                (XRootDStatus_ctor stError errPipelineFailed)).
Proof.
  apply (abandoned_future_is_released None (future_world None ok_status)
           10%positive 11%positive 0 ∅ 12%positive 13%positive);
    vm_compute; reflexivity.
Defined.

Lemma future_delivery_witness :
  (IsOK failed_status = false ->
   future_resolved 0 (future_world None failed_status) 10%positive 1%positive
     (addr 3%positive) [2%positive; 3%positive] 12%positive 13%positive
     (Exception (PipelineException failed_status))
     (Throws (PipelineException failed_status))) /\
  (IsOK failed_status = true -> @None string = None ->
   future_resolved 0 (future_world None failed_status) 10%positive 1%positive
     (addr 3%positive) [2%positive; 3%positive] 12%positive 13%positive
     (Value None) (Returns None)) /\
  (IsOK failed_status = true ->
   forall T r o obj,
     @None string = Some T -> addr 3%positive = addr r ->
     heap (future_world None failed_status) !! r =
       Some (CAnyObject (mkAnyObject (addr o) T)) ->
     heap (future_world None failed_status) !! o = Some (CObject obj) ->
     future_resolved 0 (future_world None failed_status) 10%positive 1%positive
       (addr 3%positive) [2%positive; 3%positive] 12%positive 13%positive
       (Value (Some obj)) (Returns (Some obj))).
Proof.
  apply (future_delivery 0 (future_world None failed_status) 10%positive
           11%positive 0 ∅ None 12%positive 13%positive false 1%positive
           failed_status (addr 3%positive) [2%positive; 3%positive]).
  - vm_compute; reflexivity.
  - vm_compute; reflexivity.
  - vm_compute; reflexivity.
  - vm_compute; reflexivity.
  - vm_compute; reflexivity.
  - apply response_holding with (T := "int"%string) (obj := int_42);
      vm_compute; reflexivity.
Defined.

Lemma open_stat_fetch_witness :
  (IsOK ok_status = false ->
   exists s w' new ctx,
     nullref_of (ExOpenFuncWrapper 14%positive (onlooker 9)) = Some s /\
     HandleResponse 1 (addr 10%positive) (addr 1%positive) (addr 3%positive)
       (open_world (ExOpenFuncWrapper 14%positive (onlooker 9))
          (mkFile ok_status (Some (Data [4096%Z]))) ok_status) = Ok tt w' /\
     trace w' =
       trace (open_world (ExOpenFuncWrapper 14%positive (onlooker 9))
                (mkFile ok_status (Some (Data [4096%Z]))) ok_status) ++ new /\
     stats new = [] /\
     calls new = [EvCall (onlooker 9) (addr 1%positive, Some ok_status)
                    (Some (static_addr s,
                           Some (static_value
                                   (statics
                                      (open_world
                                         (ExOpenFuncWrapper 14%positive
                                            (onlooker 9))
                                         (mkFile ok_status
                                            (Some (Data [4096%Z])))
                                         ok_status)) s))) ctx]) /\
  (IsOK ok_status = true ->
   forall file,
     heap (open_world (ExOpenFuncWrapper 14%positive (onlooker 9))
             (mkFile ok_status (Some (Data [4096%Z]))) ok_status)
       !! 14%positive = Some (CFile file) ->
   exists x w' new ctx,
     heap (open_world (ExOpenFuncWrapper 14%positive (onlooker 9))
             (mkFile ok_status (Some (Data [4096%Z]))) ok_status) !! x = None /\
     HandleResponse 1 (addr 10%positive) (addr 1%positive) (addr 3%positive)
       (open_world (ExOpenFuncWrapper 14%positive (onlooker 9))
          (mkFile ok_status (Some (Data [4096%Z]))) ok_status) = Ok tt w' /\
     trace w' =
       trace (open_world (ExOpenFuncWrapper 14%positive (onlooker 9))
                (mkFile ok_status (Some (Data [4096%Z]))) ok_status) ++ new /\
     stats new = [EvStat 14%positive false] /\
     calls new = [EvCall (onlooker 9) (addr 1%positive, Some ok_status)
                    (Some (stat_result x file)) ctx] /\
     (forall d, stat_info file = Some d ->
        stat_result x file = (addr x, Some (mkObject StatInfo_name d)) /\
        (exists rest, frees new = x :: rest /\ x ∉ rest) /\
        heap w' !! x = None)).
Proof.
  apply (open_stat_fetch 0
           (open_world (ExOpenFuncWrapper 14%positive (onlooker 9))
              (mkFile ok_status (Some (Data [4096%Z]))) ok_status)
           10%positive 11%positive 0 ∅ (ExOpenFuncWrapper 14%positive (onlooker 9))
           14%positive (onlooker 9) 1%positive ok_status (addr 3%positive)
           [2%positive; 3%positive]).
  - left; reflexivity.
  - vm_compute; reflexivity.
  - vm_compute; reflexivity.
  - vm_compute; reflexivity.
  - apply response_holding with (T := "int"%string) (obj := int_42);
      vm_compute; reflexivity.
Defined.

Lemma open_status_ignores_stat_status_witness :
  exists x w' new ctx,
    heap (open_world (ForwardingExOpenFuncWrapper 14%positive (onlooker 9))
            (mkFile failed_status None) ok_status) !! x = None /\
    HandleResponse 1 (addr 10%positive) (addr 1%positive) (addr 3%positive)
      (open_world (ForwardingExOpenFuncWrapper 14%positive (onlooker 9))
         (mkFile failed_status None) ok_status) = Ok tt w' /\
    trace w' =
      trace (open_world (ForwardingExOpenFuncWrapper 14%positive (onlooker 9))
               (mkFile failed_status None) ok_status) ++ new /\
    calls new = [EvCall (onlooker 9) (addr 1%positive, Some ok_status)
                   (Some (match stat_info (mkFile failed_status None) with
                          | Some d => (addr x, Some (mkObject StatInfo_name d))
                          | None => (nullptr, None)
                          end)) ctx].
Proof.
  apply (open_status_ignores_stat_status 0
           (open_world (ForwardingExOpenFuncWrapper 14%positive (onlooker 9))
              (mkFile failed_status None) ok_status)
           10%positive 11%positive 0 ∅
           (ForwardingExOpenFuncWrapper 14%positive (onlooker 9)) 14%positive
           (onlooker 9)
           1%positive ok_status (addr 3%positive) [2%positive; 3%positive]
           (mkFile failed_status None)).
  - right; reflexivity.
  - vm_compute; reflexivity.
  - vm_compute; reflexivity.
  - vm_compute; reflexivity.
  - vm_compute; reflexivity.
  - reflexivity.
  - apply response_holding with (T := "int"%string) (obj := int_42);
      vm_compute; reflexivity.
Defined.

Lemma forwarded_argument_roundtrip_witness :
  exists w1,
    FwdArg (addr 10%positive) "int" int_42 1
      (adapter_world Base ok_status) = Ok tt w1 /\
    ArgsContainer_GetArg 11%positive "int" 1 w1 = Ok int_42 w1 /\
    (forall ctx : loc,
       heap w1 !! ctx = Some (COperationContext 11%positive) ->
       OperationContext_GetArg (addr ctx) "int" 1 w1 = Ok int_42 w1) /\
    (forall (next : loc) (hd' : ForwardingHandler),
       heap w1 !! next = Some (CForwardingHandler hd') ->
       container hd' = 11%positive ->
       exists w2,
         (let* ctx := GetOperationContext (addr next) in
          OperationContext_GetArg ctx "int" 1) w1 = Ok int_42 w2) /\
    (forall (T' : string) (bucket' : Z),
       (T', bucket') <> ("int"%string, 1%Z) ->
       (∅ : gmap (string * Z) Object) !! (T', bucket') = None ->
       ArgsContainer_GetArg 11%positive T' bucket' w1 = Fault MissingKey /\
       forall ctx : loc,
         heap w1 !! ctx = Some (COperationContext 11%positive) ->
         OperationContext_GetArg (addr ctx) T' bucket' w1 = Fault MissingKey).
Proof.
  apply (forwarded_argument_roundtrip (adapter_world Base ok_status)
           10%positive (mkHandler 11%positive Base) 1 ∅ "int" int_42 1);
    vm_compute; reflexivity.
Defined.

Lemma wrapping_handler_forwards_witness :
  exists h',
    HandleResponseWithHosts 2 (addr 10%positive) (addr 1%positive)
      (addr 3%positive) (addr 16%positive) (wrapping_world ok_status) =
      Ok tt (World h' (statics (wrapping_world ok_status))
               (trace (wrapping_world ok_status)
                ++ EvHandle 15%positive 1%N (addr 1%positive) (addr 3%positive)
                     (Some (addr 16%positive))
                   :: map EvFree (container_frees 11%positive 0 ++ [10%positive]))) /\
    HandleResponse 2 (addr 10%positive) (addr 1%positive) (addr 3%positive)
      (wrapping_world ok_status) =
      Ok tt (World h' (statics (wrapping_world ok_status))
               (trace (wrapping_world ok_status)
                ++ EvHandle 15%positive 1%N (addr 1%positive) (addr 3%positive)
                     None
                   :: map EvFree (container_frees 11%positive 0 ++ [10%positive]))) /\
    h' !! 10%positive = None /\
    h' !! 15%positive = Some (CResponseHandler 1) /\
    (forall l : loc, l <> 10%positive -> l <> 11%positive ->
       h' !! l = heap (wrapping_world ok_status) !! l).
Proof.
  apply (wrapping_handler_forwards 0 (wrapping_world ok_status) 10%positive
           11%positive 0 ∅ 15%positive 1%N (addr 1%positive) (addr 3%positive)
           (addr 16%positive));
    vm_compute; reflexivity.
Defined.

Lemma base_handler_is_terminal_witness :
  HandleResponseWithHosts 2 (addr 10%positive) (addr 1%positive)
    (addr 3%positive) (addr 16%positive)
    (World (<[16%positive := CHostList ["host"]]>
              (heap (adapter_world Base failed_status))) ∅ []) =
    Ok tt (World ∅ ∅
             (map EvFree [16%positive; 1%positive; 2%positive; 3%positive;
                          11%positive; 10%positive])).
Proof.
  pose proof (base_handler_is_terminal 0
                (World (<[16%positive := CHostList ["host"]]>
                          (heap (adapter_world Base failed_status))) ∅ [])
                10%positive 11%positive 0 ∅ 1%positive failed_status
                (addr 3%positive) [2%positive; 3%positive] 16%positive
                ["host"]) as Hbase.
  destruct Hbase as (_ & Hrun & _).
  - vm_compute; reflexivity.
  - vm_compute; reflexivity.
  - vm_compute; reflexivity.
  - apply response_holding with (T := "int"%string) (obj := int_42);
      vm_compute; reflexivity.
  - vm_compute; reflexivity.
  - rewrite Hrun. vm_compute. reflexivity.
Defined.

(** ** The scenarios, run *)

(** A future wrapper for an operation without response is delivered the
    failure outcome carrying code 7: the waiter sees an error carrying
    code 7. *)
Example future_void_failure_code_7 :
  match HandleResponse 1 (addr 10%positive) (addr 1%positive) (addr 3%positive)
          (future_world None failed_status) with
  | Ok _ w' =>
      match future_get w' 13%positive with
      | Throws e => option_map code (GetError e)
      | _ => None
      end
  | Fault _ => None
  end = Some 7%Z.
Proof. vm_compute. reflexivity. Qed.

(** Stage A forwards the integer 42 in bucket 1 (the default); stage B,
    whose handler shares the container, looks it up through its context. *)
Example forward_42_bucket_1 :
  match
    (FwdArg_default (addr 10%positive) "int" int_42 >>
     let* ctx := GetOperationContext (addr 20%positive) in
     OperationContext_GetArg ctx "int" 1)
      (World (<[20%positive := CForwardingHandler
                                  (mkHandler 11%positive
                                     (SimpleForwardingFunctionWrapper (onlooker 6)))]>
                (<[11%positive := CArgsContainer 2 ∅]>
                   (heap (adapter_world Base ok_status)))) ∅ [])
  with
  | Ok v _ => Some v
  | Fault _ => None
  end = Some int_42.
Proof. vm_compute. reflexivity. Qed.

(** A plain handler object is dispatched and delivered a success: its
    callback fires once and the adapter is gone. *)
Example object_sink_scenario :
  match
    (let* h := Create (Some "int") (ResponseHandler_ptr (addr 15%positive)) in
     HandleResponseWithHosts 2 h (addr 1%positive) (addr 3%positive)
       (addr 16%positive) >>
     ret h)
      (World (<[16%positive := CHostList ["host"]]>
                (<[15%positive := CResponseHandler 1]>
                   (outcome_cells ok_status))) ∅ [])
  with
  | Ok (addr l) w' => Some (handled (trace w'), heap w' !! l)
  | _ => None
  end =
  Some ([EvHandle 15%positive 1%N (addr 1%positive) (addr 3%positive)
           (Some (addr 16%positive))], None).
Proof. vm_compute. reflexivity. Qed.

(** Two [FunctionWrapper<int>] instances with different callables are each
    delivered a failure: both callables are handed the same static, and
    what the first one wrote to it is what the second one finds there. *)
Example placeholder_is_shared :
  match
    (HandleResponse 1 (addr 10%positive) (addr 1%positive) nullptr >>
     HandleResponse 1 (addr 20%positive) (addr 4%positive) nullptr)
      (World (<[21%positive := CArgsContainer 1 ∅]>
                (<[20%positive := CForwardingHandler
                                    (mkHandler 21%positive
                                       (FunctionWrapper "int" (onlooker 6)))]>
                   (<[4%positive := CStatus failed_status]>
                      (heap (adapter_world (FunctionWrapper "int" (scribbler 5))
                               failed_status))))) ∅ [])
  with
  | Ok _ w' =>
      Some (omap (fun e => match e with
                           | EvCall fn _ r _ => Some (ident fn, r)
                           | _ => None
                           end) (trace w'))
  | Fault _ => None
  end =
  Some [(5%N, Some (static_addr (FunctionWrapper_nullref "int"),
                    Some (mkObject "int" DefaultConstructed)));
        (6%N, Some (static_addr (FunctionWrapper_nullref "int"),
                    Some (mkObject "int" (Data [13%Z]))))].
Proof. vm_compute. reflexivity. Qed.

(** ** Deliveries in general, on the scenarios *)

Lemma delivery_consumes_handler_witness :
  heap (after (deliver 2 (addr 10%positive) (addr 1%positive)
                 (addr 3%positive) (Some (addr 16%positive)))
          (wrapping_world ok_status)) !! 10%positive = None /\
  forall fuel' s r hl,
    deliver (S fuel') (addr 10%positive) s r hl
      (after (deliver 2 (addr 10%positive) (addr 1%positive)
                (addr 3%positive) (Some (addr 16%positive)))
         (wrapping_world ok_status)) = Fault DanglingPointer.
Proof.
  apply (delivery_consumes_handler 2 10%positive
           (mkHandler 11%positive (WrappingHandler (addr 15%positive)))
           (addr 1%positive) (addr 3%positive) (Some (addr 16%positive))
           (wrapping_world ok_status)).
  - vm_compute; reflexivity.
  - vm_compute; reflexivity.
Defined.

Lemma delivery_calls_once_witness :
  exists new,
    trace (after (deliver 2 (addr 10%positive) (addr 1%positive)
                    (addr 3%positive) (Some (addr 16%positive)))
             (hosted_world (ForwardingFunctionWrapper "int" (scribbler 5))
                failed_status)) =
      trace (hosted_world (ForwardingFunctionWrapper "int" (scribbler 5))
               failed_status) ++ new /\
    invoked new = [(scribbler 5, addr 1%positive)] /\
    handled new = [].
Proof.
  apply (delivery_calls_once 2 10%positive
           (mkHandler 11%positive
              (ForwardingFunctionWrapper "int" (scribbler 5)))
           (addr 1%positive) (addr 3%positive) (Some (addr 16%positive))
           (hosted_world (ForwardingFunctionWrapper "int" (scribbler 5))
              failed_status)).
  - vm_compute; reflexivity.
  - reflexivity.
  - vm_compute; reflexivity.
Defined.

Lemma delivery_releases_outcome_witness :
  heap (after (deliver 1 (addr 10%positive) (addr 1%positive)
                 (addr 3%positive) None)
          (future_world (Some "int"%string) ok_status)) !! 3%positive = None.
Proof.
  apply (delivery_releases_outcome 1 10%positive
           (mkHandler 11%positive
              (FutureWrapper (Some "int"%string) 12%positive false))
           (addr 1%positive) (addr 3%positive) None 3%positive
           (future_world (Some "int"%string) ok_status)).
  - vm_compute; reflexivity.
  - reflexivity.
  - right; reflexivity.
  - vm_compute; reflexivity.
Defined.


Lemma delivery_keeps_placeholders_witness :
  statics (after (deliver 1 (addr 10%positive) (addr 1%positive)
                    (addr 3%positive) None)
             (adapter_world (FunctionWrapper "int" (onlooker 9))
                failed_status)) =
    statics (adapter_world (FunctionWrapper "int" (onlooker 9))
               failed_status).
Proof.
  apply (delivery_keeps_placeholders 1 10%positive
           (mkHandler 11%positive (FunctionWrapper "int" (onlooker 9)))
           (addr 1%positive) (addr 3%positive) None
           (adapter_world (FunctionWrapper "int" (onlooker 9))
              failed_status)).
  - vm_compute; reflexivity.
  - reflexivity.
  - intros fn Hfn. injection Hfn as <-. intros st o. reflexivity.
  - vm_compute; reflexivity.
Defined.

Lemma wrapped_chain_hands_over_once_witness :
  exists new,
    trace (after (deliver 3 (addr 20%positive) (addr 1%positive)
                    (addr 3%positive) (Some (addr 16%positive)))
             (stacked_world ok_status)) =
      trace (stacked_world ok_status) ++ new /\
    handled new =
      [EvHandle 15%positive 1 (addr 1%positive) (addr 3%positive)
         (Some (addr 16%positive))] /\
    invoked new = [] /\
    heap (after (deliver 3 (addr 20%positive) (addr 1%positive)
                   (addr 3%positive) (Some (addr 16%positive)))
            (stacked_world ok_status)) !! 15%positive =
      Some (CResponseHandler 1).
Proof.
  apply (wrapped_chain_hands_over_once 3 3 20%positive (addr 1%positive)
           (addr 3%positive) (Some (addr 16%positive)) 15%positive 1%N
           (stacked_world ok_status)).
  - vm_compute; reflexivity.
  - vm_compute; reflexivity.
Defined.

Lemma hosts_released_first_witness :
  exists rest,
    trace (after (deliver 2 (addr 10%positive) (addr 1%positive)
                    (addr 3%positive) (Some (addr 16%positive)))
             (hosted_world (SimpleFunctionWrapper (onlooker 9)) ok_status)) =
      trace (hosted_world (SimpleFunctionWrapper (onlooker 9)) ok_status)
      ++ EvFree 16%positive :: rest /\
    invoked rest = [(onlooker 9, addr 1%positive)].
Proof.
  apply (hosts_released_first 2 10%positive
           (mkHandler 11%positive (SimpleFunctionWrapper (onlooker 9)))
           (addr 1%positive) (addr 3%positive) 16%positive
           (hosted_world (SimpleFunctionWrapper (onlooker 9)) ok_status)).
  - vm_compute; reflexivity.
  - reflexivity.
  - vm_compute; reflexivity.
Defined.

(** * The macaroon tool *)

Module MacaroonFacts.

Import Macaroon.

#[local] Open Scope py_scope.

Lemma silent_bind f {A B} (m : P A) (k : A -> P B) :
  silent f m -> (forall a, silent f (k a)) -> silent f (bind m k).
Proof.
  intros Hm Hk t. unfold bind. destruct (Hm t) as [Hr Ht].
  destruct (m t) as [[a|e] t1]; cbn [fst snd] in *.
  - destruct (Hk a t1) as [Hr1 Ht1]. split; [exact Hr1|]. now rewrite Ht1.
  - split; assumption.
Qed.

Lemma silent_ret f {A} (a : A) : silent f (ret a).
Proof. intros t. split; reflexivity. Qed.

Lemma silent_raise f {A} (e : raised) : silent f (@raise A (Raised e)).
Proof. intros t. split; reflexivity. Qed.

Lemma silent_library f {A} (r : A + raised) : silent f (library r).
Proof. destruct r; [apply silent_ret | apply silent_raise]. Qed.

Lemma silent_emit f (e : io) : f e = false -> silent f (emit e).
Proof.
  intros He t. split; [reflexivity|]. unfold emit. cbn [snd].
  rewrite List.filter_app. cbn [List.filter]. rewrite He. apply app_nil_r.
Qed.

(** The statement [print >> sys.stderr, ...] ends whatever it is part of. *)
Lemma silent_print_rshift_stderr f {B} (k : unit -> P B) :
  silent f (bind print_rshift_stderr k).
Proof. intros t. split; reflexivity. Qed.

Lemma silent_join f sep l : silent f (join sep l).
Proof. destruct l; [apply silent_ret | apply silent_raise]. Qed.

Lemma silent_contains f key v : silent f (contains key v).
Proof. destruct v; first [apply silent_ret | apply silent_raise]. Qed.

Lemma silent_getitem f v key : silent f (getitem v key).
Proof.
  destruct v; try apply silent_raise. cbn [getitem].
  destruct (member key members); [apply silent_ret | apply silent_raise].
Qed.

Lemma silent_print_unicode f env s :
  f (Stdout s) = false -> silent f (print_unicode env s).
Proof.
  intros Hf. unfold print_unicode. destruct (encodes env s);
    [now apply silent_emit | apply silent_raise].
Qed.

Lemma silent_print_stderr_unicode f env s :
  f (Stderr s) = false -> silent f (print_stderr_unicode env s).
Proof.
  intros Hf. unfold print_stderr_unicode. destruct (encodes env s);
    [now apply silent_emit | apply silent_raise].
Qed.

Create HintDb py.

#[local] Hint Resolve silent_bind silent_ret silent_raise silent_library
  silent_print_rshift_stderr silent_join silent_contains silent_getitem : py.
#[local] Hint Extern 1 (silent _ (emit _)) =>
  apply silent_emit; reflexivity : py.
#[local] Hint Extern 1 (silent _ (print _)) =>
  apply silent_emit; reflexivity : py.
#[local] Hint Extern 1 (silent _ (print_stderr _)) =>
  apply silent_emit; reflexivity : py.
#[local] Hint Extern 1 (silent _ (print_unicode _ _)) =>
  apply silent_print_unicode; reflexivity : py.
#[local] Hint Extern 1 (silent _ (print_stderr_unicode _ _)) =>
  apply silent_print_stderr_unicode; reflexivity : py.
#[local] Hint Extern 3 (silent _ (match ?x with _ => _ end)) =>
  destruct x : py.

(** The discovery sends nothing but its one GET. *)
Lemma silent_get_token_endpoint f env issuer :
  (forall u, f (Get u) = false) -> silent f (get_token_endpoint env issuer).
Proof.
  intros Hf. unfold get_token_endpoint.
  assert (forall u, silent f (emit (Get u))) by
    (intros u; apply silent_emit, Hf).
  auto 20 with py.
Qed.

Lemma quiet_generate_token_oauth env url validity activity :
  silent is_macaroon_request (generate_token_oauth env url validity activity).
Proof.
  unfold generate_token_oauth.
  assert (forall issuer,
            silent is_macaroon_request (get_token_endpoint env issuer)) by
    (intros issuer; now apply silent_get_token_endpoint).
  auto 30 with py.
Qed.

(** X8. [get_token_endpoint] never raises [NoTokenEndpoint]: both [raise]
    statements come after a [print >> sys.stderr, ...], which under
    [print_function] raises [TypeError] first. *)
Theorem get_token_endpoint_never_signals env issuer t :
  is_NoTokenEndpoint (fst (get_token_endpoint env issuer t)) = false.
Proof.
  pose proof (silent_get_token_endpoint (fun _ => false) env issuer) as Hs.
  destruct (Hs (fun _ => eq_refl) t) as [Hr _]. exact Hr.
Qed.

(** X9. [main] never falls back to [generate_token]: no run of the tool,
    in any environment, asks an issuer for a macaroon. *)
Theorem main_never_requests_a_macaroon env t :
  List.filter is_macaroon_request (snd (main env t)) =
    List.filter is_macaroon_request t.
Proof.
  assert (Hq : silent is_macaroon_request (main env)); [|apply Hq].
  unfold main. apply silent_bind; [apply silent_library|]. intros args.
  apply silent_bind; [|intros token; now apply silent_print_unicode].
  intros t0. unfold try_except_NoTokenEndpoint.
  destruct (quiet_generate_token_oauth env (url args) (validity args)
              (activity args) t0) as [Hr Ht].
  destruct (generate_token_oauth env (url args) (validity args)
              (activity args) t0) as [[a|[|e]] t1]; cbn [fst snd] in *;
    try discriminate; split; auto.
Qed.

Lemma bind_Return_inv {A B} (m : P A) (k : A -> P B) t b t' :
  bind m k t = (Return b, t') ->
  exists a t1, m t = (Return a, t1) /\ k a t1 = (Return b, t').
Proof.
  unfold bind. destruct (m t) as [[a|e] t1]; [eauto | discriminate].
Qed.

Lemma library_Return_inv {A} (r : A + raised) t a t' :
  library r t = (Return a, t') -> r = inl a /\ t' = t.
Proof. destruct r; cbn; [now intros [= -> ->] | discriminate]. Qed.

(** X10. [get_token_endpoint] returns only what a discovery document
    declares: when it returns, the one request it made was answered with
    status 200 and a JSON object, and the result is the [token_endpoint]
    member of that object; every other answer ends in an exception. *)
Theorem get_token_endpoint_returns env issuer t v t' :
  get_token_endpoint env issuer t = (Return v, t') ->
  exists config_url response members,
    t' = t ++ [Get config_url] /\
    requests_get env config_url = inl response /\
    status_code response = 200%Z /\
    json_loads env (text response) = inl (JObject members) /\
    member "token_endpoint" members = Some v.
Proof.
  intros Hrun. unfold get_token_endpoint in Hrun.
  apply bind_Return_inv in Hrun as (pr & t1 & Hpr & Hrun).
  apply library_Return_inv in Hpr as [Hpr ->].
  apply bind_Return_inv in Hrun as (cu & t1 & Hcu & Hrun).
  apply library_Return_inv in Hcu as [Hcu ->].
  apply bind_Return_inv in Hrun as ([] & t1 & Hget & Hrun).
  injection Hget as <-.
  apply bind_Return_inv in Hrun as (resp & t1 & Hresp & Hrun).
  apply library_Return_inv in Hresp as [Hresp ->].
  apply bind_Return_inv in Hrun as (info & t1 & Hinfo & Hrun).
  apply library_Return_inv in Hinfo as [Hinfo ->].
  destruct (status_code resp =? 200)%Z eqn:Hst; [|discriminate].
  cbn [negb] in Hrun.
  apply bind_Return_inv in Hrun as (found & t1 & Hfound & Hrun).
  destruct found; [|discriminate]. cbn [negb] in Hrun.
  destruct info; try discriminate. cbn [getitem] in Hrun.
  destruct (member "token_endpoint" members) eqn:Hm; [|discriminate].
  injection Hrun as -> <-. injection Hfound as _ <-.
  exists cu, resp, members. repeat split; try assumption.
  now apply Z.eqb_eq.
Qed.


(** X11. A discovery that is refused does not make the tool fall back: when
    the discovery request is answered with a status other than 200, or with
    a JSON object that has no [token_endpoint], [get_token_endpoint] ends in
    a [TypeError], and the message meant for the standard error stream is
    never printed. *)
Theorem refused_discovery_is_a_TypeError env issuer pr config_url response v t :
  urlparse_urlparse env issuer = inl pr ->
  urlparse_urlunparse env
    (mkParseResult "https" (netloc pr)
       ("/.well-known/oauth-authorization-server"
        +:+ (if String.eqb (os_path_normpath env (path pr)) "/" then ""
             else os_path_normpath env (path pr)))
       "" "" "") = inl config_url ->
  requests_get env config_url = inl response ->
  json_loads env (text response) = inl v ->
  status_code response <> 200%Z \/
    (exists members, v = JObject members /\ "token_endpoint" ∉ members.*1) ->
  get_token_endpoint env issuer t =
    (Raise (Raised TypeError), t ++ [Get config_url]).
Proof.
  intros Hpr Hcu Hresp Hv Hrefused. unfold get_token_endpoint, bind.
  rewrite Hpr. cbn [library ret]. rewrite Hcu. cbn [library ret emit].
  rewrite Hresp. cbn [library ret]. rewrite Hv. cbn [library ret].
  destruct (status_code response =? 200)%Z eqn:Hst; [|reflexivity].
  apply Z.eqb_eq in Hst. destruct Hrefused as [Hne | (members & -> & Hkey)];
    [contradiction|].
  cbn [negb contains ret]. rewrite bool_decide_eq_false_2 by assumption.
  reflexivity.
Qed.

(** X12. The session presents a bare certificate file only in one case: the
    tool runs as root, [X509_USER_PROXY] is not set, and of the host
    credentials the certificate exists while the key does not.  In every
    other case the session has no certificate or the pair. *)
Theorem bare_certificate_only_for_root env c :
  configure_authenticated_session env = CertFile c ->
  os_geteuid env = 0%Z /\
  os_environ_get env "X509_USER_PROXY" = None /\
  c = "/etc/grid-security/hostcert.pem" /\
  os_path_exists env "/etc/grid-security/hostcert.pem" = true /\
  os_path_exists env "/etc/grid-security/hostkey.pem" = false.
Proof.
  unfold configure_authenticated_session. intros Hc.
  destruct (os_environ_get env "X509_USER_PROXY") as [p|];
    cbv [default from_option id] in Hc.
  - destruct (os_geteuid env =? 0)%Z; cbv beta iota zeta in Hc;
      destruct (os_path_exists env p); discriminate.
  - destruct (os_geteuid env =? 0)%Z eqn:Hroot; cbv beta iota zeta in Hc.
    + apply Z.eqb_eq in Hroot.
      destruct (os_path_exists env "/etc/grid-security/hostkey.pem");
        [discriminate|].
      destruct (os_path_exists env "/etc/grid-security/hostcert.pem");
        [|discriminate].
      injection Hc as <-. auto.
    + destruct (os_path_exists env _); discriminate.
Qed.

(** X13. When [X509_USER_PROXY] is set it decides alone: the user id and the
    host credentials play no part, and the session presents the proxy as
    certificate and key when the file exists and nothing otherwise. *)
Theorem proxy_variable_decides env p :
  os_environ_get env "X509_USER_PROXY" = Some p ->
  configure_authenticated_session env =
    if os_path_exists env p then CertPair p p else CertNone.
Proof.
  intros Hp. unfold configure_authenticated_session. rewrite Hp.
  cbv [default from_option id]. destruct (os_geteuid env =? 0)%Z;
    cbv beta iota zeta;
    destruct (os_path_exists env p); reflexivity.
Qed.





(** X16. What a call of [generate_token] that returns has done: the
    activities were given, it wrote its three lines to the standard error
    stream and none to the standard output, it sent one POST to the URL it
    was handed, with the macaroon content type and the JSON text of the
    caveat [activity:] followed by the activities joined by commas and of
    the validity [PT<minutes>M], the POST was answered with status 200, and
    the result is the body of that answer. *)
Theorem generate_token_returns env url validity activity t token t' :
  generate_token env url validity activity t = (Return token, t') ->
  exists acts data response,
    activity = Some acts /\
    json_dumps env
      (JObject [("caveats",
                 JArray [JString ("activity:" +:+ String.concat "," acts)]);
                ("validity", JString ("PT" +:+ pretty validity +:+ "M"))]) =
      inl data /\
    session_post env (configure_authenticated_session env) (JString url)
      [("Content-Type", "application/macaroon-request")] (Raw data) =
      inl response /\
    status_code response = 200%Z /\
    token = text response /\
    t' = t ++ [Stderr ("Querying " +:+ url +:+ " for new token.");
               Stderr ("Validity: " +:+ ("PT" +:+ pretty validity +:+ "M")
                       +:+ ", activities: " +:+ String.concat ", " acts
                       +:+ ".");
               Post (configure_authenticated_session env) (JString url)
                 [("Content-Type", "application/macaroon-request")]
                 (Raw data);
               Stderr "Successfully generated a new token:"].
Proof.
  intros Hrun. unfold generate_token in Hrun.
  apply bind_Return_inv in Hrun as ([] & t1 & Hq & Hrun).
  injection Hq as <-.
  apply bind_Return_inv in Hrun as (activities & t1 & Hjoin & Hrun).
  destruct activity as [acts|]; [|discriminate].
  injection Hjoin as <- <-.
  apply bind_Return_inv in Hrun as ([] & t1 & Hv & Hrun).
  injection Hv as <-.
  apply bind_Return_inv in Hrun as (caveat & t1 & Hjoin & Hrun).
  injection Hjoin as <- <-.
  apply bind_Return_inv in Hrun as (data & t1 & Hdata & Hrun).
  apply library_Return_inv in Hdata as [Hdata ->].
  apply bind_Return_inv in Hrun as ([] & t1 & Hpost & Hrun).
  injection Hpost as <-.
  apply bind_Return_inv in Hrun as (resp & t1 & Hresp & Hrun).
  apply library_Return_inv in Hresp as [Hresp ->].
  destruct (status_code resp =? 200)%Z eqn:Hst.
  2:{ apply bind_Return_inv in Hrun as (? & ? & _ & Hraise). discriminate. }
  apply bind_Return_inv in Hrun as ([] & t1 & Hsucc & Hret).
  injection Hsucc as <-. injection Hret as <- <-.
  exists acts, data, resp. repeat split; try assumption.
  - now apply Z.eqb_eq.
  - now rewrite <- !app_assoc.
Qed.

(** ** The facts on the concrete environment *)

Lemma get_token_endpoint_returns_witness :
  exists config_url response members,
    [Get "https://se.example/.well-known/oauth-authorization-server"] =
      [] ++ [Get config_url] /\
    requests_get (user_env None (mkResponse 200 "{...}")) config_url =
      inl response /\
    status_code response = 200%Z /\
    json_loads (user_env None (mkResponse 200 "{...}")) (text response) =
      inl (JObject members) /\
    member "token_endpoint" members =
      Some (JString "https://se.example/token").
Proof.
  apply (get_token_endpoint_returns (user_env None (mkResponse 200 "{...}"))
           "https://se.example/" []).
  vm_compute; reflexivity.
Defined.

Lemma refused_discovery_is_a_TypeError_witness :
  get_token_endpoint (user_env None (mkResponse 404 "{...}"))
    "https://se.example/" [] =
    (Raise (Raised TypeError),
     [] ++ [Get "https://se.example/.well-known/oauth-authorization-server"]).
Proof.
  apply (refused_discovery_is_a_TypeError
           (user_env None (mkResponse 404 "{...}")) "https://se.example/"
           (mkParseResult "https" "se.example" "/" "" "" "")
           "https://se.example/.well-known/oauth-authorization-server"
           (mkResponse 404 "{...}") discovery_document []).
  - vm_compute; reflexivity.
  - vm_compute; reflexivity.
  - vm_compute; reflexivity.
  - vm_compute; reflexivity.
  - left. vm_compute. discriminate.
Defined.

Lemma bare_certificate_only_for_root_witness :
  os_geteuid (example_env 0 None ["/etc/grid-security/hostcert.pem"]
                (inr (SystemExit 2)) (mkResponse 200 "")) = 0%Z /\
  os_environ_get (example_env 0 None ["/etc/grid-security/hostcert.pem"]
                    (inr (SystemExit 2)) (mkResponse 200 ""))
    "X509_USER_PROXY" = None /\
  "/etc/grid-security/hostcert.pem" = "/etc/grid-security/hostcert.pem" /\
  os_path_exists (example_env 0 None ["/etc/grid-security/hostcert.pem"]
                    (inr (SystemExit 2)) (mkResponse 200 ""))
    "/etc/grid-security/hostcert.pem" = true /\
  os_path_exists (example_env 0 None ["/etc/grid-security/hostcert.pem"]
                    (inr (SystemExit 2)) (mkResponse 200 ""))
    "/etc/grid-security/hostkey.pem" = false.
Proof.
  apply (bare_certificate_only_for_root
           (example_env 0 None ["/etc/grid-security/hostcert.pem"]
              (inr (SystemExit 2)) (mkResponse 200 ""))).
  vm_compute; reflexivity.
Defined.

Lemma proxy_variable_decides_witness :
  configure_authenticated_session
    (example_env 0 (Some "/home/u/proxy") ["/home/u/proxy"]
       (inr (SystemExit 2)) (mkResponse 200 "")) =
    if os_path_exists
         (example_env 0 (Some "/home/u/proxy") ["/home/u/proxy"]
            (inr (SystemExit 2)) (mkResponse 200 "")) "/home/u/proxy"
    then CertPair "/home/u/proxy" "/home/u/proxy"
    else CertNone.
Proof.
  apply (proxy_variable_decides
           (example_env 0 (Some "/home/u/proxy") ["/home/u/proxy"]
              (inr (SystemExit 2)) (mkResponse 200 ""))).
  vm_compute; reflexivity.
Defined.



Lemma generate_token_returns_witness :
  exists acts data response,
    Some ["UPLOAD"] = Some acts /\
    json_dumps (user_env None (mkResponse 200 ""))
      (JObject [("caveats",
                 JArray [JString ("activity:" +:+ String.concat "," acts)]);
                ("validity", JString ("PT" +:+ pretty 10%Z +:+ "M"))]) =
      inl data /\
    session_post (user_env None (mkResponse 200 ""))
      (configure_authenticated_session (user_env None (mkResponse 200 "")))
      (JString "https://se.example/data/file")
      [("Content-Type", "application/macaroon-request")] (Raw data) =
      inl response /\
    status_code response = 200%Z /\
    "TOKEN" = text response /\
    [Stderr "Querying https://se.example/data/file for new token.";
     Stderr "Validity: PT10M, activities: UPLOAD.";
     Post (CertPair "/tmp/x509up_u1000" "/tmp/x509up_u1000")
       (JString "https://se.example/data/file")
       [("Content-Type", "application/macaroon-request")] (Raw "{}");
     Stderr "Successfully generated a new token:"] =
    [] ++ [Stderr ("Querying " +:+ "https://se.example/data/file"
                   +:+ " for new token.");
           Stderr ("Validity: " +:+ ("PT" +:+ pretty 10%Z +:+ "M")
                   +:+ ", activities: " +:+ String.concat ", " acts
                   +:+ ".");
           Post (configure_authenticated_session
                   (user_env None (mkResponse 200 "")))
             (JString "https://se.example/data/file")
             [("Content-Type", "application/macaroon-request")]
             (Raw data);
           Stderr "Successfully generated a new token:"].
Proof.
  apply (generate_token_returns (user_env None (mkResponse 200 ""))
           "https://se.example/data/file" 10 (Some ["UPLOAD"]) [] "TOKEN").
  vm_compute; reflexivity.
Defined.

(** A run for two activities, line by line. *)
Example token_for_download_and_list :
  main (user_env (Some ["DOWNLOAD"; "LIST"]) (mkResponse 200 "{...}")) [] =
    (Return tt,
     [Get "https://se.example/.well-known/oauth-authorization-server";
      Stdout "Querying https://se.example/token for new token.";
      Post (CertPair "/tmp/x509up_u1000" "/tmp/x509up_u1000")
        (JString "https://se.example/token")
        [("Accept", "application/json")]
        (Form [("grant_type", "client_credentials");
               ("scope", "DOWNLOAD:/data/file LIST:/data/file");
               ("expire_in", "600")]);
      Stdout "Successfully generated a new token:";
      Stdout "TOKEN"]).
Proof. vm_compute; reflexivity. Qed.

End MacaroonFacts.

(** * The init-script library *)

Module InitScriptFacts.

Import InitScript.

(** The text of an exit status is a plain word that reads back as the
    status. *)
Lemma status_words :
  forallb (fun n => negb (String.eqb (pretty n) "") && plain (pretty n)
                    && bool_decide (number (pretty n) = Some n))
    (map N.of_nat (seq 0 256)) = true.
Proof. vm_compute. reflexivity. Qed.

Lemma status_word (n : N) :
  (n < 256)%N ->
  String.eqb (pretty n) "" = false /\ plain (pretty n) = true /\
  number (pretty n) = Some n.
Proof.
  intros Hn. pose proof status_words as Hall.
  rewrite forallb_forall in Hall.
  assert (Hin : In n (map N.of_nat (seq 0 256))).
  { apply in_map_iff. exists (N.to_nat n). split; [apply N2Nat.id|].
    apply in_seq. lia. }
  apply Hall in Hin. apply andb_prop in Hin as [Hin Hnum].
  apply andb_prop in Hin as [Hne Hplain].
  apply negb_true_iff in Hne. apply bool_decide_eq_true in Hnum. auto.
Qed.

Lemma status_fits (n : N) : (n < 256)%N -> (n <? 2 ^ 63)%N = true.
Proof.
  intros Hn. apply N.ltb_lt. eapply N.lt_trans; [exact Hn|].
  now vm_compute.
Qed.

Section Facts.

Context {H : Type} (m : Machine H).

Lemma set_status_lt n (s : shell H) : (status (set_status n s) < 256)%N.
Proof. cbn. apply N.mod_lt. discriminate. Qed.

(** A command named by a variable runs through, and leaves a byte. *)
Lemma invoke_runs argv (s : shell H) :
  exists s', invoke m argv s = (Go tt, s') /\ (status s' < 256)%N.
Proof.
  unfold invoke, call, command.
  destruct (argv s) as [|name args]; [eexists; split; [reflexivity|] |].
  { cbn. apply N.mod_lt. discriminate. }
  repeat case_match; eexists; (split; [reflexivity|]).
  all: first [apply set_status_lt | cbn; apply N.mod_lt; discriminate].
Qed.

Lemma stays_bind {A B} (c : Sh H A) (k : A -> Sh H B) :
  stays c -> (forall a, stays (k a)) -> stays (bind c k).
Proof.
  intros Hc Hk s. unfold bind. specialize (Hc s).
  destruct (c s) as [[a| |] s']; cbn in *; [apply Hk | congruence | discriminate].
Qed.

Lemma stays_go {A} (c : Sh H A) :
  (forall s, exists a s', c s = (Go a, s')) -> stays c.
Proof. intros Hc s. destruct (Hc s) as (a & s' & ->). discriminate. Qed.

Lemma stays_assign x v : stays (assign (H := H) x v).
Proof. apply stays_go. intros s. eexists _, _. reflexivity. Qed.

Lemma stays_command argv : stays (command m argv).
Proof.
  apply stays_go. intros s. unfold command.
  destruct (argv s); eexists _, _; reflexivity.
Qed.

Lemma stays_builtin argv : stays (builtin m argv).
Proof.
  apply stays_go. intros s. unfold builtin.
  destruct (builtin_outcome m (argv s) s). eexists _, _. reflexivity.
Qed.

Lemma stays_substitute argv : stays (substitute m argv).
Proof.
  apply stays_go. intros s. unfold substitute.
  destruct (output m (argv s) s). eexists _, _. reflexivity.
Qed.

Lemma stays_test b : stays (test (H := H) b).
Proof. apply stays_go. intros s. eexists _, _. reflexivity. Qed.

Lemma stays_test_words args : stays (test_words m args).
Proof. apply stays_go. intros s. eexists _, _. reflexivity. Qed.

Lemma stays_test_file args : stays (test_file m args).
Proof. apply stays_go. intros s. eexists _, _. reflexivity. Qed.

Lemma stays_eval_assign x name : stays (eval_assign m x name).
Proof.
  apply stays_go. intros s. unfold eval_assign.
  destruct (identifier _); eexists _, _; reflexivity.
Qed.

Lemma stays_invoke argv : stays (invoke m argv).
Proof.
  apply stays_go. intros s. destruct (invoke_runs argv s) as (s' & -> & _).
  eauto.
Qed.

Lemma stays_continue {A} : stays (continue_ (H := H) (A := A)).
Proof. intros s. discriminate. Qed.

Lemma stays_if_then (c t : Sh H unit) : stays c -> stays t -> stays (if_then c t).
Proof.
  intros Hc Ht. apply stays_bind; [exact Hc|]. intros _ s.
  destruct (status s =? 0)%N; [apply Ht | discriminate].
Qed.

Lemma stays_and_then (a b : Sh H unit) : stays a -> stays b -> stays (and_then a b).
Proof.
  intros Ha Hb. apply stays_bind; [exact Ha|]. intros _ s.
  destruct (status s =? 0)%N; [apply Hb | discriminate].
Qed.

Lemma stays_for_loop x words (body : Sh H unit) :
  stays body -> stays (for_loop x words body).
Proof.
  intros Hb. induction words as [|w rest IH]; intros s; [discriminate|].
  cbn [for_loop]. specialize (Hb (set_var x w s)).
  destruct (body (set_var x w s)) as [[a| |] s']; cbn in *;
    [apply IH | congruence | apply IH].
Qed.

Lemma stays_for x words (body : Sh H unit) : stays body -> stays (for_ x words body).
Proof.
  intros Hb s. unfold for_. destruct (words s); [discriminate|].
  now apply stays_for_loop.
Qed.

Lemma stays_round : stays (round m).
Proof.
  unfold round, instance_options, instance_run, select_binary, assign_output.
  repeat first
    [ apply stays_if_then | apply stays_and_then | apply stays_for
    | apply stays_assign | apply stays_command | apply stays_builtin
    | apply stays_substitute
    | apply stays_test | apply stays_test_words | apply stays_test_file
    | apply stays_eval_assign | apply stays_invoke | apply stays_continue
    | apply stays_bind; [|intros ?] ].
  all: apply stays_go; intros s; eexists _, _; reflexivity.
Qed.

(** The last word of a loop. *)
Lemma for_loop_last x words w (body : Sh H unit) s :
  stays body ->
  for_loop x (words ++ [w]) body s =
    (Go tt, snd (body (set_var x w (snd (for_loop x words body s))))).
Proof.
  intros Hb. revert s. induction words as [|w' rest IH]; intros s.
  - cbn. specialize (Hb (set_var x w s)).
    destruct (body (set_var x w s)) as [[[]| |] s']; cbn in *;
      first [reflexivity | congruence].
  - cbn [app for_loop]. specialize (Hb (set_var x w' s)).
    destruct (body (set_var x w' s)) as [[[]| |] s']; cbn in *;
      first [congruence | apply IH].
Qed.

Lemma bind_go {A B} (c : Sh H A) (k : A -> Sh H B) s a s' :
  c s = (Go a, s') -> bind c k s = k a s'.
Proof. intros Hc. unfold bind. now rewrite Hc. Qed.

(** The round of an instance whose handler was called: [STATUS] holds the
    text of the handler's status, and the branch that would set it to 1 is
    not taken. *)
Lemma instance_run_result (s2 s3 : shell H) :
  invoke m (handler_call m) s2 = (Go tt, s3) ->
  instance_run m s2 =
    (Go tt, mkShell (<["STATUS" := pretty (status s3)]> (vars s3)) 0 (ran s3)
              (host s3)).
Proof.
  intros Hs3. unfold instance_run, bind. rewrite Hs3.
  unfold assign, if_then, and_then, test, bind. cbn. reflexivity.
Qed.

(** X17. The status [handleDaemons] returns is the raw exit status of the
    last instance that was run: after [STATUS=$?] the test [$? -ne 0] looks
    at the status of that assignment, which is 0, so [STATUS] is never set
    to 1 and what the earlier instances returned is forgotten. *)
Theorem last_instance_decides words last s s1 s2 :
  snd (for_loop "INSTANCE" words (round m)
         (snd (assign "STATUS" (fun _ => "0") s))) = s1 ->
  instance_options m (set_var "INSTANCE" last s1) = (Go tt, s2) ->
  status (snd (run_instances m (fun _ => words ++ [last]) s)) =
    status (snd (invoke m (handler_call m) s2)) /\
  get (snd (run_instances m (fun _ => words ++ [last]) s)) "STATUS" =
    pretty (status (snd (invoke m (handler_call m) s2))).
Proof.
  intros Hs1 Hopts.
  destruct (invoke_runs (handler_call m) s2) as (s3 & Hs3 & Hlt).
  rewrite Hs3. cbn [snd].
  destruct (status_word _ Hlt) as (Hne & Hplain & Hnum).
  set (s0 := snd (assign "STATUS" (fun _ => "0") s)) in *.
  set (s4 := mkShell (<["STATUS" := pretty (status s3)]> (vars s3)) 0
               (ran s3) (host s3)).
  assert (Hloop : for_ "INSTANCE" (fun _ => words ++ [last]) (round m) s0 =
                    (Go tt, s4)).
  { unfold for_. destruct (words ++ [last]) as [|w0 ws] eqn:Hws;
      [now destruct words|]. rewrite <- Hws.
    rewrite (for_loop_last _ _ _ _ _ stays_round), Hs1.
    unfold round. rewrite (bind_go _ _ _ tt s2 Hopts).
    now rewrite (instance_run_result _ _ Hs3). }
  assert (Hget : get s4 "STATUS" = pretty (status s3)).
  { unfold get, s4. cbn [vars]. now rewrite lookup_insert_eq. }
  assert (Hrun : run_instances m (fun _ => words ++ [last]) s =
                   (Returned, set_status (status s3) s4)).
  { unfold run_instances.
    rewrite (bind_go _ _ s tt s0) by reflexivity.
    rewrite (bind_go _ _ s0 tt s4 Hloop).
    unfold return_words. rewrite Hget. unfold fields.
    now rewrite Hne, Hplain, Hnum, (status_fits _ Hlt). }
  rewrite Hrun. cbn [snd]. split.
  - cbn. now apply N.mod_small.
  - exact Hget.
Qed.

Lemma bind_returned {A B} (c : Sh H A) (k : A -> Sh H B) s s' :
  c s = (Returned, s') -> bind c k s = (Returned, s').
Proof. intros Hc. unfold bind. now rewrite Hc. Qed.

(** The defaults of the accounts, lines 196-202: they run no command. *)
Lemma default_account x (s : shell H) :
  exists s',
    if_then (test (fun s => String.eqb (get s x) ""))
      (assign x (fun _ => "daemon")) s = (Go tt, s') /\
    ran s' = ran s /\ host s' = host s /\
    forall y, y <> x -> get s' y = get s y.
Proof.
  unfold if_then, test, bind, assign. cbn [set_status status].
  destruct (String.eqb (get s x) ""); cbn.
  - eexists. split; [reflexivity|]. cbn. repeat split.
    intros y Hy. unfold get. cbn. now rewrite lookup_insert_ne.
  - eexists. split; [reflexivity|]. cbn. auto.
Qed.

(** X18. A command [handleDaemons] does not know is rejected before
    anything is done: the function returns 1, and all it ran is the [echo]
    of the complaint. *)
Theorem unrecognized_command_is_rejected args (s : shell H) :
  arg 1 args ∉ ["start"; "stop"; "status"; "condrestart"; "setup"] ->
  status (snd (handleDaemons m args s)) = 1%N /\
  ran (snd (handleDaemons m args s)) =
    ran s ++ [["echo"; "Unrecognized command: " +:+ arg 1 args]].
Proof.
  intros Hcmd.
  destruct (default_account "XROOTD_USER" s) as (s1 & H1 & Hr1 & _ & _).
  destruct (default_account "XROOTD_GROUP" s1) as (s2 & H2 & Hr2 & _ & _).
  unfold handleDaemons.
  rewrite (bind_go _ _ s tt s1 H1), (bind_go _ _ s1 tt s2 H2).
  rewrite (bind_go (assign "COMMAND" (fun _ => arg 1 args)) _ s2 tt _
             eq_refl).
  set (s3 := mkShell (<["COMMAND" := arg 1 args]> (vars s2)) 0 (ran s2)
               (host s2)).
  assert (Hshift : exists rest s4,
            shift 1 args s3 = (Go rest, s4) /\ ran s4 = ran s3 /\
            get s4 "COMMAND" = arg 1 args).
  { unfold shift. destruct (1 <=? length args)%nat; eexists _, _;
      (split; [reflexivity|]); cbn; split; try reflexivity;
      unfold get; cbn; now rewrite lookup_insert_eq. }
  destruct Hshift as (rest & s4 & Hshift & Hr4 & Hc4).
  rewrite (bind_go _ _ s3 rest s4 Hshift).
  assert (Hne : forall c, c ∈ ["start"; "stop"; "status"; "condrestart";
                               "setup"] ->
                          String.eqb (arg 1 args) c = false).
  { intros c Hc. apply String.eqb_neq. intros Heq. rewrite Heq in Hcmd.
    contradiction. }
  rewrite (bind_returned _ _ s4
             (mkShell (vars s4) 1
                (ran s4 ++ [["echo"; "Unrecognized command: "
                                     +:+ arg 1 args]])
                (snd (builtin_outcome m ["echo"; "Unrecognized command: "
                                                 +:+ arg 1 args] s4)))).
  - cbn [snd status ran]. split; [reflexivity|].
    rewrite Hr4. unfold s3. cbn [ran]. now rewrite Hr2, Hr1.
  - rewrite Hc4. rewrite !Hne by set_solver.
    unfold bind, builtin, return_. rewrite Hc4.
    destruct (builtin_outcome m _ s4). reflexivity.
Qed.

(** [if test $? -ne 0; then return n; fi] *)
Lemma guard n (s : shell H) :
  if_then (test (fun s => negb (status s =? 0)%N)) (return_ n) s =
    if (status s =? 0)%N then (Go tt, set_status 0 s)
    else (Returned, set_status n s).
Proof.
  unfold if_then, bind, test, return_, set_status. cbn [status vars ran host].
  destruct (status s =? 0)%N; reflexivity.
Qed.

Lemma bind_guard {B} n (k : unit -> Sh H B) (s : shell H) :
  bind (if_then (test (fun s => negb (status s =? 0)%N)) (return_ n)) k s =
    if (status s =? 0)%N then k tt (set_status 0 s)
    else (Returned, set_status n s).
Proof. unfold bind at 1. rewrite guard. now destruct (status s =? 0)%N. Qed.

Lemma bind_call {B} f args (k : unit -> Sh H B) (s : shell H) :
  bind (call f args) k s =
    k tt (set_status (status (snd (f (args s) s))) (snd (f (args s) s))).
Proof. reflexivity. Qed.

Lemma bind_command {B} argv (k : unit -> Sh H B) (s : shell H) :
  argv s <> [] ->
  bind (command m argv) k s =
    k tt (mkShell (vars (run m (argv s) s)) (status (run m (argv s) s) mod 256)
            (ran s ++ [argv s]) (host (run m (argv s) s))).
Proof. intros Hne. unfold bind, command. now destruct (argv s). Qed.

Lemma bind_assign {B} x v (k : unit -> Sh H B) (s : shell H) :
  bind (assign x v) k s =
    k tt (mkShell (<[x := v s]> (vars s)) 0 (ran s) (host s)).
Proof. reflexivity. Qed.

(** X19. [condrestartDaemon] returns 0, 1 or 2, whatever the daemon, the
    commands and [stopDaemon] and [startDaemon] return. *)
Theorem condrestart_status_is_0_1_or_2 args (s : shell H) :
  status (snd (condrestartDaemon m args s)) = 0%N \/
  status (snd (condrestartDaemon m args s)) = 1%N \/
  status (snd (condrestartDaemon m args s)) = 2%N.
Proof.
  unfold condrestartDaemon.
  rewrite bind_assign, bind_command, bind_guard by discriminate.
  match goal with |- context [if ?b then _ else _] => destruct b end;
    [|now left].
  rewrite bind_call, bind_guard.
  match goal with |- context [if ?b then _ else _] => destruct b end;
    [|now right; left].
  rewrite bind_call, bind_guard.
  match goal with |- context [if ?b then _ else _] => destruct b end;
    [now left | now right; right].
Qed.

(** X20. A daemon that is not running is left alone by
    [condrestartDaemon]: when [status] fails, the function returns 0 and
    has run nothing but that one [status], neither [stopDaemon] nor
    [startDaemon]. *)
Theorem condrestart_of_a_stopped_daemon args (s s1 : shell H) argv :
  s1 = snd (assign "PIDFILE"
              (fun _ => "/var/run/xrootd/" +:+ arg 1 args +:+ "-"
                        +:+ arg 5 args +:+ ".pid") s) ->
  argv = ["status"; "-p"] ++ fields m s1 (get s1 "PIDFILE")
         ++ fields m s1 (arg 1 args) ->
  (status (run m argv s1) mod 256)%N <> 0%N ->
  status (snd (condrestartDaemon m args s)) = 0%N /\
  ran (snd (condrestartDaemon m args s)) = ran s ++ [argv].
Proof.
  intros -> -> Hdown. unfold condrestartDaemon.
  rewrite bind_assign, bind_command, bind_guard by discriminate.
  cbn [assign snd] in Hdown.
  cbn [status]. apply N.eqb_neq in Hdown. rewrite Hdown.
  cbn [snd set_status status ran]. split; reflexivity.
Qed.

Lemma bind_bind {A B C} (c : Sh H A) (f : A -> Sh H B) (k : B -> Sh H C) s :
  bind (bind c f) k s = bind c (fun a => bind (f a) k) s.
Proof. unfold bind. now destruct (c s) as [[]]. Qed.

Lemma bind_builtin {B} argv (k : unit -> Sh H B) (s : shell H) :
  bind (builtin m argv) k s =
    k tt (mkShell (vars s) (fst (builtin_outcome m (argv s) s) mod 256)
            (ran s ++ [argv s]) (snd (builtin_outcome m (argv s) s))).
Proof. unfold bind, builtin. now destruct (builtin_outcome m (argv s) s). Qed.

(** [if test -e file; then t; fi] *)
Lemma bind_if_file {B} args (t : Sh H unit) (k : unit -> Sh H B) s :
  bind (if_then (test_file m args) t) k s =
    if (test_other m (args s) s mod 256 =? 0)%N
    then bind t k (set_status (test_other m (args s) s) s)
    else k tt (set_status 0 (set_status (test_other m (args s) s) s)).
Proof.
  unfold if_then, test_file, bind. cbn [set_status status].
  now destruct (test_other m (args s) s mod 256 =? 0)%N.
Qed.

(** [if test $? -ne 0; then t; fi] *)
Lemma bind_if_failed {B} (t : Sh H unit) (k : unit -> Sh H B) s :
  bind (if_then (test (fun s => negb (status s =? 0)%N)) t) k s =
    if (status s =? 0)%N then k tt (set_status 0 (set_status 1 s))
    else bind t k (set_status 0 s).
Proof.
  unfold if_then, test, bind. cbn [set_status status].
  now destruct (status s =? 0)%N.
Qed.

(** [RETVAL=$?; echo; return $RETVAL] returns the status it found. *)
Lemma return_of_RETVAL (s : shell H) :
  (status s < 256)%N ->
  exists s',
    bind (assign "RETVAL" (fun s => pretty (status s)))
      (fun _ => bind (builtin m (fun _ => ["echo"]))
         (fun _ => return_words m (A := unit)
                     (fun s => fields m s (get s "RETVAL")))) s
    = (Returned, s') /\
    status s' = status s /\ ran s' = ran s ++ [["echo"]].
Proof.
  intros Hlt. destruct (status_word (status s) Hlt) as (Hne & Hplain & Hnum).
  rewrite bind_assign, bind_builtin. unfold return_words, fields, get.
  cbn [vars]. rewrite lookup_insert_eq. cbv [default from_option id].
  rewrite Hne, Hplain, Hnum, (status_fits _ Hlt).
  eexists. split; [reflexivity|].
  cbn [set_status status ran]. split; [now apply N.mod_small | reflexivity].
Qed.

(** X21. Without a pid file [stopDaemon] kills nothing: it returns 0 and
    all it runs are its three [echo]. *)
Theorem stop_without_pid_file args (s s1 : shell H) :
  s1 = snd (assign "PIDFILE"
              (fun _ => "/var/run/xrootd/" +:+ arg 1 args +:+ "-"
                        +:+ arg 5 args +:+ ".pid")
              (snd (builtin m
                      (fun _ => ["echo"; "-n";
                                 "Shutting down xrootd (" +:+ arg 1 args
                                 +:+ ", " +:+ arg 5 args +:+ "): "]) s))) ->
  (test_other m (["-e"] ++ fields m s1 (get s1 "PIDFILE")) s1 mod 256)%N
    <> 0%N ->
  status (snd (stopDaemon m args s)) = 0%N /\
  ran (snd (stopDaemon m args s)) =
    ran s ++ [["echo"; "-n";
               "Shutting down xrootd (" +:+ arg 1 args +:+ ", "
               +:+ arg 5 args +:+ "): "];
              ["echo"; "-n"; arg 1 args +:+ "-" +:+ arg 5 args
                             +:+ " not running"];
              ["echo"]].
Proof.
  intros -> Hno. unfold stopDaemon.
  rewrite bind_builtin, bind_assign, bind_if_file.
  unfold builtin in Hno. destruct (builtin_outcome m _ s) as [n h] eqn:Hecho.
  cbn [assign snd fst] in Hno |- *.
  apply N.eqb_neq in Hno. rewrite Hno.
  rewrite !bind_builtin. unfold return_.
  cbn [snd set_status status ran]. split; [reflexivity|].
  now rewrite <- !app_assoc.
Qed.

(** X22. With a pid file [stopDaemon] returns the exit status of
    [killproc], and runs nothing but its [echo], [killproc] and one more
    [echo]. *)
Theorem stop_returns_the_status_of_killproc args (s s1 s2 : shell H) argv :
  s1 = snd (assign "PIDFILE"
              (fun _ => "/var/run/xrootd/" +:+ arg 1 args +:+ "-"
                        +:+ arg 5 args +:+ ".pid")
              (snd (builtin m
                      (fun _ => ["echo"; "-n";
                                 "Shutting down xrootd (" +:+ arg 1 args
                                 +:+ ", " +:+ arg 5 args +:+ "): "]) s))) ->
  (test_other m (["-e"] ++ fields m s1 (get s1 "PIDFILE")) s1 mod 256)%N
    = 0%N ->
  s2 = set_status 0 s1 ->
  argv = ["killproc"; "-p"] ++ fields m s2 (get s2 "PIDFILE")
         ++ fields m s2 (arg 1 args) ->
  status (snd (stopDaemon m args s)) = (status (run m argv s2) mod 256)%N /\
  ran (snd (stopDaemon m args s)) =
    ran s ++ [["echo"; "-n";
               "Shutting down xrootd (" +:+ arg 1 args +:+ ", "
               +:+ arg 5 args +:+ "): "];
              argv; ["echo"]].
Proof.
  intros Hs1 Hpid -> ->.
  assert (Hran1 : ran s1 = ran s ++ [["echo"; "-n";
                    "Shutting down xrootd (" +:+ arg 1 args +:+ ", "
                    +:+ arg 5 args +:+ "): "]]).
  { subst s1. unfold builtin. now destruct (builtin_outcome m _ s). }
  assert (Hfound :
            set_status
              (test_other m (["-e"] ++ fields m s1 (get s1 "PIDFILE")) s1) s1
            = set_status 0 s1).
  { unfold set_status. now rewrite Hpid. }
  set (s2 := set_status 0 s1) in *.
  set (argv := ["killproc"; "-p"] ++ fields m s2 (get s2 "PIDFILE")
               ++ fields m s2 (arg 1 args)).
  assert (Hrun : exists s',
            stopDaemon m args s = (Returned, s') /\
            status s' = (status (run m argv s2) mod 256)%N /\
            ran s' = ran s1 ++ [argv; ["echo"]]).
  { unfold stopDaemon. rewrite bind_builtin, bind_assign.
    match goal with
    | |- context [bind (if_then _ _) _ ?st] =>
        replace st with s1
          by (subst s1; unfold builtin; now destruct (builtin_outcome m _ s))
    end.
    rewrite bind_if_file. cbv beta. rewrite Hpid, Hfound. cbn [N.eqb].
    rewrite bind_bind, bind_command by discriminate. fold argv.
    match goal with
    | |- context [bind (bind (assign "RETVAL" _) _) _ ?s3] =>
        destruct (return_of_RETVAL s3) as (s' & Hret & Hst & Hran);
          [cbn [status]; now apply N.mod_lt|];
          rewrite (bind_returned _ _ s3 s' Hret)
    end.
    exists s'. split; [reflexivity|]. rewrite Hst, Hran. cbn [status ran].
    split; [reflexivity|]. now rewrite <- app_assoc. }
  destruct Hrun as (s' & -> & Hst & Hran). cbn [snd].
  rewrite Hst, Hran, Hran1. split; [reflexivity|]. now rewrite <- app_assoc.
Qed.

Lemma fields_plain (s : shell H) w :
  w <> "" -> plain w = true -> fields m s w = [w].
Proof.
  intros Hne Hplain. unfold fields. apply String.eqb_neq in Hne.
  now rewrite Hne, Hplain.
Qed.

Lemma bind_return {B} n (k : unit -> Sh H B) (s : shell H) :
  bind (return_ n) k s = (Returned, set_status n s).
Proof. reflexivity. Qed.

Lemma bind_program {B} argv (k : unit -> Sh H B) (s : shell H) :
  bind (program m argv) k s =
    k tt (mkShell (vars s) (fst (builtin_outcome m (argv s) s) mod 256)
            (ran s ++ [argv s]) (snd (builtin_outcome m (argv s) s))).
Proof. apply bind_builtin. Qed.

(** [checkSanity] for an account that [getent] does not find, lines 67-77 *)
Lemma checkSanity_without_account user rest (s : shell H) :
  user <> "" -> plain user = true ->
  (forall s', (fst (builtin_outcome m ["getent"; "passwd"; user] s')
               mod 256)%N <> 0%N) ->
  exists s',
    checkSanity m (user :: rest) s = (Returned, s') /\
    status s' = 1%N /\
    ran s' = ran s ++ [["getent"; "passwd"; user];
                       ["echo"; "User account for: " +:+ user
                                +:+ " doesn't exist"]].
Proof.
  intros Hne Hplain Hmissing. unfold checkSanity.
  rewrite !bind_assign, bind_program. cbv beta.
  assert (Hargv : forall s0 : shell H,
            get s0 "XROOTD_USER" = user ->
            ["getent"; "passwd"] ++ fields m s0 (get s0 "XROOTD_USER")
            = ["getent"; "passwd"; user]).
  { intros s0 ->. now rewrite fields_plain. }
  rewrite !Hargv
    by (unfold get; cbn [vars arg nth Nat.sub];
        rewrite lookup_insert_ne by discriminate;
        now rewrite lookup_insert_eq).
  rewrite bind_if_failed. cbn [status].
  match goal with
  | |- context [builtin_outcome m _ ?st] =>
      specialize (Hmissing st)
  end.
  apply N.eqb_neq in Hmissing. rewrite Hmissing.
  rewrite bind_bind, bind_builtin, bind_return.
  eexists. split; [reflexivity|]. cbn [set_status status ran].
  split; [reflexivity|]. rewrite <- app_assoc. cbn [app].
  do 4 f_equal. unfold get. cbn [set_status vars arg nth Nat.sub].
  rewrite lookup_insert_ne by discriminate.
  now rewrite lookup_insert_eq.
Qed.


(** X23. Without the account nothing is started: when [getent] does not
    find the user, [startDaemon] returns 1, and all it runs are [ulimit],
    that [getent] and the two complaints; [daemon] is not among them. *)
Theorem start_needs_the_account args (s : shell H) :
  arg 3 args <> "" -> plain (arg 3 args) = true ->
  (forall s', (fst (builtin_outcome m ["getent"; "passwd"; arg 3 args] s')
               mod 256)%N <> 0%N) ->
  status (snd (startDaemon m args s)) = 1%N /\
  ran (snd (startDaemon m args s)) =
    ran s ++ [["ulimit"; "-n"; "65536"];
              ["getent"; "passwd"; arg 3 args];
              ["echo"; "User account for: " +:+ arg 3 args
                       +:+ " doesn't exist"];
              ["echo"; "Please run: service xrootd setup"]].
Proof.
  intros Hne Hplain Hmissing. unfold startDaemon.
  rewrite bind_builtin. cbv beta.
  destruct (builtin_outcome m ["ulimit"; "-n"; "65536"] s) as [n h].
  cbn [fst snd].
  repeat (rewrite bind_assign; cbn [vars status ran host]).
  rewrite bind_call. cbv beta.
  match goal with
  | |- context [checkSanity m (fields m ?st (get ?st "XROOTD_USER") ++ ?l) _] =>
      assert (Huser : fields m st (get st "XROOTD_USER") = [arg 3 args])
        by (unfold get; cbn [vars];
            repeat (rewrite lookup_insert_eq
                    || rewrite lookup_insert_ne by discriminate);
            cbv [default from_option id];
            now apply fields_plain);
        rewrite Huser; cbn [app];
        destruct (checkSanity_without_account (arg 3 args) l st
                    Hne Hplain Hmissing) as (s' & Hcheck & Hst & Hran)
  end.
  rewrite Hcheck. cbn [snd]. rewrite bind_if_failed.
  cbn [set_status status]. rewrite Hst.
  change (1 mod 256 =? 0)%N with false. cbv iota.
  rewrite bind_bind, bind_builtin, bind_return.
  cbn [snd set_status status ran]. split; [reflexivity|].
  rewrite Hran. cbn [ran]. now rewrite <- !app_assoc.
Qed.

(** [statusOfTheDaemon] up to its [return], lines 158-160 *)
Lemma statusOfTheDaemon_run args (s s1 : shell H) argv :
  s1 = snd (builtin m (fun _ => ["echo"; "-n"; "[" +:+ arg 5 args +:+ "] "])
              (snd (assign "PIDFILE"
                      (fun _ => "/var/run/xrootd/" +:+ arg 1 args +:+ "-"
                                +:+ arg 5 args +:+ ".pid") s))) ->
  argv = ["status"; "-p"] ++ fields m s1 (get s1 "PIDFILE")
         ++ fields m s1 (arg 1 args) ->
  statusOfTheDaemon m args s =
    return_words m (fun s => fields m s (get s "RETVAL"))
      (mkShell (vars (run m argv s1)) (status (run m argv s1) mod 256)
         (ran s1 ++ [argv]) (host (run m argv s1))).
Proof.
  intros Hs1 ->. unfold statusOfTheDaemon.
  rewrite bind_assign, bind_builtin.
  match goal with
  | |- context [bind (command m _) _ ?st] =>
      replace st with s1
        by (subst s1; unfold builtin, assign; cbn [snd];
            now destruct (builtin_outcome m _ _))
  end.
  now rewrite bind_command by discriminate.
Qed.

(** X24. When [status] leaves no [RETVAL], [statusOfTheDaemon] returns the
    exit status of [status]. *)
Theorem status_without_RETVAL args (s s1 : shell H) argv :
  s1 = snd (builtin m (fun _ => ["echo"; "-n"; "[" +:+ arg 5 args +:+ "] "])
              (snd (assign "PIDFILE"
                      (fun _ => "/var/run/xrootd/" +:+ arg 1 args +:+ "-"
                                +:+ arg 5 args +:+ ".pid") s))) ->
  argv = ["status"; "-p"] ++ fields m s1 (get s1 "PIDFILE")
         ++ fields m s1 (arg 1 args) ->
  get (run m argv s1) "RETVAL" = "" ->
  status (snd (statusOfTheDaemon m args s)) =
    (status (run m argv s1) mod 256)%N.
Proof.
  intros Hs1 Hargv Hnone.
  rewrite (statusOfTheDaemon_run args s s1 argv Hs1 Hargv).
  unfold return_words, fields, get in *. cbn [vars snd] in *.
  now rewrite Hnone.
Qed.

(** X25. When [RETVAL] holds a number after [status], that number, modulo
    256, is what [statusOfTheDaemon] returns, whatever [status] found. *)
Theorem status_returns_RETVAL args (s s1 : shell H) argv w n :
  s1 = snd (builtin m (fun _ => ["echo"; "-n"; "[" +:+ arg 5 args +:+ "] "])
              (snd (assign "PIDFILE"
                      (fun _ => "/var/run/xrootd/" +:+ arg 1 args +:+ "-"
                                +:+ arg 5 args +:+ ".pid") s))) ->
  argv = ["status"; "-p"] ++ fields m s1 (get s1 "PIDFILE")
         ++ fields m s1 (arg 1 args) ->
  get (run m argv s1) "RETVAL" = w ->
  plain w = true -> number w = Some n -> (n < 2 ^ 63)%N ->
  status (snd (statusOfTheDaemon m args s)) = (n mod 256)%N.
Proof.
  intros Hs1 Hargv Hw Hplain Hnum Hfits. apply N.ltb_lt in Hfits.
  rewrite (statusOfTheDaemon_run args s s1 argv Hs1 Hargv).
  assert (Hne : w <> "") by (intros ->; discriminate).
  unfold return_words.
  replace (get _ "RETVAL") with w by (now rewrite <- Hw).
  now rewrite fields_plain, Hnum, Hfits.
Qed.



End Facts.

(** ** The facts on the concrete machine *)

Lemma last_instance_decides_witness :
  status (snd (run_instances example_machine (fun _ => ["a"] ++ ["b"])
                 example_shell)) =
    status (snd (invoke example_machine (handler_call example_machine)
                   (before_handler ["a"] "b"))) /\
  get (snd (run_instances example_machine (fun _ => ["a"] ++ ["b"])
              example_shell)) "STATUS" =
    pretty (status (snd (invoke example_machine
                           (handler_call example_machine)
                           (before_handler ["a"] "b")))).
Proof.
  apply (last_instance_decides example_machine ["a"] "b" example_shell
           (after_rounds ["a"]) (before_handler ["a"] "b")).
  - reflexivity.
  - vm_compute; reflexivity.
Defined.

(** Stopping [a] fails with 3 and stopping [b] succeeds: the status of the
    whole depends on the order alone. *)
Example failure_of_a_is_forgotten :
  status (snd (run_instances example_machine (fun _ => ["a"; "b"])
                 example_shell)) = 0%N /\
  status (snd (run_instances example_machine (fun _ => ["b"; "a"])
                 example_shell)) = 3%N.
Proof. split; vm_compute; reflexivity. Qed.

Lemma unrecognized_command_is_rejected_witness :
  status (snd (handleDaemons example_machine ["restart"; "xrootd"]
                 example_shell)) = 1%N /\
  ran (snd (handleDaemons example_machine ["restart"; "xrootd"]
              example_shell)) =
    ran example_shell
    ++ [["echo"; "Unrecognized command: " +:+ arg 1 ["restart"; "xrootd"]]].
Proof.
  apply (unrecognized_command_is_rejected example_machine
           ["restart"; "xrootd"] example_shell).
  apply (bool_decide_unpack _). vm_compute. exact I.
Defined.

Lemma condrestart_of_a_stopped_daemon_witness :
  status (snd (condrestartDaemon example_machine
                 ["xrootd"; "/usr/bin/xrootd"; "daemon"; "daemon"; "a";
                  "-c /etc/xrootd/a.cfg"] example_shell)) = 0%N /\
  ran (snd (condrestartDaemon example_machine
              ["xrootd"; "/usr/bin/xrootd"; "daemon"; "daemon"; "a";
               "-c /etc/xrootd/a.cfg"] example_shell)) =
    ran example_shell
    ++ [["status"; "-p"; "/var/run/xrootd/xrootd-a.pid"; "xrootd"]].
Proof.
  apply (condrestart_of_a_stopped_daemon example_machine
           ["xrootd"; "/usr/bin/xrootd"; "daemon"; "daemon"; "a";
            "-c /etc/xrootd/a.cfg"] example_shell
           (snd (assign "PIDFILE"
                   (fun _ => "/var/run/xrootd/xrootd-a.pid") example_shell))).
  - reflexivity.
  - vm_compute; reflexivity.
  - vm_compute. discriminate.
Defined.

Lemma stop_without_pid_file_witness :
  status (snd (stopDaemon example_machine
                 ["xrootd"; "/usr/bin/xrootd"; "daemon"; "daemon"; "c";
                  "-c /etc/xrootd/c.cfg"] example_shell)) = 0%N /\
  ran (snd (stopDaemon example_machine
              ["xrootd"; "/usr/bin/xrootd"; "daemon"; "daemon"; "c";
               "-c /etc/xrootd/c.cfg"] example_shell)) =
    ran example_shell
    ++ [["echo"; "-n"; "Shutting down xrootd (xrootd, c): "];
        ["echo"; "-n"; "xrootd-c not running"]; ["echo"]].
Proof.
  apply (stop_without_pid_file example_machine
           ["xrootd"; "/usr/bin/xrootd"; "daemon"; "daemon"; "c";
            "-c /etc/xrootd/c.cfg"] example_shell
           (set_var "PIDFILE" "/var/run/xrootd/xrootd-c.pid"
              (mkShell (vars example_shell) 0
                 [["echo"; "-n"; "Shutting down xrootd (xrootd, c): "]] tt))).
  - reflexivity.
  - vm_compute. discriminate.
Defined.

Lemma stop_returns_the_status_of_killproc_witness :
  status (snd (stopDaemon example_machine
                 ["xrootd"; "/usr/bin/xrootd"; "daemon"; "daemon"; "a";
                  "-c /etc/xrootd/a.cfg"] example_shell)) = (3 mod 256)%N /\
  ran (snd (stopDaemon example_machine
              ["xrootd"; "/usr/bin/xrootd"; "daemon"; "daemon"; "a";
               "-c /etc/xrootd/a.cfg"] example_shell)) =
    ran example_shell
    ++ [["echo"; "-n"; "Shutting down xrootd (xrootd, a): "];
        ["killproc"; "-p"; "/var/run/xrootd/xrootd-a.pid"; "xrootd"];
        ["echo"]].
Proof.
  apply (stop_returns_the_status_of_killproc example_machine
           ["xrootd"; "/usr/bin/xrootd"; "daemon"; "daemon"; "a";
            "-c /etc/xrootd/a.cfg"] example_shell
           (set_var "PIDFILE" "/var/run/xrootd/xrootd-a.pid"
              (mkShell (vars example_shell) 0
                 [["echo"; "-n"; "Shutting down xrootd (xrootd, a): "]] tt))
           (set_var "PIDFILE" "/var/run/xrootd/xrootd-a.pid"
              (mkShell (vars example_shell) 0
                 [["echo"; "-n"; "Shutting down xrootd (xrootd, a): "]] tt))
           ["killproc"; "-p"; "/var/run/xrootd/xrootd-a.pid"; "xrootd"]).
  - reflexivity.
  - vm_compute. reflexivity.
  - reflexivity.
  - vm_compute. reflexivity.
Defined.

Lemma start_needs_the_account_witness :
  status (snd (startDaemon example_machine
                 ["xrootd"; "/usr/bin/xrootd"; "nobody"; "daemon"; "a";
                  "-c /etc/xrootd/a.cfg"] example_shell)) = 1%N /\
  ran (snd (startDaemon example_machine
              ["xrootd"; "/usr/bin/xrootd"; "nobody"; "daemon"; "a";
               "-c /etc/xrootd/a.cfg"] example_shell)) =
    ran example_shell
    ++ [["ulimit"; "-n"; "65536"]; ["getent"; "passwd"; "nobody"];
        ["echo"; "User account for: nobody doesn't exist"];
        ["echo"; "Please run: service xrootd setup"]].
Proof.
  apply (start_needs_the_account example_machine
           ["xrootd"; "/usr/bin/xrootd"; "nobody"; "daemon"; "a";
            "-c /etc/xrootd/a.cfg"] example_shell).
  - discriminate.
  - vm_compute. reflexivity.
  - intros s'. vm_compute. discriminate.
Defined.

Lemma status_without_RETVAL_witness :
  status (snd (statusOfTheDaemon example_machine
                 ["xrootd"; "/usr/bin/xrootd"; "daemon"; "daemon"; "a";
                  "-c /etc/xrootd/a.cfg"] example_shell)) = (3 mod 256)%N.
Proof.
  apply (status_without_RETVAL example_machine
           ["xrootd"; "/usr/bin/xrootd"; "daemon"; "daemon"; "a";
            "-c /etc/xrootd/a.cfg"] example_shell
           (mkShell
              (<["PIDFILE" := "/var/run/xrootd/xrootd-a.pid"]>
                 (vars example_shell))
              0 [["echo"; "-n"; "[a] "]] tt)
           ["status"; "-p"; "/var/run/xrootd/xrootd-a.pid"; "xrootd"]).
  - reflexivity.
  - vm_compute. reflexivity.
  - vm_compute. reflexivity.
Defined.

Lemma status_returns_RETVAL_witness :
  status (snd (statusOfTheDaemon example_machine
                 ["xrootd"; "/usr/bin/xrootd"; "daemon"; "daemon"; "a";
                  "-c /etc/xrootd/a.cfg"]
                 (set_var "RETVAL" "0" example_shell))) = (0 mod 256)%N.
Proof.
  apply (status_returns_RETVAL example_machine
           ["xrootd"; "/usr/bin/xrootd"; "daemon"; "daemon"; "a";
            "-c /etc/xrootd/a.cfg"]
           (set_var "RETVAL" "0" example_shell)
           (mkShell
              (<["PIDFILE" := "/var/run/xrootd/xrootd-a.pid"]>
                 (vars (set_var "RETVAL" "0" example_shell)))
              0 [["echo"; "-n"; "[a] "]] tt)
           ["status"; "-p"; "/var/run/xrootd/xrootd-a.pid"; "xrootd"]
           "0" 0%N).
  - reflexivity.
  - vm_compute. reflexivity.
  - vm_compute. reflexivity.
  - vm_compute. reflexivity.
  - vm_compute. reflexivity.
  - vm_compute. reflexivity.
Defined.


End InitScriptFacts.
